(** * ai-review-gateway: provider registry, prompt builder and response normaliser

    A shallow embedding of the Go packages [prompt] (prompt construction and
    the parsing of a backend reply into diagnostics), [models] (the
    diagnostic schema) and [providers] (the provider registry), together
    with the properties the specification states about them.

    Conventions.
    - A Go [string] is a sequence of bytes: it is modelled as [string], whose
      characters are the 256 values of [ascii].
    - A Go [int] is taken at its 64-bit width and is modelled as a [Z] in
      the range [-2^63, 2^63 - 1]; addition wraps around and the
      wrap-around is written out ([GoInt.add]).
    - A Go function returning a pointer and an [error] is modelled as a
      function into a pair of options, [None] standing for [nil] on either
      side.
    - The four library packages the code calls ([strings], [strconv],
      [regexp], [encoding/json]) are modelled by executable definitions in
      the modules [GoStrings], [strconv], [Regexp] and [JSON]; each states
      which part of the library behaviour it covers. *)

From Stdlib Require Import ZArith NArith Ascii String List Bool Lia DecimalString.
From stdpp Require Import base option list strings gmap.

(** ** Characters and bytes *)

Definition byte_code (c : ascii) : N := N_of_ascii c.

(** The characters that cannot be written inside a string literal. *)
Definition DQ : ascii := "034"%char.   (* the double quote *)
Definition NL : ascii := "010"%char.   (* line feed, \n *)
Definition BSL : ascii := "092"%char.  (* the backslash *)

Definition nl : string := String NL EmptyString.

(** [js s] is [s] with every apostrophe replaced by a double quote; it is
    only used to write JSON test inputs legibly. *)
Fixpoint js (s : string) : string :=
  match s with
  | EmptyString => EmptyString
  | String c s' => String (if Ascii.eqb c "'"%char then DQ else c) (js s')
  end.

Fixpoint string_rev_append (s acc : string) : string :=
  match s with
  | EmptyString => acc
  | String c s' => string_rev_append s' (String c acc)
  end.

Definition string_rev (s : string) : string := string_rev_append s EmptyString.

(** The slice [s[from:to]] of a string. *)
Fixpoint string_take (n : nat) (s : string) : string :=
  match n with
  | O => EmptyString
  | S n' =>
    match s with
    | EmptyString => EmptyString
    | String c s' => String c (string_take n' s')
    end
  end.

Fixpoint string_drop (n : nat) (s : string) : string :=
  match n with
  | O => s
  | S n' =>
    match s with
    | EmptyString => EmptyString
    | String _ s' => string_drop n' s'
    end
  end.

Definition string_slice (from to : nat) (s : string) : string :=
  string_take (to - from) (string_drop from s).

Definition in_range (lo hi : N) (c : ascii) : bool :=
  ((lo <=? byte_code c) && (byte_code c <=? hi))%N.

Definition is_digit (c : ascii) : bool := in_range 48 57 c.
Definition is_lower (c : ascii) : bool := in_range 97 122 c.
Definition is_upper (c : ascii) : bool := in_range 65 90 c.

Definition ascii_upper (c : ascii) : ascii :=
  if is_lower c then ascii_of_N (byte_code c - 32) else c.
Definition ascii_lower (c : ascii) : ascii :=
  if is_upper c then ascii_of_N (byte_code c + 32) else c.

Definition string_in (s : string) (l : list string) : bool :=
  existsb (String.eqb s) l.

(** ** Go's [int] (64 bits) *)

Module GoInt.
Definition min_int : Z := - 2 ^ 63.
Definition max_int : Z := 2 ^ 63 - 1.
(** Two's-complement wrap-around of a mathematical integer. *)
Definition wrap (z : Z) : Z := ((z + 2 ^ 63) mod 2 ^ 64 - 2 ^ 63)%Z.
Definition add (a b : Z) : Z := wrap (a + b).
End GoInt.

(** ** Package [strings] *)

Module GoStrings.

(** The six one-byte white space characters of [unicode.IsSpace]:
    \t \n \v \f \r and the space. *)
Definition is_ascii_space (c : ascii) : bool :=
  in_range 9 13 c || (byte_code c =? 32)%N.

(** The two-byte UTF-8 encodings of white space: U+0085 and U+00A0. *)
Definition is_space2 (b1 b2 : ascii) : bool :=
  (byte_code b1 =? 194)%N && ((byte_code b2 =? 133) || (byte_code b2 =? 160))%N.

(** The three-byte UTF-8 encodings of white space: U+1680, U+2000 to
    U+200A, U+2028, U+2029, U+202F, U+205F and U+3000. *)
Definition is_space3 (b1 b2 b3 : ascii) : bool :=
  let '(x, y, z) := (byte_code b1, byte_code b2, byte_code b3) in
  ((x =? 225) && (y =? 154) && (z =? 128)
   || (x =? 226) && (y =? 128)
      && ((128 <=? z) && (z <=? 138) || (z =? 168) || (z =? 169) || (z =? 175))
   || (x =? 226) && (y =? 129) && (z =? 159)
   || (x =? 227) && (y =? 128) && (z =? 128))%N.

(** [trim_front back s] removes the white space runes at the front of
    [s]; with [back = true] the string is read back to front, so that a
    multi-byte rune shows its last byte first. *)
Fixpoint trim_front (back : bool) (s : string) : string :=
  match s with
  | EmptyString => s
  | String c1 s1 =>
    if is_ascii_space c1 then trim_front back s1
    else
      match s1 with
      | EmptyString => s
      | String c2 s2 =>
        if (if back then is_space2 c2 c1 else is_space2 c1 c2)
        then trim_front back s2
        else
          match s2 with
          | EmptyString => s
          | String c3 s3 =>
            if (if back then is_space3 c3 c2 c1 else is_space3 c1 c2 c3)
            then trim_front back s3
            else s
          end
      end
  end.

(** [strings.TrimSpace]: leading and trailing white space, as defined by
    Unicode, removed. *)
Definition TrimSpace (s : string) : string :=
  string_rev (trim_front true (string_rev (trim_front false s))).

(** [strings.ToUpper], as far as this program can tell its results apart.
    The program compares the result with words of ASCII letters only.  The
    model gives the result, [Some], when every rune of it is an ASCII
    character, and [None] when it holds a rune outside ASCII: which rune
    that is depends on the tables of package [unicode], which are not
    modelled.  An ASCII letter a to z goes to A to Z and every other ASCII
    character to itself.  Of the runes outside ASCII exactly two have their
    upper case inside ASCII: U+0131, the dotless i (the bytes 196 177),
    goes to I, and U+017F, the long s (the bytes 197 191), goes to S.
    Every other rune outside ASCII goes to a rune outside ASCII, and a
    byte that is not valid UTF-8 to U+FFFD.  The byte 196 in front of 177,
    and 197 in front of 191, is always read as that rune: neither 196 nor
    197 can continue a rune that an earlier byte began. *)
Fixpoint ToUpper (s : string) : option string :=
  match s with
  | EmptyString => Some EmptyString
  | String c s' =>
    if (byte_code c <? 128)%N
    then option_map (String (ascii_upper c)) (ToUpper s')
    else
      match s' with
      | String d s'' =>
        if ((byte_code c =? 196) && (byte_code d =? 177))%N
        then option_map (String "I"%char) (ToUpper s'')
        else if ((byte_code c =? 197) && (byte_code d =? 191))%N
        then option_map (String "S"%char) (ToUpper s'')
        else None
      | EmptyString => None
      end
  end.

(** [strings.HasPrefix]. *)
Fixpoint HasPrefix (s prefix : string) {struct prefix} : bool :=
  match prefix, s with
  | EmptyString, _ => true
  | String p prefix', String c s' => Ascii.eqb c p && HasPrefix s' prefix'
  | String _ _, EmptyString => false
  end.

(** [strings.Split s sep] for a one-byte separator: the pieces between
    the separators, [length = 1 + number of separators]. *)
Fixpoint split_byte (sep : ascii) (s : string) (cur : string) : list string :=
  match s with
  | EmptyString => [string_rev cur]
  | String c s' =>
    if Ascii.eqb c sep then string_rev cur :: split_byte sep s' EmptyString
    else split_byte sep s' (String c cur)
  end.

Definition Split (s : string) (sep : ascii) : list string :=
  split_byte sep s EmptyString.

End GoStrings.

(** ** Package [strconv] *)

Module strconv.

Inductive num_error := ErrSyntax | ErrRange.

Fixpoint digits_value (s : string) (acc : Z) : option Z :=
  match s with
  | EmptyString => Some acc
  | String c s' =>
    if is_digit c
    then digits_value s' (10 * acc + Z.of_N (byte_code c - 48))%Z
    else None
  end.

(** [strconv.ParseInt(s, 10, 64)]: an optional sign and decimal digits.
    On a syntax error the value is 0; when the number does not fit in 64
    bits the value is the nearest bound and the error is a range error. *)
Definition ParseInt (s : string) : Z * option num_error :=
  let '(neg, body) :=
    match s with
    | String c s' =>
      if Ascii.eqb c "-" then (true, s')
      else if Ascii.eqb c "+" then (false, s')
      else (false, s)
    | EmptyString => (false, s)
    end in
  match body with
  | EmptyString => (0%Z, Some ErrSyntax)
  | String _ _ =>
    match digits_value body 0 with
    | None => (0%Z, Some ErrSyntax)
    | Some v =>
      if neg
      then (if (v <=? 2 ^ 63)%Z then ((- v)%Z, None)
            else (GoInt.min_int, Some ErrRange))
      else (if (v <=? GoInt.max_int)%Z then (v, None)
            else (GoInt.max_int, Some ErrRange))
    end
  end.

(** [strconv.Atoi]: [ParseInt] in base 10 at the width of [int]. *)
Definition Atoi (s : string) : Z * option num_error := ParseInt s.

End strconv.

(** ** Package [regexp]

    The patterns of this program repeat single characters only, so the
    syntax below has the star over a character class, greedy or not.  The
    matcher is a backtracking matcher in continuation-passing style: it
    tries the alternatives in the order of preference of the syntax and
    returns the first complete match, which is the leftmost-first match
    the library documents.  Matching is on bytes; for the patterns below
    it agrees with matching on runes, since what follows each repetition
    starts with an ASCII character. *)

Module Regexp.

Inductive regex :=
| Eps                                       (* the empty pattern *)
| Chr (p : ascii -> bool)                   (* one character of a class *)
| Seq (a b : regex)                         (* a b *)
| Alt (a b : regex)                         (* a|b, a preferred *)
| Star (greedy : bool) (p : ascii -> bool)  (* x* and x*? *)
| Group (n : nat) (a : regex)               (* capturing group number n *)
| EndText.                                  (* $ without the m flag *)

(** Derived forms. *)
Definition Cat (l : list regex) : regex := fold_right Seq Eps l.
Definition Opt (a : regex) : regex := Alt a Eps.                 (* a? *)
Definition Plus (greedy : bool) (p : ascii -> bool) : regex :=   (* x+ and x+? *)
  Seq (Chr p) (Star greedy p).
Fixpoint Str (s : string) : regex :=
  match s with
  | EmptyString => Eps
  | String c s' => Seq (Chr (Ascii.eqb c)) (Str s')
  end.
(** A literal under the flag i: each letter in either case. *)
Fixpoint StrI (s : string) : regex :=
  match s with
  | EmptyString => Eps
  | String c s' =>
    Seq (Chr (fun x => Ascii.eqb (ascii_lower x) (ascii_lower c))) (StrI s')
  end.

(** Character classes. *)
Definition any : ascii -> bool := fun _ => true.         (* . under the flag s, [\s\S] *)
Definition dot : ascii -> bool := fun c => negb (Ascii.eqb c NL).  (* . *)
Definition ws : ascii -> bool :=                          (* \s is [\t\n\f\r ] *)
  fun c => let n := byte_code c in
    ((n =? 9) || (n =? 10) || (n =? 12) || (n =? 13) || (n =? 32))%N.
Definition notws : ascii -> bool := fun c => negb (ws c).  (* [^\s] *)
Definition digit : ascii -> bool := is_digit.              (* \d *)
Definition chr (c : ascii) : ascii -> bool := Ascii.eqb c.

(** Captures: for a group, the positions where it starts and ends,
    counted from the start of the match; the most recent binding of a
    group comes first. *)
Definition caps := list (nat * (nat * nat)).

(** What is still to match: the rest of the text, the position reached
    and the captures so far; the result is the captures and the position
    of the end of the match. *)
Definition cont := string -> nat -> caps -> option (caps * nat).

Fixpoint star (greedy : bool) (p : ascii -> bool) (k : cont)
    (s : string) (pos : nat) (cs : caps) : option (caps * nat) :=
  if greedy then
    match s with
    | String c s' =>
      if p c then
        match star greedy p k s' (S pos) cs with
        | Some r => Some r
        | None => k s pos cs
        end
      else k s pos cs
    | EmptyString => k s pos cs
    end
  else
    match k s pos cs with
    | Some r => Some r
    | None =>
      match s with
      | String c s' => if p c then star greedy p k s' (S pos) cs else None
      | EmptyString => None
      end
    end.

Fixpoint run (r : regex) (k : cont) (s : string) (pos : nat) (cs : caps)
    : option (caps * nat) :=
  match r with
  | Eps => k s pos cs
  | Chr p =>
    match s with
    | String c s' => if p c then k s' (S pos) cs else None
    | EmptyString => None
    end
  | Seq a b => run a (run b k) s pos cs
  | Alt a b =>
    match run a k s pos cs with
    | Some r => Some r
    | None => run b k s pos cs
    end
  | Star g p => star g p k s pos cs
  | Group n a =>
    run a (fun s' pos' cs' => k s' pos' ((n, (pos, pos')) :: cs')) s pos cs
  | EndText =>
    match s with
    | EmptyString => k s pos cs
    | String _ _ => None
    end
  end.

(** A match that starts at the first character of [s]: the captures and
    the length of the match. *)
Definition match_here (r : regex) (s : string) : option (caps * nat) :=
  run r (fun _ pos cs => Some (cs, pos)) s 0 [].

Fixpoint cap_lookup (n : nat) (cs : caps) : option (nat * nat) :=
  match cs with
  | [] => None
  | (m, v) :: cs' => if Nat.eqb m n then Some v else cap_lookup n cs'
  end.

(** The text of group [n], empty for a group that took no part. *)
Definition group_text (s : string) (cs : caps) (n : nat) : string :=
  match cap_lookup n cs with
  | Some (from, to) => string_slice from to s
  | None => EmptyString
  end.

(** The slice a match is reported as: the whole match, then the groups
    1 to [ngroups]. *)
Definition submatches (ngroups : nat) (s : string) (len : nat) (cs : caps)
    : list string :=
  string_slice 0 len s :: map (group_text s cs) (seq 1 ngroups).

(** [Regexp.FindStringSubmatch]: the leftmost match, the empty list
    (the nil slice) when there is none. *)
Fixpoint FindStringSubmatch (r : regex) (ngroups : nat) (s : string)
    : list string :=
  match match_here r s with
  | Some (cs, len) => submatches ngroups s len cs
  | None =>
    match s with
    | String _ s' => FindStringSubmatch r ngroups s'
    | EmptyString => []
    end
  end.

(** [Regexp.FindAllStringSubmatch] with n = -1: the successive
    matches that do not overlap.  [skip] counts the characters of the
    last match still to pass; [at_prev_end] tells that the position is
    the end of the last match, where an empty match is not reported. *)
Fixpoint find_all_from (r : regex) (ngroups : nat) (s : string)
    (skip : nat) (at_prev_end : bool) : list (list string) :=
  match skip with
  | S k =>
    match s with
    | String _ s' => find_all_from r ngroups s' k true
    | EmptyString => []
    end
  | O =>
    match match_here r s with
    | Some (cs, len) =>
      let m := submatches ngroups s len cs in
      match len with
      | O =>
        (if at_prev_end then [] else [m]) ++
        match s with
        | String _ s' => find_all_from r ngroups s' 0 false
        | EmptyString => []
        end
      | S k =>
        m :: match s with
             | String _ s' => find_all_from r ngroups s' k true
             | EmptyString => []
             end
      end
    | None =>
      match s with
      | String _ s' => find_all_from r ngroups s' 0 false
      | EmptyString => []
      end
    end
  end.

Definition FindAllStringSubmatch (r : regex) (ngroups : nat) (s : string)
    : list (list string) :=
  find_all_from r ngroups s 0 false.

End Regexp.

(** ** Package [encoding/json]

    [Unmarshal] first checks that the whole input is one JSON value
    (RFC 8259, surrounded by optional white space) and then stores it in
    the target.  The check is the library's scanner, a state machine that
    reads one byte at a time; it is modelled by a lexer and a parser that
    are both state machines folded over their input. *)

Module JSON.

#[local] Set Warnings "-register-all".

Inductive json :=
| JNull
| JBool (b : bool)
| JNum (lit : string)                 (* the number as it is written *)
| JStr (s : string)                   (* the string, unquoted *)
| JArr (items : list json)
| JObj (members : list (string * json)).  (* in the order of the text *)

(** *** Strings: UTF-8 and escapes *)

Definition cont_byte (c : ascii) : bool := in_range 128 191 c.

(** The length of the well-formed UTF-8 sequence that starts with the
    byte [c] (at least 128) followed by [s]; 0 when there is none. *)
Definition utf8_seq_len (c : ascii) (s : string) : nat :=
  let b := byte_code c in
  match s with
  | String c2 s2 =>
    if in_range 194 223 c then (if cont_byte c2 then 2 else 0)
    else
      match s2 with
      | String c3 s3 =>
        let ok2 :=
          if (b =? 224)%N then in_range 160 191 c2
          else if (b =? 237)%N then in_range 128 159 c2
          else cont_byte c2 in
        if in_range 224 239 c then (if ok2 && cont_byte c3 then 3 else 0)
        else
          match s3 with
          | String c4 _ =>
            let ok2 :=
              if (b =? 240)%N then in_range 144 191 c2
              else if (b =? 244)%N then in_range 128 143 c2
              else cont_byte c2 in
            if in_range 240 244 c && ok2 && cont_byte c3 && cont_byte c4
            then 4 else 0
          | EmptyString => 0
          end
      | EmptyString => 0
      end
  | EmptyString => 0
  end.

Definition chr_of (n : N) : ascii := ascii_of_N n.

(** [utf8.EncodeRune], with U+FFFD for the surrogates and for what lies
    beyond U+10FFFF. *)
Definition utf8_encode (r : N) : string :=
  (if r <? 128 then String (chr_of r) EmptyString
   else if r <? 2048 then
     String (chr_of (192 + r / 64)) (String (chr_of (128 + r mod 64)) EmptyString)
   else if (55296 <=? r) && (r <=? 57343) || (1114111 <? r) then
     String (chr_of 239) (String (chr_of 191) (String (chr_of 189) EmptyString))
   else if r <? 65536 then
     String (chr_of (224 + r / 4096))
       (String (chr_of (128 + (r / 64) mod 64))
         (String (chr_of (128 + r mod 64)) EmptyString))
   else
     String (chr_of (240 + r / 262144))
       (String (chr_of (128 + (r / 4096) mod 64))
         (String (chr_of (128 + (r / 64) mod 64))
           (String (chr_of (128 + r mod 64)) EmptyString))))%N.

Definition replacement : N := 65533.   (* U+FFFD *)

Definition is_hex (c : ascii) : bool :=
  is_digit c || in_range 97 102 c || in_range 65 70 c.
Definition hex_val (c : ascii) : N :=
  (if is_digit c then byte_code c - 48
   else if in_range 97 102 c then byte_code c - 87
   else byte_code c - 55)%N.
Definition hex4 (a b c d : ascii) : N :=
  (((hex_val a * 16 + hex_val b) * 16 + hex_val c) * 16 + hex_val d)%N.

Definition is_surrogate (r : N) : bool := ((55296 <=? r) && (r <? 57344))%N.
(** [utf16.DecodeRune]. *)
Definition decode_surrogates (r1 r2 : N) : N :=
  (if (55296 <=? r1) && (r1 <? 56320) && (56320 <=? r2) && (r2 <? 57344)
   then (r1 - 55296) * 1024 + (r2 - 56320) + 65536
   else replacement)%N.

(** The character a one-letter escape stands for. *)
Definition escape_char (e : ascii) : ascii :=
  if Ascii.eqb e "b" then chr_of 8
  else if Ascii.eqb e "f" then chr_of 12
  else if Ascii.eqb e "n" then chr_of 10
  else if Ascii.eqb e "r" then chr_of 13
  else if Ascii.eqb e "t" then chr_of 9
  else e.                                  (* the quote, \ and / *)

(** The value of a string literal, from the text between its quotes
    (which the scanner has checked): escapes are replaced, a surrogate
    pair written as two \u escapes is combined, a lone surrogate and
    every byte that is not part of well-formed UTF-8 become U+FFFD.
    [pending] counts the bytes of the current rune still to copy. *)
Fixpoint unquote (pending : nat) (s : string) : string :=
  match s with
  | EmptyString => EmptyString
  | String c s1 =>
    match pending with
    | S n => String c (unquote n s1)
    | O =>
      if Ascii.eqb c BSL then
        match s1 with
        | EmptyString => EmptyString
        | String e s2 =>
          if Ascii.eqb e "u" then
            match s2 with
            | String h1 (String h2 (String h3 (String h4 s6))) =>
              let rr := hex4 h1 h2 h3 h4 in
              if is_surrogate rr then
                match s6 with
                | String b (String u (String g1 (String g2 (String g3 (String g4 s12))))) =>
                  let dec := decode_surrogates rr (hex4 g1 g2 g3 g4) in
                  if Ascii.eqb b BSL && Ascii.eqb u "u"
                     && is_hex g1 && is_hex g2 && is_hex g3 && is_hex g4
                     && negb (dec =? replacement)%N
                  then utf8_encode dec +:+ unquote 0 s12
                  else utf8_encode replacement +:+ unquote 0 s6
                | _ => utf8_encode replacement +:+ unquote 0 s6
                end
              else utf8_encode rr +:+ unquote 0 s6
            | _ => EmptyString
            end
          else String (escape_char e) (unquote 0 s2)
        end
      else if (byte_code c <? 128)%N then String c (unquote 0 s1)
      else
        match utf8_seq_len c s1 with
        | O => utf8_encode replacement +:+ unquote 0 s1
        | S n => String c (unquote n s1)
        end
    end
  end.

(** *** The lexer *)

Inductive token :=
| TLBrace | TRBrace | TLBracket | TRBracket | TColon | TComma
| TStr (s : string) | TNum (lit : string) | TTrue | TFalse | TNull.

(** Where the scanner is inside a number. *)
Inductive numstate :=
| NNeg | NZero | NInt | NDot | NFrac | NE | NESign | NExp.

Definition is_e (c : ascii) : bool := Ascii.eqb c "e" || Ascii.eqb c "E".

(** The state after one more character of the number, [None] when the
    character does not continue it. *)
Definition num_step (st : numstate) (c : ascii) : option numstate :=
  match st with
  | NNeg => if Ascii.eqb c "0" then Some NZero
            else if in_range 49 57 c then Some NInt else None
  | NZero => if Ascii.eqb c "." then Some NDot
             else if is_e c then Some NE else None
  | NInt => if is_digit c then Some NInt
            else if Ascii.eqb c "." then Some NDot
            else if is_e c then Some NE else None
  | NDot => if is_digit c then Some NFrac else None
  | NFrac => if is_digit c then Some NFrac
             else if is_e c then Some NE else None
  | NE => if Ascii.eqb c "+" || Ascii.eqb c "-" then Some NESign
          else if is_digit c then Some NExp else None
  | NESign => if is_digit c then Some NExp else None
  | NExp => if is_digit c then Some NExp else None
  end.

(** The states in which the number read so far is complete. *)
Definition num_complete (st : numstate) : bool :=
  match st with
  | NZero | NInt | NFrac | NExp => true
  | _ => false
  end.

Inductive lexstate :=
| LDefault                               (* between tokens *)
| LStr (acc : string)                    (* in a string; [acc] is reversed *)
| LEsc (acc : string)                    (* behind a backslash *)
| LHex (acc : string) (n : nat)          (* [S n] hex digits of \u to come *)
| LNum (acc : string) (st : numstate)    (* in a number *)
| LLit (rest : string) (t : token).      (* in true, false or null *)

Definition is_json_space (c : ascii) : bool :=
  let n := byte_code c in ((n =? 32) || (n =? 9) || (n =? 13) || (n =? 10))%N.

Definition one (c : ascii) : string := String c EmptyString.

(** A character met between tokens. *)
Definition lex_default (c : ascii) : option (lexstate * list token) :=
  if is_json_space c then Some (LDefault, [])
  else if Ascii.eqb c "{" then Some (LDefault, [TLBrace])
  else if Ascii.eqb c "}" then Some (LDefault, [TRBrace])
  else if Ascii.eqb c "[" then Some (LDefault, [TLBracket])
  else if Ascii.eqb c "]" then Some (LDefault, [TRBracket])
  else if Ascii.eqb c ":" then Some (LDefault, [TColon])
  else if Ascii.eqb c "," then Some (LDefault, [TComma])
  else if Ascii.eqb c DQ then Some (LStr EmptyString, [])
  else if Ascii.eqb c "-" then Some (LNum (one c) NNeg, [])
  else if Ascii.eqb c "0" then Some (LNum (one c) NZero, [])
  else if in_range 49 57 c then Some (LNum (one c) NInt, [])
  else if Ascii.eqb c "t" then Some (LLit "rue" TTrue, [])
  else if Ascii.eqb c "f" then Some (LLit "alse" TFalse, [])
  else if Ascii.eqb c "n" then Some (LLit "ull" TNull, [])
  else None.

(** One character: the next state and the tokens completed by it. *)
Definition lex_step (st : lexstate) (c : ascii) : option (lexstate * list token) :=
  match st with
  | LDefault => lex_default c
  | LStr acc =>
    if Ascii.eqb c DQ then Some (LDefault, [TStr (unquote 0 (string_rev acc))])
    else if Ascii.eqb c BSL then Some (LEsc (String c acc), [])
    else if (byte_code c <? 32)%N then None
    else Some (LStr (String c acc), [])
  | LEsc acc =>
    if Ascii.eqb c "u" then Some (LHex (String c acc) 3, [])
    else if existsb (Ascii.eqb c) [DQ; BSL; "/"; "b"; "f"; "n"; "r"; "t"]%char
    then Some (LStr (String c acc), [])
    else None
  | LHex acc n =>
    if is_hex c then
      match n with
      | O => Some (LStr (String c acc), [])
      | S n' => Some (LHex (String c acc) n', [])
      end
    else None
  | LNum acc nst =>
    match num_step nst c with
    | Some nst' => Some (LNum (String c acc) nst', [])
    | None =>
      if num_complete nst then
        match lex_default c with
        | Some (st', toks) => Some (st', TNum (string_rev acc) :: toks)
        | None => None
        end
      else None
    end
  | LLit rest t =>
    match rest with
    | String c' rest' =>
      if Ascii.eqb c c' then
        match rest' with
        | EmptyString => Some (LDefault, [t])
        | String _ _ => Some (LLit rest' t, [])
        end
      else None
    | EmptyString => None
    end
  end.

(** The tokens of a text, [None] when some character is not allowed
    where it stands or the text ends inside a token. *)
Fixpoint lex (st : lexstate) (s : string) : option (list token) :=
  match s with
  | EmptyString =>
    match st with
    | LDefault => Some []
    | LNum acc nst => if num_complete nst then Some [TNum (string_rev acc)] else None
    | _ => None
    end
  | String c s' =>
    match lex_step st c with
    | Some (st', toks) =>
      match lex st' s' with
      | Some rest => Some (toks ++ rest)
      | None => None
      end
    | None => None
    end
  end.

(** *** The parser *)

Inductive frame :=
| FArr (acc : list json)              (* an open array, items reversed *)
| FObj (acc : list (string * json))   (* an open object, members reversed *)
| FKey (k : string).                  (* a key waiting for its value *)

Inductive phase :=
| PValue        (* a value must come *)
| PArrFirst     (* behind [: a value or ] *)
| PObjFirst     (* behind {: a key or } *)
| PKey          (* behind a comma in an object: a key *)
| PColon        (* behind a key: the colon *)
| PAfter        (* behind a value inside a container: a comma or the end *)
| PDone (v : json).  (* the top-level value is complete *)

Record pstate := { stack : list frame; depth : N; ph : phase }.

Definition maxNestingDepth : N := 10000.

(** A value is complete: it goes to the container that waits for it. *)
Definition complete (v : json) (stk : list frame) (d : N) : option pstate :=
  match stk with
  | [] => Some {| stack := []; depth := d; ph := PDone v |}
  | FArr acc :: stk' =>
    Some {| stack := FArr (v :: acc) :: stk'; depth := d; ph := PAfter |}
  | FKey k :: FObj acc :: stk' =>
    Some {| stack := FObj ((k, v) :: acc) :: stk'; depth := d; ph := PAfter |}
  | _ => None
  end.

Definition open (f : frame) (p : phase) (st : pstate) : option pstate :=
  if (depth st + 1 <=? maxNestingDepth)%N
  then Some {| stack := f :: stack st; depth := (depth st + 1)%N; ph := p |}
  else None.

(** A token where a value may start. *)
Definition parse_value (st : pstate) (t : token) : option pstate :=
  match t with
  | TStr s => complete (JStr s) (stack st) (depth st)
  | TNum lit => complete (JNum lit) (stack st) (depth st)
  | TTrue => complete (JBool true) (stack st) (depth st)
  | TFalse => complete (JBool false) (stack st) (depth st)
  | TNull => complete JNull (stack st) (depth st)
  | TLBracket => open (FArr []) PArrFirst st
  | TLBrace => open (FObj []) PObjFirst st
  | _ => None
  end.

(** The end of the innermost container. *)
Definition close (st : pstate) (t : token) : option pstate :=
  match t, stack st with
  | TRBracket, FArr acc :: stk' => complete (JArr (rev acc)) stk' (depth st - 1)%N
  | TRBrace, FObj acc :: stk' => complete (JObj (rev acc)) stk' (depth st - 1)%N
  | _, _ => None
  end.

Definition with_phase (p : phase) (st : pstate) : pstate :=
  {| stack := stack st; depth := depth st; ph := p |}.

Definition parse_step (st : pstate) (t : token) : option pstate :=
  match ph st with
  | PValue => parse_value st t
  | PArrFirst =>
    match t with
    | TRBracket => close st t
    | _ => parse_value st t
    end
  | PObjFirst =>
    match t with
    | TRBrace => close st t
    | TStr k => Some {| stack := FKey k :: stack st; depth := depth st; ph := PColon |}
    | _ => None
    end
  | PKey =>
    match t with
    | TStr k => Some {| stack := FKey k :: stack st; depth := depth st; ph := PColon |}
    | _ => None
    end
  | PColon =>
    match t with
    | TColon => Some (with_phase PValue st)
    | _ => None
    end
  | PAfter =>
    match t, stack st with
    | TComma, FArr _ :: _ => Some (with_phase PValue st)
    | TComma, FObj _ :: _ => Some (with_phase PKey st)
    | _, _ => close st t
    end
  | PDone _ => None
  end.

Fixpoint parse_tokens (st : pstate) (ts : list token) : option json :=
  match ts with
  | [] =>
    match ph st with
    | PDone v => Some v
    | _ => None
    end
  | t :: ts' =>
    match parse_step st t with
    | Some st' => parse_tokens st' ts'
    | None => None
    end
  end.

(** The JSON value a text is, [None] when the text is not valid JSON. *)
Definition parse (s : string) : option json :=
  match lex LDefault s with
  | Some ts => parse_tokens {| stack := []; depth := 0; ph := PValue |} ts
  | None => None
  end.

End JSON.

(** ** Package [models] *)

(** A field that bears the name of its type, or of a keyword, carries a
    prime: [GitInfo'], [Location'], [Range'], [Code'], [End']. *)

Module models.

Record GitUser := { Name : string; Email : string }.

Record GitInfo := {
  CommitHash : string;
  BranchName : string;
  PRNumber : string;
  RepoURL : string;
  Author : option GitUser;
  Committer : option GitUser
}.

(** The field [GitInfo] is a pointer: [None] is nil. *)
Record ReviewRequest := {
  AIModel : string;
  AIProvider : string;
  Language : string;
  ReviewMode : string;
  GitDiff : string;
  GitInfo' : option GitInfo
}.

Record Position := { Line : Z; Column : Z }.
Record Range := { Start : Position; End' : Position }.
Record Location := { Path : string; Range' : Range }.
Record Code := { Value : string; URL : string }.

Record Diagnostic := {
  Message : string;
  Location' : Location;
  Severity : string;
  Code' : Code;
  Original : string;
  Suggestion : string
}.

Record AIProviderResponse := {
  Overview : string;
  Diagnostics : list Diagnostic
}.

End models.

(** Go's [error], by its message. *)
Definition error : Type := string.

(** ** Package [prompt] *)

(** *** The target of the decoder: the local struct of [ParseAIResponse] *)

Module raw.

Record Issue := {
  File : string;
  Line : Z;
  Column : Z;
  Severity : string;
  Category : string;
  Message : string;
  Suggestion : string
}.

Record Response := { Overview : string; Issues : list Issue }.

Definition zero_issue : Issue :=
  {| File := ""; Line := 0; Column := 0; Severity := ""; Category := "";
     Message := ""; Suggestion := "" |}.

End raw.

(** *** [json.Unmarshal] at the type of that struct

    The decoder stores each member of an object in the field whose name
    equals the key up to case; other members are skipped.  A null leaves a
    string, an int or a struct as it is and makes a slice nil.  A value of
    another kind than the field (or a number that is no 64-bit integer) is
    an error of [Unmarshal] as a whole.  A key that comes twice is stored
    twice, into the same field: an array is stored into the slice element
    by element, over what the elements held before. *)

Module Decode.
Import JSON.

Inductive unmarshal_error := SyntaxError | UnmarshalTypeError.

(** The folded form of a key: letters in upper case, and the two
    letters beyond ASCII that fold to an ASCII letter, U+017F to S and
    U+212A to K.  The folding of the other letters beyond ASCII is not
    modelled, none of them folds to an ASCII letter. *)
Fixpoint foldName (key : string) : string :=
  match key with
  | EmptyString => EmptyString
  | String c1 k1 =>
    match k1 with
    | String c2 k2 =>
      if ((byte_code c1 =? 197) && (byte_code c2 =? 191))%N
      then String "S" (foldName k2)
      else
        match k2 with
        | String c3 k3 =>
          if ((byte_code c1 =? 226) && (byte_code c2 =? 132)
              && (byte_code c3 =? 170))%N
          then String "K" (foldName k3)
          else String (ascii_upper c1) (foldName k1)
        | EmptyString => String (ascii_upper c1) (foldName k1)
        end
    | EmptyString => String (ascii_upper c1) (foldName k1)
    end
  end.

Definition is_field (name key : string) : bool :=
  String.eqb (foldName key) (foldName name).

Definition store_string (v : json) (cur : string) : option string :=
  match v with
  | JStr s => Some s
  | JNull => Some cur
  | _ => None
  end.

Definition store_int (v : json) (cur : Z) : option Z :=
  match v with
  | JNum lit =>
    match strconv.ParseInt lit with
    | (n, None) => Some n
    | (_, Some _) => None
    end
  | JNull => Some cur
  | _ => None
  end.

Definition store_issue_member (cur : raw.Issue) (kv : string * json)
    : option raw.Issue :=
  let '(key, v) := kv in
  let '(raw.Build_Issue file line column severity category message suggestion) := cur in
  if is_field "file" key then
    x ← store_string v file;
    Some (raw.Build_Issue x line column severity category message suggestion)
  else if is_field "line" key then
    x ← store_int v line;
    Some (raw.Build_Issue file x column severity category message suggestion)
  else if is_field "column" key then
    x ← store_int v column;
    Some (raw.Build_Issue file line x severity category message suggestion)
  else if is_field "severity" key then
    x ← store_string v severity;
    Some (raw.Build_Issue file line column x category message suggestion)
  else if is_field "category" key then
    x ← store_string v category;
    Some (raw.Build_Issue file line column severity x message suggestion)
  else if is_field "message" key then
    x ← store_string v message;
    Some (raw.Build_Issue file line column severity category x suggestion)
  else if is_field "suggestion" key then
    x ← store_string v suggestion;
    Some (raw.Build_Issue file line column severity category message x)
  else Some cur.

(** The members of an object, stored one after the other. *)
Fixpoint store_members {A : Type} (store : A -> string * json -> option A)
    (cur : A) (members : list (string * json)) : option A :=
  match members with
  | [] => Some cur
  | kv :: rest =>
    match store cur kv with
    | Some cur' => store_members store cur' rest
    | None => None
    end
  end.

Definition store_issue (v : json) (cur : raw.Issue) : option raw.Issue :=
  match v with
  | JObj members => store_members store_issue_member cur members
  | JNull => Some cur
  | _ => None
  end.

(** A slice under the decoder: [backing] holds every element the array
    behind the slice was given so far, the first [len] are the slice. *)
Record slice := { backing : list raw.Issue; len : nat }.

Definition nil_slice : slice := {| backing := []; len := 0 |}.

Definition set_index (i : nat) (x : raw.Issue) (l : list raw.Issue)
    : list raw.Issue :=
  if Nat.ltb i (length l) then <[i := x]> l else l ++ [x].

Fixpoint store_items (items : list json) (i : nat) (backing : list raw.Issue)
    : option (list raw.Issue) :=
  match items with
  | [] => Some backing
  | v :: rest =>
    match store_issue v (nth i backing raw.zero_issue) with
    | Some x => store_items rest (S i) (set_index i x backing)
    | None => None
    end
  end.

Definition store_issues (v : json) (cur : slice) : option slice :=
  match v with
  | JArr [] => Some nil_slice
  | JArr items =>
    b ← store_items items 0 (backing cur);
    Some {| backing := b; len := length items |}
  | JNull => Some nil_slice
  | _ => None
  end.

Definition store_response_member (cur : string * slice) (kv : string * json)
    : option (string * slice) :=
  let '(key, v) := kv in
  let '(overview, issues) := cur in
  if is_field "overview" key then
    x ← store_string v overview; Some (x, issues)
  else if is_field "issues" key then
    x ← store_issues v issues; Some (overview, x)
  else Some cur.

Definition store_response (v : json) (cur : string * slice)
    : option (string * slice) :=
  match v with
  | JObj members => store_members store_response_member cur members
  | JNull => Some cur
  | _ => None
  end.

(** [json.Unmarshal(data, &rawResponse)] on the zero value of the
    struct: the struct as decoded, or the error. *)
Definition Unmarshal (data : string) : raw.Response + unmarshal_error :=
  match parse data with
  | None => inr SyntaxError
  | Some v =>
    match store_response v (EmptyString, nil_slice) with
    | Some (overview, issues) =>
      inl {| raw.Overview := overview;
             raw.Issues := firstn (len issues) (backing issues) |}
    | None => inr UnmarshalTypeError
    end
  end.

End Decode.

(** *** The prompt builder *)

(** [fmt.Sprintf] with one verb %s: the argument between two literals. *)
Definition Sprintf1 (before arg after : string) : string :=
  before +:+ arg +:+ after.

(** [GenerateUserPrompt] creates the user prompt with the git diff.  The
    builder is the concatenation of what is written to it, in order. *)
Definition GenerateUserPrompt (request : models.ReviewRequest) : string :=
  String.concat "" [
    "Please review the following code changes:" +:+ nl +:+ nl;
    (* Add metadata if available *)
    match models.GitInfo' request with
    | Some info =>
      String.concat "" [
        "**Context:**" +:+ nl;
        if String.eqb (models.RepoURL info) "" then ""
        else Sprintf1 "- Repository: " (models.RepoURL info) nl;
        if String.eqb (models.BranchName info) "" then ""
        else Sprintf1 "- Branch: " (models.BranchName info) nl;
        if String.eqb (models.PRNumber info) "" then ""
        else Sprintf1 "- PR Number: #" (models.PRNumber info) nl;
        nl ]
    | None => ""
    end;
    "**Git Diff:**" +:+ nl +:+ "```diff" +:+ nl;
    models.GitDiff request;
    nl +:+ "```" +:+ nl +:+ nl;
    "**Review Instructions:**" +:+ nl;
    "1. Check EVERY changed line against ALL 6 categories:" +:+ nl;
    "   - Possible Bug" +:+ nl;
    "   - Best Practice" +:+ nl;
    "   - Performance" +:+ nl;
    "   - Maintainability" +:+ nl;
    "   - Possible Issue" +:+ nl;
    "   - Enhancement" +:+ nl +:+ nl;
    "2. Provide specific line numbers and actionable suggestions" +:+ nl;
    "3. Respond ONLY with valid JSON in the format specified" +:+ nl ].

(** *** Severity normalisation *)

(** A case of the switch: the upper-case string is one of the words of
    the case.  A string with a rune outside ASCII is none of them. *)
Definition case_of (severity : option string) (words : list string) : bool :=
  match severity with
  | Some severity => string_in severity words
  | None => false
  end.

(** [normalizeSeverity] normalizes severity values to standard levels. *)
Definition normalizeSeverity (severity : string) : string :=
  let severity := GoStrings.ToUpper (GoStrings.TrimSpace severity) in
  if case_of severity ["ERROR"; "CRITICAL"; "HIGH"] then "ERROR"
  else if case_of severity ["WARNING"; "WARN"; "MEDIUM"] then "WARNING"
  else if case_of severity ["INFO"; "INFORMATION"; "LOW"; "NOTE"] then "INFO"
  else "INFO".

(** *** The three patterns *)

Import Regexp.

(** (?s) three backticks, (?:json)?, \s*, group 1 = { .*? }, \s*, three
    backticks. *)
Definition codeBlockRegex : regex :=
  Cat [ Str "```"; Opt (Str "json"); Star true ws;
        Group 1 (Cat [Chr (chr "{"); Star false any; Chr (chr "}")]);
        Star true ws; Str "```" ].

(** (?s) group 1 = { [\s\S]* the key overview in quotes [\s\S]* the key
    issues in quotes [\s\S]* }. *)
Definition jsonRegex : regex :=
  Group 1 (Cat [ Chr (chr "{"); Star true any;
                 Chr (chr DQ); Str "overview"; Chr (chr DQ); Star true any;
                 Chr (chr DQ); Str "issues"; Chr (chr DQ); Star true any;
                 Chr (chr "}") ]).

(** (?i)(?:file|path):\s*([^\s]+).*?(?:line|L):\s*(\d+).*?[-:]\s*(.+?)(?:\n|$) *)
Definition fileLineRegex : regex :=
  Cat [ Alt (StrI "file") (StrI "path"); Chr (chr ":"); Star true ws;
        Group 1 (Plus true notws);
        Star false dot;
        Alt (StrI "line") (StrI "L"); Chr (chr ":"); Star true ws;
        Group 2 (Plus true digit);
        Star false dot;
        Chr (fun c => Ascii.eqb c "-" || Ascii.eqb c ":"); Star true ws;
        Group 3 (Plus false dot);
        Alt (Chr (chr NL)) EndText ].

(** *** Extraction *)

(** [extractJSON] tries to extract JSON from markdown code blocks or raw
    text. *)
Definition extractJSON (text : string) : string :=
  (* Try to find JSON in code blocks *)
  let matches := FindStringSubmatch codeBlockRegex 1 text in
  if Nat.ltb 1 (length matches) then nth 1 matches ""
  else
    (* Try to find raw JSON *)
    let matches := FindStringSubmatch jsonRegex 1 text in
    if Nat.ltb 1 (length matches) then nth 1 matches ""
    else
      (* Return as is and hope it's valid JSON *)
      text.

(** *** The fallback parse *)

(** The body of the loop over the matches: the diagnostic of a match. *)
Definition match_diagnostic (m : list string) : list models.Diagnostic :=
  if Nat.leb 4 (length m) then
    let line := fst (strconv.Atoi (nth 2 m "")) in
    [ {| models.Message := GoStrings.TrimSpace (nth 3 m "");
         models.Location' :=
           {| models.Path := nth 1 m "";
              models.Range' :=
                {| models.Start := {| models.Line := line; models.Column := 1 |};
                   models.End' := {| models.Line := line; models.Column := 2 |} |} |};
         models.Severity := "INFO";
         models.Code' := {| models.Value := "ai-review"; models.URL := "" |};
         models.Original := "";
         models.Suggestion := "" |} ]
  else [].

(** The loop over the lines: the first line that, trimmed, is neither
    empty nor a heading replaces the overview and ends the loop. *)
Fixpoint first_paragraph (lines : list string) (overview : string) : string :=
  match lines with
  | [] => overview
  | line :: rest =>
    let line := GoStrings.TrimSpace line in
    if negb (String.eqb line "") && negb (GoStrings.HasPrefix line "#")
    then line
    else first_paragraph rest overview
  end.

(** [parseUnstructuredResponse] tries to parse a response that isn't
    proper JSON. *)
Definition parseUnstructuredResponse (text : string)
    : option models.AIProviderResponse * option error :=
  (* Pattern: File: path/to/file.js Line: 42 - Message *)
  let matches := FindAllStringSubmatch fileLineRegex 3 text in
  let diagnostics := flat_map match_diagnostic matches in
  let overview := "AI code review completed" in
  let overview :=
    if Nat.eqb (length diagnostics) 0
    then (* Extract first paragraph as overview *)
         first_paragraph (GoStrings.Split text NL) overview
    else overview in
  (Some {| models.Overview := overview; models.Diagnostics := diagnostics |},
   None).

(** *** The structured parse *)

(** The body of the loop over the decoded issues. *)
Definition issue_diagnostic (issue : raw.Issue) : models.Diagnostic :=
  (* Normalize severity *)
  let severity := normalizeSeverity (raw.Severity issue) in
  (* Set default column if not provided *)
  let column := raw.Column issue in
  let column := if (column =? 0)%Z then 1%Z else column in
  {| models.Message := raw.Message issue;
     models.Location' :=
       {| models.Path := raw.File issue;
          models.Range' :=
            {| models.Start :=
                 {| models.Line := raw.Line issue; models.Column := column |};
               models.End' :=
                 {| models.Line := raw.Line issue;
                    models.Column := GoInt.add column 1 |} |} |};
     models.Severity := severity;
     models.Code' := {| models.Value := raw.Category issue; models.URL := "" |};
     models.Original := "";
     models.Suggestion := raw.Suggestion issue |}.

(** [ParseAIResponse] parses the AI response into structured diagnostics. *)
Definition ParseAIResponse (responseText : string)
    : option models.AIProviderResponse * option error :=
  (* Try to extract JSON from code blocks if present *)
  let jsonStr := extractJSON responseText in
  match Decode.Unmarshal jsonStr with
  | inr _ =>
    (* If JSON parsing fails, try to extract issues from text *)
    parseUnstructuredResponse responseText
  | inl rawResponse =>
    (* Convert to diagnostics *)
    let diagnostics := map issue_diagnostic (raw.Issues rawResponse) in
    (Some {| models.Overview := raw.Overview rawResponse;
             models.Diagnostics := diagnostics |},
     None)
  end.

(** ** Package [providers]: the registry *)

Module providers.
Section Registry.

(** The values of the interface [AIProvider]. *)
Variable AIProvider : Type.

(** [Registry] manages AI providers. *)
Record Registry := { providers : gmap string AIProvider }.

(** [NewRegistry] creates a new provider registry. *)
Definition NewRegistry : Registry := {| providers := ∅ |}.

(** [Register] adds a provider to the registry.  The method updates the
    map in place; the model returns the registry after the call. *)
Definition Register (r : Registry) (name : string) (provider : AIProvider)
    : Registry :=
  {| providers := <[name := provider]> (providers r) |}.

(** [Get] retrieves a provider by name. *)
Definition Get (r : Registry) (name : string)
    : option AIProvider * option error :=
  match providers r !! name with
  | None => (None, Some (Sprintf1 "provider '" name "' not found"))
  | Some provider => (Some provider, None)
  end.

(** [List] returns all registered provider names.  The loop ranges over
    the map, whose order of iteration is not fixed: [List r names] holds
    of every slice the call may return, the keys in some order. *)
Definition List (r : Registry) (names : list string) : Prop :=
  names ≡ₚ (map_to_list (providers r)).*1.

(** A registry after a sequence of registrations. *)
Definition registered (r : Registry) (regs : list (string * AIProvider))
    : Registry :=
  foldl (fun r np => Register r np.1 np.2) r regs.

End Registry.

Arguments providers {AIProvider} _.
Arguments NewRegistry {AIProvider}.
Arguments Register {AIProvider} _ _ _.
Arguments Get {AIProvider} _ _.
Arguments List {AIProvider} _ _.
Arguments registered {AIProvider} _ _.

End providers.

(** ** Notions used to state the properties *)

(** [d] occurs in [s]. *)
Definition Substring (d s : string) : Prop :=
  exists before after : string, s = before +:+ d +:+ after.

(** The case-folding of a severity, said without upper-casing the token:
    [reads_as token word] holds when the token is the word, written in
    upper-case ASCII letters, letter by letter, a letter of the word being
    written as itself, as its lower-case letter, or as a rune whose upper
    case it is: the dotless i for I, the long s for S. *)
Fixpoint reads_as (token word : string) : bool :=
  match word with
  | EmptyString =>
    match token with
    | EmptyString => true
    | String _ _ => false
    end
  | String L word' =>
    match token with
    | EmptyString => false
    | String c token' =>
      if Ascii.eqb c L || (byte_code c =? byte_code L + 32)%N
      then reads_as token' word'
      else
        match token' with
        | String d token'' =>
          if Ascii.eqb L "I" && (byte_code c =? 196)%N && (byte_code d =? 177)%N
             || Ascii.eqb L "S" && (byte_code c =? 197)%N && (byte_code d =? 191)%N
          then reads_as token'' word'
          else false
        | EmptyString => false
        end
    end
  end.

(** The token reads as one of the words. *)
Definition reads_as_any (token : string) (words : list string) : bool :=
  existsb (reads_as token) words.

(** The word high with a dotless i, and the word warning with one. *)
Definition dotless_high : string :=
  String "h" (String "196" (String "177" "gh")).
Definition dotless_warning : string :=
  "warn" +:+ String "196" (String "177" "ng").

(** [s] starts with a fence, three backticks. *)
Definition opens_fence (s : string) : bool := GoStrings.HasPrefix s "```".

(** No fence starts inside [before] when [before] stands in front of a
    fence: no three backticks in a row begin in [before], the backticks of
    the fence that follows counted in.  Single backticks, as around inline
    code, are allowed. *)
Fixpoint no_fence_in (before : string) : bool :=
  match before with
  | EmptyString => true
  | String _ rest => negb (opens_fence (before +:+ "``")) && no_fence_in rest
  end.

(** A line the fallback parse passes over when it looks for an overview:
    empty once trimmed, or a heading once trimmed. *)
Definition passed_over (line : string) : Prop :=
  GoStrings.TrimSpace line = "" \/
  GoStrings.HasPrefix (GoStrings.TrimSpace line) "#" = true.

(** The overview of the fallback parse read word for word from the
    specification: the first line of the raw text that is not empty after
    trimming and does not begin with #, taken as it stands in the text,
    and the fixed sentence when there is none. *)
Fixpoint claimed_first_line (lines : list string) : option string :=
  match lines with
  | [] => None
  | line :: rest =>
    if negb (String.eqb (GoStrings.TrimSpace line) "")
       && negb (GoStrings.HasPrefix line "#")
    then Some line
    else claimed_first_line rest
  end.

Definition claimed_overview (text : string) : string :=
  default "AI code review completed"
          (claimed_first_line (GoStrings.Split text NL)).

(** The integers of a decoded issue are Go ints. *)
Definition issue_in_range (i : raw.Issue) : Prop :=
  (GoInt.min_int <= raw.Line i <= GoInt.max_int)%Z /\
  (GoInt.min_int <= raw.Column i <= GoInt.max_int)%Z.

(** The range of a diagnostic is one column wide on one line: the end is
    on the line of the start, and its column is the column of the start
    plus one.  The sum is Go's sum of ints; it is the sum of the integers
    unless the start column is the largest int. *)
Definition one_column_range (d : models.Diagnostic) : Prop :=
  let r := models.Range' (models.Location' d) in
  models.Line (models.End' r) = models.Line (models.Start r)
  /\ models.Column (models.End' r) = GoInt.add (models.Column (models.Start r)) 1
  /\ (models.Column (models.Start r) <> GoInt.max_int ->
      models.Column (models.End' r) = (models.Column (models.Start r) + 1)%Z).

(** ** Example replies *)

(** The object of the specification's example of a fenced reply. *)
Definition json_x : string := js "{'overview':'x','issues':[]}".

(** The fenced block: the fence labeled json, the object, the fence. *)
Definition fenced_x : string :=
  "```json" +:+ nl +:+ json_x +:+ nl +:+ "```".

Definition prose_before : string :=
  "Here is my review of `main.go`." +:+ nl +:+ nl.
Definition prose_after : string :=
  nl +:+ nl +:+ "Let me know if you want more detail {or not}.".

(** A reply in the mandated format whose overview is empty. *)
Definition empty_overview_reply : string := js "{'overview':'','issues':[]}".

(** An issue with line 42 and no column. *)
Definition line42_reply : string :=
  js "{'overview':'ok','issues':[{'file':'a.js','line':42,'severity':'warning','category':'performance','message':'m'}]}".

Definition line42_issue : raw.Issue :=
  {| raw.File := "a.js"; raw.Line := 42; raw.Column := 0;
     raw.Severity := "warning"; raw.Category := "performance";
     raw.Message := "m"; raw.Suggestion := "" |}.

(** An issue with an explicit column. *)
Definition column7_reply : string :=
  js "{'overview':'ok','issues':[{'file':'a.js','line':3,'column':7,'severity':'ERROR','category':'possible-bug','message':'m'}]}".

(** The example of the fallback path. *)
Definition fallback_reply : string :=
  "File: app.py Line: 10 - missing null check".

(** Prose under a heading, the first line of text indented. *)
Definition prose_reply : string :=
  "# Review" +:+ nl +:+ nl +:+ "  Looks good to me.  " +:+ nl +:+ "No issues.".

Definition column7_issue : raw.Issue :=
  {| raw.File := "a.js"; raw.Line := 3; raw.Column := 7;
     raw.Severity := "ERROR"; raw.Category := "possible-bug";
     raw.Message := "m"; raw.Suggestion := "" |}.

(** One indented line. *)
Definition indented_reply : string := "  Looks good to me.".

(** * The rest of the code: the system prompt, the configuration, the
    three providers and the start of the server *)

(** ** More on strings *)

(** Every character of [s] is in the class [p]. *)
Fixpoint string_all (p : ascii -> bool) (s : string) : bool :=
  match s with
  | EmptyString => true
  | String c s' => p c && string_all p s'
  end.

(** The verb %d of [fmt] on an int: the decimal digits behind a minus sign
    if the number is negative. *)
Definition format_int (z : Z) : string := NilZero.string_of_int (Z.to_int z).

(** ** Package [prompt]: the system prompt *)

Definition systemPrompt_before : string :=
  "You are an expert code reviewer specializing in ".

(** The template between its two verbs, line by line. *)
Definition systemPrompt_between : string :=
  String.concat nl [
    ". Review ALL code changes and provide comprehensive feedback on these specific categories:";
    "";
    "## Review Categories (Check ALL for every request):";
    "";
    "1. **Possible Bug** - Logic errors, null pointer risks, off-by-one errors, race conditions, edge cases not handled";
    "2. **Best Practice** - Coding standards violations, naming conventions, code organization, design patterns misuse";
    "3. **Performance** - Inefficient algorithms, unnecessary loops, memory leaks, N+1 queries, blocking operations";
    "4. **Maintainability** - Code complexity, lack of documentation, unclear variable names, hard-coded values, tight coupling";
    "5. **Possible Issue** - Code smells, anti-patterns, deprecated API usage, potential future problems";
    "6. **Enhancement** - Optimization opportunities, better approaches, missing features, code improvements";
    "";
    "## Output Format";
    "You must respond ONLY with valid JSON in this exact format:";
    "";
    "{";
    js "  'overview': 'Brief summary covering findings across all 6 categories (2-4 sentences)',";
    js "  'issues': [";
    "    {";
    js "      'file': 'path/to/file.ext',";
    js "      'line': 42,";
    js "      'column': 10,";
    js "      'severity': 'ERROR|WARNING|INFO',";
    js "      'category': 'possible-bug|best-practice|performance|maintainability|possible-issue|enhancement',";
    js "      'message': 'Clear description with category context',";
    js "      'suggestion': 'Specific actionable fix'";
    "    }";
    "  ]";
    "}";
    "";
    "## Severity Guidelines:";
    "- **ERROR**: Definite bugs, security vulnerabilities, critical performance issues";
    "- **WARNING**: Maintainability concerns, performance bottlenecks, likely bugs, anti-patterns";
    "- **INFO**: Best practice suggestions, enhancements, minor optimizations";
    "";
    "## Important Rules:";
    "- Review EVERY changed line against ALL 6 categories";
    "- Provide specific line numbers and actionable suggestions";
    "- Include code examples in suggestions when helpful";
    "- If no issues found, still acknowledge what was reviewed well";
    "- Focus on changed code (marked with + or -)";
    "- Be thorough but constructive";
    "- Prioritize issues by severity and impact";
    "- Consider " ].

Definition systemPrompt_after : string :=
  "-specific best practices and idioms".

(** [GenerateSystemPrompt] creates the system prompt for the AI: the
    template with the language at its two verbs %s. *)
Definition GenerateSystemPrompt (language : string) : string :=
  systemPrompt_before +:+ language +:+ systemPrompt_between +:+ language
  +:+ systemPrompt_after.

(** ** Package [config] *)

Module config.

(** [Config] holds all configuration for the AI Gateway. *)
Record Config := {
  Port : string;
  APIKeys : list string;
  GoogleAPIKey : string;
  OpenAIAPIKey : string;
  AnthropicAPIKey : string;
  MaxDiffSize : Z;              (* Maximum diff size in bytes *)
  DefaultProvider : string;
  DefaultModel : string
}.

(** [os.Getenv] on an environment given as a map: the value of the
    variable, and the empty string when the variable is not set. *)
Definition Getenv (env : gmap string string) (key : string) : string :=
  default "" (env !! key).

(** [getEnv] gets an environment variable or returns a default value. *)
Definition getEnv (env : gmap string string) (key defaultValue : string)
    : string :=
  let value := Getenv env key in
  if negb (String.eqb value "") then value else defaultValue.

(** [parseAPIKeys] splits comma-separated API keys.  The loop appends the
    trimmed form of each part that is not empty once trimmed. *)
Definition parseAPIKeys (keys : string) : list string :=
  if String.eqb keys "" then []
  else
    let parts := GoStrings.Split keys "," in
    flat_map
      (fun key =>
         let trimmed := GoStrings.TrimSpace key in
         if negb (String.eqb trimmed "") then [trimmed] else [])
      parts.

(** [Load] reads configuration from environment variables. *)
Definition Load (env : gmap string string) : Config :=
  {| Port := getEnv env "PORT" "8080";
     APIKeys := parseAPIKeys (getEnv env "API_KEYS" "");
     GoogleAPIKey := getEnv env "GOOGLE_API_KEY" "";
     OpenAIAPIKey := getEnv env "OPENAI_API_KEY" "";
     AnthropicAPIKey := getEnv env "ANTHROPIC_API_KEY" "";
     MaxDiffSize := 10 * 1024 * 1024;   (* 10MB default *)
     DefaultProvider := getEnv env "DEFAULT_AI_PROVIDER" "google";
     DefaultModel := getEnv env "DEFAULT_AI_MODEL" "gemini-2.0-flash" |}.

Definition err_no_api_key : error :=
  "at least one API key must be configured via API_KEYS environment variable".
Definition err_no_provider_key : error :=
  "at least one AI provider API key must be configured".

(** [Validate] checks if the configuration is valid; [None] is nil. *)
Definition Validate (c : Config) : option error :=
  if Nat.eqb (length (APIKeys c)) 0 then Some err_no_api_key
  else if String.eqb (GoogleAPIKey c) "" && String.eqb (OpenAIAPIKey c) ""
          && String.eqb (AnthropicAPIKey c) ""
  then Some err_no_provider_key
  else None.

End config.

(** ** The vendors' clients

    The packages of the vendors are not part of the repository.  A client
    is modelled by what a call through it returns, a function of what the
    call is given; the context of the call is left out.  The types are
    those the code reads. *)

(** A call that returns, or ends in a run-time panic. *)
Inductive outcome (A : Type) := Return (a : A) | Panic.
Arguments Return {A} a.
Arguments Panic {A}.

Module genai.

(** A part of a content: a text, or a part of another kind. *)
Inductive Part := Text (s : string) | OtherPart.

Record Content := { Parts : list Part }.

(** The content of a candidate is a pointer: [None] is nil. *)
Record Candidate := { Content' : option Content }.

(** The candidates are pointers: [None] is nil. *)
Record GenerateContentResponse := { Candidates : list (option Candidate) }.

(** A generative model: its name and what the code sets on it.  The
    numbers with a fraction are kept as they are written. *)
Record GenerativeModel := {
  ModelName : string;
  Temperature : string;
  TopP : string;
  TopK : Z;
  MaxOutputTokens : Z
}.

Record Client := {
  GenerateContent : GenerativeModel -> string -> GenerateContentResponse + error
}.

End genai.

Module openai.

Record ChatCompletionMessage := { Role : string; Content : string }.

Record ChatCompletionRequest := {
  Model : string;
  Messages : list ChatCompletionMessage;
  Temperature : string;
  MaxTokens : Z
}.

Record ChatCompletionChoice := { Message : ChatCompletionMessage }.

Record ChatCompletionResponse := { Choices : list ChatCompletionChoice }.

Definition ChatMessageRoleSystem : string := "system".
Definition ChatMessageRoleUser : string := "user".

Record Client := {
  CreateChatCompletion : ChatCompletionRequest -> ChatCompletionResponse + error
}.

End openai.

Module http.

(** A request: the method, the address, the headers in the order they
    are set, under the names the code gives them, and the body. *)
Record Request := {
  Method : string;
  URL : string;
  Header : list (string * string);
  Body : string
}.

(** A response: the status code and what reading the body to its end
    gives, the bytes or an error. *)
Record Response := { StatusCode : Z; ReadAll : string + error }.

Record Client := { Do : Request -> Response + error }.

Definition StatusOK : Z := 200.

End http.

(** ** Package [providers]: Gemini *)

Module Gemini.

(** [GeminiProvider] implements the AIProvider interface for Google
    Gemini. *)
Record GeminiProvider := { client : genai.Client }.

(** [NewGeminiProvider] creates a new Gemini provider; [NewClient] is
    [genai.NewClient] with the key as its option. *)
Definition NewGeminiProvider (NewClient : string -> genai.Client + error)
    (apiKey : string) : option GeminiProvider * option error :=
  match NewClient apiKey with
  | inr err => (None, Some (Sprintf1 "failed to create Gemini client: " err ""))
  | inl client => (Some {| client := client |}, None)
  end.

(** [Name] returns the provider name. *)
Definition Name (p : GeminiProvider) : string := "google".

(** [SupportedModels] returns the list of supported models. *)
Definition SupportedModels (p : GeminiProvider) : list string :=
  [ "gemini-2.0-flash"; "gemini-1.5-pro"; "gemini-1.5-flash"; "gemini-pro" ].

(** The loop over the parts: the texts, one behind the other. *)
Fixpoint parts_text (parts : list genai.Part) (responseText : string) : string :=
  match parts with
  | [] => responseText
  | genai.Text txt :: rest => parts_text rest (responseText +:+ txt)
  | genai.OtherPart :: rest => parts_text rest responseText
  end.

(** [Review] performs a code review using Gemini.  The expression
    [resp.Candidates[0].Content.Parts] follows two pointers, the first
    candidate and its content: the call panics when one of them is nil. *)
Definition Review (p : GeminiProvider) (request : models.ReviewRequest)
    : outcome (option models.AIProviderResponse * option error) :=
  (* Get model, default to gemini-2.0-flash if not specified *)
  let modelName := models.AIModel request in
  let modelName :=
    if String.eqb modelName "" then "gemini-2.0-flash" else modelName in
  (* Configure model for structured output *)
  let model :=
    {| genai.ModelName := modelName;
       genai.Temperature := "0.3";
       genai.TopP := "0.95";
       genai.TopK := 40;
       genai.MaxOutputTokens := 8192 |} in
  (* Generate prompt *)
  let systemPrompt := GenerateSystemPrompt (models.Language request) in
  let userPrompt := GenerateUserPrompt request in
  (* Create the prompt parts *)
  let fullPrompt := systemPrompt +:+ nl +:+ nl +:+ userPrompt in
  (* Generate content *)
  match genai.GenerateContent (client p) model fullPrompt with
  | inr err =>
    Return (None, Some (Sprintf1 "failed to generate content: " err ""))
  | inl resp =>
    (* Extract text from response *)
    match genai.Candidates resp with
    | [] => Return (None, Some "no response candidates from Gemini")
    | None :: _ => Panic
    | Some candidate :: _ =>
      match genai.Content' candidate with
      | None => Panic
      | Some content =>
        let responseText := parts_text (genai.Parts content) "" in
        (* Parse the response *)
        Return (ParseAIResponse responseText)
      end
    end
  end.

End Gemini.

(** ** Package [providers]: OpenAI *)

Module OpenAI.

(** [OpenAIProvider] implements the AIProvider interface for OpenAI. *)
Record OpenAIProvider := { client : openai.Client }.

(** [NewOpenAIProvider] creates a new OpenAI provider; [NewClient] is
    [openai.NewClient]. *)
Definition NewOpenAIProvider (NewClient : string -> openai.Client)
    (apiKey : string) : OpenAIProvider :=
  {| client := NewClient apiKey |}.

(** [Name] returns the provider name. *)
Definition Name (p : OpenAIProvider) : string := "openai".

(** [SupportedModels] returns the list of supported models. *)
Definition SupportedModels (p : OpenAIProvider) : list string :=
  [ "gpt-4"; "gpt-4-turbo"; "gpt-4o"; "gpt-3.5-turbo" ].

(** [Review] performs a code review using OpenAI. *)
Definition Review (p : OpenAIProvider) (request : models.ReviewRequest)
    : outcome (option models.AIProviderResponse * option error) :=
  (* Get model, default to gpt-4o if not specified *)
  let modelName := models.AIModel request in
  let modelName := if String.eqb modelName "" then "gpt-4o" else modelName in
  (* Generate prompts *)
  let systemPrompt := GenerateSystemPrompt (models.Language request) in
  let userPrompt := GenerateUserPrompt request in
  (* Create chat completion request *)
  match openai.CreateChatCompletion (client p)
          {| openai.Model := modelName;
             openai.Messages :=
               [ {| openai.Role := openai.ChatMessageRoleSystem;
                    openai.Content := systemPrompt |};
                 {| openai.Role := openai.ChatMessageRoleUser;
                    openai.Content := userPrompt |} ];
             openai.Temperature := "0.3";
             openai.MaxTokens := 4096 |} with
  | inr err =>
    Return (None, Some (Sprintf1 "failed to create chat completion: " err ""))
  | inl resp =>
    match openai.Choices resp with
    | [] => Return (None, Some "no response from OpenAI")
    | choice :: _ =>
      let responseText := openai.Content (openai.Message choice) in
      (* Parse the response *)
      Return (ParseAIResponse responseText)
    end
  end.

End OpenAI.

(** ** Package [providers]: Claude *)

Module Claude.

(** [ClaudeProvider] implements the AIProvider interface for Anthropic
    Claude. *)
Record ClaudeProvider := { apiKey : string; httpClient : http.Client }.

(** [NewClaudeProvider] creates a new Claude provider; [DefaultClient] is
    the client [&http.Client{}]. *)
Definition NewClaudeProvider (DefaultClient : http.Client) (apiKey : string)
    : ClaudeProvider :=
  {| apiKey := apiKey; httpClient := DefaultClient |}.

(** [Name] returns the provider name. *)
Definition Name (p : ClaudeProvider) : string := "anthropic".

(** [SupportedModels] returns the list of supported models. *)
Definition SupportedModels (p : ClaudeProvider) : list string :=
  [ "claude-3-5-sonnet-20241022"; "claude-3-opus-20240229";
    "claude-3-sonnet-20240229"; "claude-3-haiku-20240307" ].

(** [ClaudeMessage] represents a message in Claude API. *)
Record ClaudeMessage := { Role : string; Content : string }.

(** [ClaudeRequest] represents the request structure for Claude API. *)
Record ClaudeRequest := {
  Model : string;
  MaxTokens : Z;
  Messages : list ClaudeMessage;
  System : string;
  Temperature : string
}.

Record ContentBlock := { Text : string }.
Record ErrorBody := { Type' : string; Message : string }.

(** [ClaudeResponse] represents the response from Claude API; the field
    [Error] is a pointer. *)
Record ClaudeResponse := {
  Content' : list ContentBlock;
  Error : option ErrorBody
}.

(** *** [json.Unmarshal] at the type [ClaudeResponse] *)

Import JSON.

Definition store_block_member (cur : ContentBlock) (kv : string * json)
    : option ContentBlock :=
  let '(key, v) := kv in
  if Decode.is_field "text" key then
    x ← Decode.store_string v (Text cur); Some {| Text := x |}
  else Some cur.

Definition store_block (v : json) (cur : ContentBlock) : option ContentBlock :=
  match v with
  | JObj members => Decode.store_members store_block_member cur members
  | JNull => Some cur
  | _ => None
  end.

Definition zero_block : ContentBlock := {| Text := "" |}.

(** The slice of blocks under the decoder, as the slice of issues in
    [Decode]: the array behind the slice and the length of the slice. *)
Definition set_block (i : nat) (x : ContentBlock) (l : list ContentBlock)
    : list ContentBlock :=
  if Nat.ltb i (length l) then <[i := x]> l else l ++ [x].

Fixpoint store_blocks (items : list json) (i : nat) (backing : list ContentBlock)
    : option (list ContentBlock) :=
  match items with
  | [] => Some backing
  | v :: rest =>
    match store_block v (nth i backing zero_block) with
    | Some x => store_blocks rest (S i) (set_block i x backing)
    | None => None
    end
  end.

Definition store_content (v : json) (cur : list ContentBlock * nat)
    : option (list ContentBlock * nat) :=
  match v with
  | JArr [] => Some ([], 0)
  | JArr items =>
    b ← store_blocks items 0 cur.1;
    Some (b, length items)
  | JNull => Some ([], 0)
  | _ => None
  end.

Definition store_error_member (cur : ErrorBody) (kv : string * json)
    : option ErrorBody :=
  let '(key, v) := kv in
  if Decode.is_field "type" key then
    x ← Decode.store_string v (Type' cur);
    Some {| Type' := x; Message := Message cur |}
  else if Decode.is_field "message" key then
    x ← Decode.store_string v (Message cur);
    Some {| Type' := Type' cur; Message := x |}
  else Some cur.

(** A pointer to a struct: a null makes it nil, an object is stored in
    the struct it points to, a new one when the pointer is nil. *)
Definition store_error (v : json) (cur : option ErrorBody)
    : option (option ErrorBody) :=
  match v with
  | JNull => Some None
  | JObj members =>
    x ← Decode.store_members store_error_member
          (default {| Type' := ""; Message := "" |} cur) members;
    Some (Some x)
  | _ => None
  end.

Definition store_response_member
    (cur : (list ContentBlock * nat) * option ErrorBody)
    (kv : string * json)
    : option ((list ContentBlock * nat) * option ErrorBody) :=
  let '(key, v) := kv in
  let '(content, err) := cur in
  if Decode.is_field "content" key then
    x ← store_content v content; Some (x, err)
  else if Decode.is_field "error" key then
    x ← store_error v err; Some (content, x)
  else Some cur.

(** [json.Unmarshal(body, &claudeResp)] on the zero value. *)
Definition Unmarshal (body : string) : ClaudeResponse + Decode.unmarshal_error :=
  match parse body with
  | None => inr Decode.SyntaxError
  | Some v =>
    match v with
    | JObj members =>
      match Decode.store_members store_response_member (([], 0), None) members with
      | Some ((backing, len), err) =>
        inl {| Content' := firstn len backing; Error := err |}
      | None => inr Decode.UnmarshalTypeError
      end
    | JNull => inl {| Content' := []; Error := None |}
    | _ => inr Decode.UnmarshalTypeError
    end
  end.

(** What the code takes from package [encoding/json] besides the decoder:
    the encoder at the type of the request, and the message of an error
    of the decoder. *)
Record JSONLib := {
  Marshal : ClaudeRequest -> string + error;
  ErrorText : Decode.unmarshal_error -> error
}.

(** [Review] performs a code review using Claude.  The request to send
    is built from constants, so [http.NewRequestWithContext] raises no
    error. *)
Definition Review (lib : JSONLib) (p : ClaudeProvider) (request : models.ReviewRequest)
    : outcome (option models.AIProviderResponse * option error) :=
  (* Get model, default to claude-3-5-sonnet if not specified *)
  let modelName := models.AIModel request in
  let modelName :=
    if String.eqb modelName "" then "claude-3-5-sonnet-20241022" else modelName in
  (* Generate prompts *)
  let systemPrompt := GenerateSystemPrompt (models.Language request) in
  let userPrompt := GenerateUserPrompt request in
  (* Create request *)
  let reqBody :=
    {| Model := modelName;
       MaxTokens := 4096;
       Temperature := "0.3";
       System := systemPrompt;
       Messages := [ {| Role := "user"; Content := userPrompt |} ] |} in
  match Marshal lib reqBody with
  | inr err => Return (None, Some (Sprintf1 "failed to marshal request: " err ""))
  | inl jsonData =>
    (* Create HTTP request *)
    let httpReq :=
      {| http.Method := "POST";
         http.URL := "https://api.anthropic.com/v1/messages";
         http.Header :=
           [ ("Content-Type", "application/json");
             ("x-api-key", apiKey p);
             ("anthropic-version", "2023-06-01") ];
         http.Body := jsonData |} in
    (* Send request *)
    match http.Do (httpClient p) httpReq with
    | inr err => Return (None, Some (Sprintf1 "failed to send request: " err ""))
    | inl resp =>
      match http.ReadAll resp with
      | inr err =>
        Return (None, Some (Sprintf1 "failed to read response: " err ""))
      | inl body =>
        if negb (http.StatusCode resp =? http.StatusOK)%Z then
          Return (None,
                  Some ("API request failed with status "
                        +:+ format_int (http.StatusCode resp) +:+ ": " +:+ body))
        else
          (* Parse response *)
          match Unmarshal body with
          | inr e =>
            Return (None,
                    Some (Sprintf1 "failed to unmarshal response: "
                            (ErrorText lib e) ""))
          | inl claudeResp =>
            match Error claudeResp with
            | Some e =>
              Return (None, Some (Sprintf1 "Claude API error: " (Message e) ""))
            | None =>
              match Content' claudeResp with
              | [] => Return (None, Some "no content in response")
              | block :: _ =>
                let responseText := Text block in
                (* Parse the response *)
                Return (ParseAIResponse responseText)
              end
            end
          end
      end
    end
  end.

End Claude.

(** ** The interface [AIProvider] and the start of the server *)

Module Main.

(** The values of the interface [AIProvider] in this program: a provider
    of one of the three kinds. *)
Inductive AIProvider :=
| OfGemini (p : Gemini.GeminiProvider)
| OfOpenAI (p : OpenAI.OpenAIProvider)
| OfClaude (p : Claude.ClaudeProvider).

Definition Name (p : AIProvider) : string :=
  match p with
  | OfGemini g => Gemini.Name g
  | OfOpenAI o => OpenAI.Name o
  | OfClaude c => Claude.Name c
  end.

Definition SupportedModels (p : AIProvider) : list string :=
  match p with
  | OfGemini g => Gemini.SupportedModels g
  | OfOpenAI o => OpenAI.SupportedModels o
  | OfClaude c => Claude.SupportedModels c
  end.

(** What lies outside the program when it starts: the environment (after
    the file .env was loaded into it) and the constructors of the clients. *)
Record World := {
  environ : gmap string string;
  genai_NewClient : string -> genai.Client + error;
  openai_NewClient : string -> openai.Client;
  http_Client : http.Client;
  json : Claude.JSONLib
}.

Definition Review (w : World) (p : AIProvider) (request : models.ReviewRequest)
    : outcome (option models.AIProviderResponse * option error) :=
  match p with
  | OfGemini g => Gemini.Review g request
  | OfOpenAI o => OpenAI.Review o request
  | OfClaude c => Claude.Review (json w) c request
  end.

(** The part of [main] that initialises the AI providers. *)
Definition register_providers (w : World) (cfg : config.Config)
    : providers.Registry AIProvider :=
  let providerRegistry := providers.NewRegistry in
  (* Register Google Gemini provider if API key is available *)
  let providerRegistry :=
    if negb (String.eqb (config.GoogleAPIKey cfg) "") then
      match Gemini.NewGeminiProvider (genai_NewClient w) (config.GoogleAPIKey cfg) with
      | (Some geminiProvider, None) =>
        providers.Register providerRegistry "google" (OfGemini geminiProvider)
      | _ => providerRegistry
      end
    else providerRegistry in
  (* Register OpenAI provider if API key is available *)
  let providerRegistry :=
    if negb (String.eqb (config.OpenAIAPIKey cfg) "") then
      providers.Register providerRegistry "openai"
        (OfOpenAI (OpenAI.NewOpenAIProvider (openai_NewClient w)
                     (config.OpenAIAPIKey cfg)))
    else providerRegistry in
  (* Register Anthropic Claude provider if API key is available *)
  let providerRegistry :=
    if negb (String.eqb (config.AnthropicAPIKey cfg) "") then
      providers.Register providerRegistry "anthropic"
        (OfClaude (Claude.NewClaudeProvider (http_Client w)
                     (config.AnthropicAPIKey cfg)))
    else providerRegistry in
  providerRegistry.

(** How far [main] gets: it ends in [log.Fatal] with a message, or it
    reaches [http.ListenAndServe] with the registry and the address. *)
Inductive startup :=
| Fatal (message : string)
| Serve (registry : providers.Registry AIProvider) (addr : string).

(** [main], up to the call of [http.ListenAndServe]; the lines it logs
    are left out.  The length of the slice [List] returns is the number
    of names in the registry. *)
Definition main (w : World) : startup :=
  (* Load configuration *)
  let cfg := config.Load (environ w) in
  (* Validate configuration *)
  match config.Validate cfg with
  | Some err => Fatal (Sprintf1 "Configuration error: " err "")
  | None =>
    (* Initialize AI providers *)
    let providerRegistry := register_providers w cfg in
    if Nat.eqb (size (providers.providers providerRegistry)) 0 then
      Fatal "No AI providers configured. Please set at least one API key."
    else
      (* Start server *)
      let addr := Sprintf1 ":" (config.Port cfg) "" in
      Serve providerRegistry addr
  end.

End Main.

(** ** Notions and examples for the further properties *)

(** What a pattern matches, said without the matcher: [matches r w rest
    pos c] holds when [r] matches the word [w] in front of [rest], the word
    beginning at position [pos], with the captures [c]. *)
Fixpoint matches (r : regex) (w rest : string) (pos : nat) (c : caps) : Prop :=
  match r with
  | Eps => w = "" /\ c = []
  | Chr p => exists x, w = String x "" /\ p x = true /\ c = []
  | Seq a b =>
    exists w1 w2 c1 c2,
      w = w1 +:+ w2
      /\ matches a w1 (w2 +:+ rest) pos c1
      /\ matches b w2 rest (pos + String.length w1) c2
      /\ c = c2 ++ c1
  | Alt a b => matches a w rest pos c \/ matches b w rest pos c
  | Star _ p => string_all p w = true /\ c = []
  | Group n a =>
    exists c', matches a w rest pos c'
               /\ c = (n, (pos, pos + String.length w)) :: c'
  | EndText => w = "" /\ rest = "" /\ c = []
  end.

(** A pattern without capturing group. *)
Fixpoint group_free (r : regex) : bool :=
  match r with
  | Seq a b | Alt a b => group_free a && group_free b
  | Group _ _ => false
  | _ => true
  end.

(** [rest] does not go on with a character of the class. *)
Definition stops (p : ascii -> bool) (rest : string) : Prop :=
  forall c s', rest = String c s' -> p c = false.

(** A line of the form the fallback parse looks for. *)
Definition file_line (path digits message : string) : string :=
  "File: " +:+ path +:+ " Line: " +:+ digits +:+ " - " +:+ message.

(** The response of the fallback parse to a line of that form. *)
Definition file_line_response (path digits message : string)
    : models.AIProviderResponse :=
  let line := (strconv.Atoi digits).1 in
  {| models.Overview := "AI code review completed";
     models.Diagnostics :=
       [ {| models.Message := message;
            models.Location' :=
              {| models.Path := path;
                 models.Range' :=
                   {| models.Start := {| models.Line := line; models.Column := 1 |};
                      models.End' := {| models.Line := line; models.Column := 2 |} |} |};
            models.Severity := "INFO";
            models.Code' := {| models.Value := "ai-review"; models.URL := "" |};
            models.Original := "";
            models.Suggestion := "" |} ] |}.

(** No three backticks in a row in [s]. *)
Fixpoint fence_free (s : string) : bool :=
  match s with
  | EmptyString => true
  | String _ rest => negb (opens_fence s) && fence_free rest
  end.

(** The reply with a fenced block: the text in front, the fence with its
    label, white space, the object from its opening to its closing brace,
    white space, the fence, and the text behind. *)
Definition fenced_reply (before label space1 inside space2 after : string)
    : string :=
  before +:+ "```" +:+ label +:+ space1 +:+ "{" +:+ inside +:+ "}"
  +:+ space2 +:+ "```" +:+ after.

(** An object on several lines, with an object inside. *)
Definition inside_lines : string :=
  nl +:+ js "  'overview': 'x'," +:+ nl +:+ js "  'issues': [{'file':'a.go','line':1}]"
  +:+ nl.




(** The response to the example of the fallback path. *)
Definition fallback_diagnostic : models.Diagnostic :=
  {| models.Message := "missing null check";
     models.Location' :=
       {| models.Path := "app.py";
          models.Range' :=
            {| models.Start := {| models.Line := 10; models.Column := 1 |};
               models.End' := {| models.Line := 10; models.Column := 2 |} |} |};
     models.Severity := "INFO";
     models.Code' := {| models.Value := "ai-review"; models.URL := "" |};
     models.Original := "";
     models.Suggestion := "" |}.

Definition fallback_response : models.AIProviderResponse :=
  {| models.Overview := "AI code review completed";
     models.Diagnostics := [fallback_diagnostic] |}.

(** The response to the reply with an explicit column. *)
Definition column7_response : models.AIProviderResponse :=
  {| models.Overview := "ok";
     models.Diagnostics := [issue_diagnostic column7_issue] |}.

(** A world for the examples: one client key, a key for OpenAI and one
    for Anthropic, no network. *)
Definition offline_world : Main.World :=
  {| Main.environ :=
       <["API_KEYS" := "client-1, client-2"]>
         (<["OPENAI_API_KEY" := "sk-1"]>
            (<["ANTHROPIC_API_KEY" := "sk-ant-1"]> ∅));
     Main.genai_NewClient := fun _ => inr "no credentials";
     Main.openai_NewClient :=
       fun _ => {| openai.CreateChatCompletion := fun _ => inr "offline" |};
     Main.http_Client := {| http.Do := fun _ => inr "offline" |};
     Main.json :=
       {| Claude.Marshal := fun _ => inl "{}";
          Claude.ErrorText := fun _ => "invalid JSON" |} |}.

(** What [Review] of Gemini gives to the client: the model and the
    prompt it builds for a request. *)
Definition gemini_model (request : models.ReviewRequest) : genai.GenerativeModel :=
  {| genai.ModelName :=
       if String.eqb (models.AIModel request) "" then "gemini-2.0-flash"
       else models.AIModel request;
     genai.Temperature := "0.3";
     genai.TopP := "0.95";
     genai.TopK := 40;
     genai.MaxOutputTokens := 8192 |}.

Definition gemini_prompt (request : models.ReviewRequest) : string :=
  GenerateSystemPrompt (models.Language request) +:+ nl +:+ nl
  +:+ GenerateUserPrompt request.

(** The request [Review] of Claude sends once the body is encoded. *)
Definition claude_http_request (p : Claude.ClaudeProvider) (jsonData : string)
    : http.Request :=
  {| http.Method := "POST";
     http.URL := "https://api.anthropic.com/v1/messages";
     http.Header :=
       [ ("Content-Type", "application/json");
         ("x-api-key", Claude.apiKey p);
         ("anthropic-version", "2023-06-01") ];
     http.Body := jsonData |}.

(** The body [Review] of Claude encodes for a request. *)
Definition claude_request (request : models.ReviewRequest) : Claude.ClaudeRequest :=
  {| Claude.Model :=
       if String.eqb (models.AIModel request) "" then "claude-3-5-sonnet-20241022"
       else models.AIModel request;
     Claude.MaxTokens := 4096;
     Claude.Temperature := "0.3";
     Claude.System := GenerateSystemPrompt (models.Language request);
     Claude.Messages :=
       [ {| Claude.Role := "user";
            Claude.Content := GenerateUserPrompt request |} ] |}.

(** Clients that do nothing but report the model they are asked for, as
    the text of an error. *)
Definition gemini_echo : Gemini.GeminiProvider :=
  {| Gemini.client :=
       {| genai.GenerateContent := fun model _ => inr (genai.ModelName model) |} |}.

Definition openai_echo : OpenAI.OpenAIProvider :=
  {| OpenAI.client :=
       {| openai.CreateChatCompletion := fun req => inr (openai.Model req) |} |}.

Definition json_echo : Claude.JSONLib :=
  {| Claude.Marshal := fun req => inr (Claude.Model req);
     Claude.ErrorText := fun _ => "" |}.

(** The texts among the parts of a content. *)
Definition part_texts (parts : list genai.Part) : list string :=
  omap (fun part => match part with
                    | genai.Text txt => Some txt
                    | genai.OtherPart => None
                    end) parts.

(** A request for the examples, and providers whose clients answer with
    the example of the fallback path. *)
Definition example_request : models.ReviewRequest :=
  {| models.AIModel := ""; models.AIProvider := "anthropic";
     models.Language := "Go"; models.ReviewMode := "full";
     models.GitDiff := "+x := 1"; models.GitInfo' := None |}.

Definition claude_replying (status : Z) (body : string) : Claude.ClaudeProvider :=
  {| Claude.apiKey := "sk-ant-1";
     Claude.httpClient :=
       {| http.Do := fun _ =>
            inl {| http.StatusCode := status; http.ReadAll := inl body |} |} |}.

Definition claude_body : string :=
  js "{'content':[{'type':'text','text':'File: app.py Line: 10 - missing null check'}]}".

Definition gemini_replying (candidates : list (option genai.Candidate))
    : Gemini.GeminiProvider :=
  {| Gemini.client :=
       {| genai.GenerateContent := fun _ _ =>
            inl {| genai.Candidates := candidates |} |} |}.

Definition two_candidates : list (option genai.Candidate) :=
  [ Some {| genai.Content' :=
              Some {| genai.Parts :=
                        [ genai.Text "File: app.py Line: 10";
                          genai.OtherPart;
                          genai.Text " - missing null check" ] |} |};
    None ].

(** * Properties *)

(** ** Strings *)

Lemma append_assoc (a b c : string) : (a +:+ b) +:+ c = a +:+ (b +:+ c).
Proof.
  induction a as [|x a IH]; [reflexivity|].
  change (String x ((a +:+ b) +:+ c) = String x (a +:+ (b +:+ c))).
  by rewrite IH.
Qed.

Lemma append_empty_r (a : string) : a +:+ "" = a.
Proof.
  induction a as [|x a IH]; [reflexivity|].
  change (String x (a +:+ "") = String x a). by rewrite IH.
Qed.

Lemma concat_empty_cons' (x : string) (l : list string) :
  String.concat "" (x :: l) = x +:+ String.concat "" l.
Proof. destruct l; [by rewrite append_empty_r|reflexivity]. Qed.

(** ** Severity *)

Lemma normalizeSeverity_values (s : string) :
  normalizeSeverity s = "ERROR" \/ normalizeSeverity s = "WARNING"
  \/ normalizeSeverity s = "INFO".
Proof.
  unfold normalizeSeverity.
  destruct (case_of _ ["ERROR"; "CRITICAL"; "HIGH"]); [by left|].
  destruct (case_of _ ["WARNING"; "WARN"; "MEDIUM"]); [by right; left|].
  by destruct (case_of _ _); right; right.
Qed.

Lemma ascii_eqb_code (a b : ascii) :
  Ascii.eqb a b = (byte_code a =? byte_code b)%N.
Proof.
  destruct (Ascii.eqb_spec a b) as [->|Hne].
  - symmetry. apply N.eqb_refl.
  - symmetry. apply N.eqb_neq. intros H. apply Hne.
    apply (f_equal ascii_of_N) in H. unfold byte_code in H.
    by rewrite !ascii_N_embedding in H.
Qed.

Lemma byte_code_bound (c : ascii) : (byte_code c < 256)%N.
Proof. apply N_ascii_bounded. Qed.

Lemma ascii_upper_code (c : ascii) :
  byte_code (ascii_upper c)
  = if is_lower c then (byte_code c - 32)%N else byte_code c.
Proof.
  unfold ascii_upper. destruct (is_lower c) eqn:Hl; [|done].
  unfold byte_code at 1. apply N_ascii_embedding.
  pose proof (byte_code_bound c). lia.
Qed.

(** An ASCII character whose upper case is the upper-case letter [L]: the
    letter, or the letter 32 places above it. *)
Lemma ascii_upper_letter (c L : ascii) :
  is_upper L = true ->
  Ascii.eqb (ascii_upper c) L
  = Ascii.eqb c L || (byte_code c =? byte_code L + 32)%N.
Proof.
  unfold is_upper, in_range. intros [HL1 HL2]%andb_prop.
  apply N.leb_le in HL1, HL2.
  rewrite !ascii_eqb_code, ascii_upper_code. unfold is_lower, in_range.
  destruct (N.leb_spec 97 (byte_code c)), (N.leb_spec (byte_code c) 122);
    cbn [andb];
    destruct (N.eqb_spec (byte_code c) (byte_code L)),
             (N.eqb_spec (byte_code c) (byte_code L + 32));
    cbn [orb];
    first [reflexivity | apply N.eqb_neq; lia | apply N.eqb_eq; lia | exfalso; lia].
Qed.

Lemma ToUpper_empty (t : string) :
  GoStrings.ToUpper t = Some "" <-> t = "".
Proof.
  split; [|by intros ->]. destruct t as [|c t]; [done|].
  cbn [GoStrings.ToUpper]. destruct (byte_code c <? 128)%N.
  { by destruct (GoStrings.ToUpper t). }
  destruct t as [|d t]; [done|].
  repeat (destruct (_ && _)%N; [by destruct (GoStrings.ToUpper t)|]). done.
Qed.

(** A token reads as a word of upper-case letters exactly when its upper
    case is the word. *)
Lemma reads_as_ToUpper (word token : string) :
  string_all is_upper word = true ->
  reads_as token word = true <-> GoStrings.ToUpper token = Some word.
Proof.
  revert token. induction word as [|L word IH]; intros token Hw.
  { rewrite ToUpper_empty. by destruct token. }
  cbn [string_all] in Hw. apply andb_prop in Hw as [HL Hw].
  destruct token as [|c token]; [done|].
  cbn [reads_as GoStrings.ToUpper].
  assert (HLlow : (byte_code L < 128)%N).
  { unfold is_upper, in_range in HL. apply andb_prop in HL as [_ HL].
    apply N.leb_le in HL. lia. }
  rewrite <- (ascii_upper_letter c L HL).
  destruct (N.ltb_spec (byte_code c) 128) as [Hc|Hc].
  - destruct (Ascii.eqb_spec (ascii_upper c) L) as [->|Hne].
    + rewrite (IH token Hw). destruct (GoStrings.ToUpper token); cbn; by split; intros [=]; subst.
    + split.
      * destruct token as [|d token]; [done|].
        replace (byte_code c =? 196)%N with false
          by (symmetry; apply N.eqb_neq; lia).
        replace (byte_code c =? 197)%N with false
          by (symmetry; apply N.eqb_neq; lia).
        by rewrite !andb_false_r.
      * destruct (GoStrings.ToUpper token); cbn; [|done]. by intros [= ? _].
  - assert (Hne : Ascii.eqb (ascii_upper c) L = false).
    { rewrite ascii_eqb_code, ascii_upper_code. unfold is_lower, in_range.
      replace (byte_code c <=? 122)%N with false
        by (symmetry; apply N.leb_gt; lia).
      rewrite andb_false_r. apply N.eqb_neq. lia. }
    rewrite Hne. destruct token as [|d token]; [done|].
    destruct ((byte_code c =? 196) && (byte_code d =? 177))%N eqn:Hi.
    { apply andb_prop in Hi as [Hc1 Hd1].
      rewrite Hc1, Hd1, !andb_true_r.
      replace (byte_code c =? 197)%N with false
        by (apply N.eqb_eq in Hc1; symmetry; apply N.eqb_neq; lia).
      rewrite !andb_false_r, orb_false_r.
      destruct (Ascii.eqb_spec L "I") as [->|HLI].
      - rewrite (IH token Hw). destruct (GoStrings.ToUpper token); cbn; by split; intros [=]; subst.
      - split; [done|]. destruct (GoStrings.ToUpper token); cbn; [|done].
        by intros [= ? _]. }
    destruct ((byte_code c =? 197) && (byte_code d =? 191))%N eqn:Hs.
    { apply andb_prop in Hs as [Hc1 Hd1].
      rewrite Hc1, Hd1, !andb_true_r.
      replace (byte_code c =? 196)%N with false
        by (apply N.eqb_eq in Hc1; symmetry; apply N.eqb_neq; lia).
      rewrite !andb_false_r, orb_false_l.
      destruct (Ascii.eqb_spec L "S") as [->|HLS].
      - rewrite (IH token Hw). destruct (GoStrings.ToUpper token); cbn; by split; intros [=]; subst.
      - split; [done|]. destruct (GoStrings.ToUpper token); cbn; [|done].
        by intros [= ? _]. }
    split; [|done].
    rewrite <- !andb_assoc, Hi, Hs, !andb_false_r. done.
Qed.

(** A case of the switch, over words of upper-case letters: the token
    reads as one of the words. *)
Lemma case_of_reads_as (token : string) (words : list string) :
  Forall (fun word => string_all is_upper word = true) words ->
  case_of (GoStrings.ToUpper token) words = reads_as_any token words.
Proof.
  intros Hwords. unfold case_of, reads_as_any, string_in.
  induction Hwords as [|word words Hword _ IH]; [by destruct (GoStrings.ToUpper _)|].
  cbn [existsb]. rewrite <- IH.
  pose proof (reads_as_ToUpper word token Hword) as Hr.
  destruct (GoStrings.ToUpper token) as [upper|] eqn:Hu.
  - f_equal. destruct (String.eqb_spec upper word) as [->|Hne].
    + symmetry. by apply Hr.
    + destruct (reads_as token word); [|done]. exfalso. apply Hne.
      destruct Hr as [Hr _]. by injection (Hr eq_refl).
  - destruct (reads_as token word); [|done]. by destruct Hr as [Hr _]; specialize (Hr eq_refl).
Qed.

(** C3.  [normalizeSeverity] is defined on every string, and what it
    returns is decided by what the trimmed input reads as, whatever the
    case of its letters: ERROR when it reads as ERROR, CRITICAL or HIGH;
    WARNING when it reads as WARNING, WARN or MEDIUM; INFO in every other
    case, so for INFO, INFORMATION, LOW, NOTE and for every token that
    reads as none of the ten words.  The folding is Go's upper-casing,
    under which the dotless i counts as I and the long s as S, so that
    high written with a dotless i gives ERROR.  The result is one of the
    three levels, and normalising a result gives the same result. *)
Theorem C3_normalizeSeverity_total_idempotent (s : string) :
  let token := GoStrings.TrimSpace s in
  normalizeSeverity s =
    (if reads_as_any token ["ERROR"; "CRITICAL"; "HIGH"] then "ERROR"
     else if reads_as_any token ["WARNING"; "WARN"; "MEDIUM"] then "WARNING"
     else "INFO")
  /\ (reads_as_any token ["INFO"; "INFORMATION"; "LOW"; "NOTE"] = true ->
      normalizeSeverity s = "INFO")
  /\ (normalizeSeverity s = "ERROR" \/ normalizeSeverity s = "WARNING"
      \/ normalizeSeverity s = "INFO")
  /\ normalizeSeverity (normalizeSeverity s) = normalizeSeverity s
  /\ map normalizeSeverity ["error"; " Critical "; "HIGH"; dotless_high]
     = ["ERROR"; "ERROR"; "ERROR"; "ERROR"]
  /\ map normalizeSeverity ["Warning"; "warn" +:+ nl; "medium"; dotless_warning]
     = ["WARNING"; "WARNING"; "WARNING"; "WARNING"]
  /\ map normalizeSeverity ["info"; "Information"; "low"; "note"; "fatal"; ""]
     = ["INFO"; "INFO"; "INFO"; "INFO"; "INFO"; "INFO"].
Proof.
  intros token.
  assert (Heq : normalizeSeverity s =
    (if reads_as_any token ["ERROR"; "CRITICAL"; "HIGH"] then "ERROR"
     else if reads_as_any token ["WARNING"; "WARN"; "MEDIUM"] then "WARNING"
     else "INFO")).
  { unfold normalizeSeverity; cbv zeta; fold token.
    rewrite !case_of_reads_as by (by repeat constructor).
    by repeat case_match. }
  split; [exact Heq|]. split; [|split; [|split]].
  - intros Hi. rewrite Heq.
    assert (Hone : forall w1 w2, reads_as token w1 = true ->
                     reads_as token w2 = true ->
                     string_all is_upper w1 = true ->
                     string_all is_upper w2 = true -> w1 = w2).
    { intros w1 w2 H1 H2 Hw1 Hw2.
      apply reads_as_ToUpper in H1, H2; [|done..]. congruence. }
    unfold reads_as_any in *. cbn [existsb] in *. rewrite !orb_false_r in *.
    repeat (apply orb_prop in Hi as [Hi|Hi]);
      repeat match goal with
      | |- context [reads_as token ?w] =>
        lazymatch goal with
        | H : reads_as token w = _ |- _ => fail
        | _ => destruct (reads_as token w) eqn:?
        end
      end; cbn [orb]; try done;
      exfalso;
      match goal with
      | H1 : reads_as token ?w1 = true, H2 : reads_as token ?w2 = true |- _ =>
        lazymatch w1 with
        | w2 => fail
        | _ => by specialize (Hone w1 w2 H1 H2 eq_refl eq_refl)
        end
      end.
  - apply normalizeSeverity_values.
  - by destruct (normalizeSeverity_values s) as [-> | [-> | ->]].
  - repeat split; vm_compute; reflexivity.
Qed.

(** Tokens in other cases and between white space, tokens the switch does
    not know, and tokens with a letter outside ASCII. *)
Example normalizeSeverity_tokens :
  map normalizeSeverity ["error"; " Critical "; "HIGH"; "fatal"]
    = ["ERROR"; "ERROR"; "ERROR"; "INFO"]
  /\ map normalizeSeverity ["Warning"; "warn" +:+ nl; "medium"; ""]
    = ["WARNING"; "WARNING"; "WARNING"; "INFO"]
  /\ map normalizeSeverity ["info"; "Information"; "low"; "note"; "ERROR!"]
    = ["INFO"; "INFO"; "INFO"; "INFO"; "INFO"]
  /\ map normalizeSeverity
       [dotless_high; String "195" (String "169" "rror"); String "255" "HIGH"]
    = ["ERROR"; "INFO"; "INFO"].
Proof. repeat split; vm_compute; reflexivity. Qed.

(** ** The normaliser never fails *)

Lemma parseUnstructuredResponse_succeeds (text : string) :
  exists r, parseUnstructuredResponse text = (Some r, None).
Proof. unfold parseUnstructuredResponse. eauto. Qed.

(** C1.  For every input, [ParseAIResponse] returns a response and the nil
    error; so does the fallback parse [parseUnstructuredResponse]; and when
    the decoding of the extracted text fails, the result of
    [ParseAIResponse] is the result of the fallback parse on the raw text
    (when it succeeds, it is the decoded overview with the converted
    issues). *)
Theorem C1_ParseAIResponse_never_fails (responseText : string) :
  (exists r, ParseAIResponse responseText = (Some r, None))
  /\ (exists r, parseUnstructuredResponse responseText = (Some r, None))
  /\ match Decode.Unmarshal (extractJSON responseText) with
     | inr _ =>
       ParseAIResponse responseText = parseUnstructuredResponse responseText
     | inl rawResponse =>
       ParseAIResponse responseText =
       (Some {| models.Overview := raw.Overview rawResponse;
                models.Diagnostics :=
                  map issue_diagnostic (raw.Issues rawResponse) |}, None)
     end.
Proof.
  split; [|split].
  - unfold ParseAIResponse.
    destruct (Decode.Unmarshal _); [eauto|].
    apply parseUnstructuredResponse_succeeds.
  - apply parseUnstructuredResponse_succeeds.
  - unfold ParseAIResponse. by destruct (Decode.Unmarshal _).
Qed.

(** The five kinds of input the specification lists. *)
Example ParseAIResponse_kinds :
  ParseAIResponse "" =
    (Some {| models.Overview := "AI code review completed";
             models.Diagnostics := [] |}, None)
  /\ ParseAIResponse json_x =
    (Some {| models.Overview := "x"; models.Diagnostics := [] |}, None)
  /\ ParseAIResponse fenced_x =
    (Some {| models.Overview := "x"; models.Diagnostics := [] |}, None)
  /\ ParseAIResponse "The change looks fine." =
    (Some {| models.Overview := "The change looks fine.";
             models.Diagnostics := [] |}, None)
  /\ ParseAIResponse (js "{'overview': 'x', 'issues': [") =
    (Some {| models.Overview := js "{'overview': 'x', 'issues': [";
             models.Diagnostics := [] |}, None).
Proof. repeat split; vm_compute; reflexivity. Qed.

(** ** The overview *)

Lemma first_paragraph_nonempty (lines : list string) (overview : string) :
  overview <> "" -> first_paragraph lines overview <> "".
Proof.
  intros Ho. induction lines as [|line rest IH]; [done|].
  cbn [first_paragraph].
  destruct (String.eqb_spec (GoStrings.TrimSpace line) "") as [|Hne]; [done|].
  cbn [negb andb]. by destruct (GoStrings.HasPrefix _ _).
Qed.

Lemma fallback_overview_nonempty (text : string) (r : models.AIProviderResponse) :
  parseUnstructuredResponse text = (Some r, None) -> models.Overview r <> "".
Proof.
  unfold parseUnstructuredResponse. intros [= <-]. cbn.
  destruct (Nat.eqb _ 0); [|done].
  by apply first_paragraph_nonempty.
Qed.

(** C2, as stated, fails: the reply {'overview':'','issues':[]} (with
    double quotes) decodes, and its overview, the empty string, is
    returned. *)
Lemma C2_overview_can_be_empty :
  Decode.Unmarshal (extractJSON empty_overview_reply)
    = inl {| raw.Overview := ""; raw.Issues := [] |}
  /\ ParseAIResponse empty_overview_reply =
       (Some {| models.Overview := ""; models.Diagnostics := [] |}, None)
  /\ ~ (forall text r, ParseAIResponse text = (Some r, None) ->
        models.Overview r <> "").
Proof.
  assert (H : ParseAIResponse empty_overview_reply =
       (Some {| models.Overview := ""; models.Diagnostics := [] |}, None))
    by (vm_compute; reflexivity).
  split; [vm_compute; reflexivity|]. split; [exact H|].
  intros Hall. by apply (Hall _ _ H).
Qed.

(** C2, amended.  When the decoding of the extracted text fails, the
    overview of the result is not empty; when it succeeds, the overview is
    the decoded overview, as the backend wrote it. *)
Theorem C2_overview_nonempty_on_fallback (text : string) (r : models.AIProviderResponse) :
  ParseAIResponse text = (Some r, None) ->
  match Decode.Unmarshal (extractJSON text) with
  | inr _ => models.Overview r <> ""
  | inl rawResponse => models.Overview r = raw.Overview rawResponse
  end.
Proof.
  unfold ParseAIResponse. destruct (Decode.Unmarshal _) as [rawResponse|e].
  - by intros [= <-].
  - apply fallback_overview_nonempty.
Qed.

(** The theorem at a reply in prose. *)
Lemma C2_overview_nonempty_on_fallback_witness :
  ParseAIResponse prose_reply =
    (Some {| models.Overview := "Looks good to me."; models.Diagnostics := [] |},
     None)
  /\ "Looks good to me." <> "".
Proof.
  assert (H : ParseAIResponse prose_reply =
    (Some {| models.Overview := "Looks good to me."; models.Diagnostics := [] |},
     None)) by (vm_compute; reflexivity).
  split; [exact H|].
  exact (C2_overview_nonempty_on_fallback prose_reply _ H).
Defined.

(** ** The prompt *)

Lemma concat_empty_app (l1 l2 : list string) :
  String.concat "" (l1 ++ l2) = String.concat "" l1 +:+ String.concat "" l2.
Proof.
  induction l1 as [|x l1 IH]; [reflexivity|].
  change ((x :: l1) ++ l2) with (x :: (l1 ++ l2)).
  rewrite !concat_empty_cons', IH. by rewrite append_assoc.
Qed.

(** C5.  The prompt of [GenerateUserPrompt] contains the diff of the
    request, byte for byte.  This holds for every request, so for every
    request whose diff is not empty. *)
Theorem C5_GenerateUserPrompt_contains_diff (request : models.ReviewRequest) :
  Substring (models.GitDiff request) (GenerateUserPrompt request).
Proof.
  unfold Substring, GenerateUserPrompt.
  match goal with
  | |- context [String.concat "" (?a :: ?b :: ?c :: ?d :: ?l)] =>
    change (a :: b :: c :: d :: l) with ([a; b; c] ++ d :: l)
  end.
  rewrite concat_empty_app, concat_empty_cons'. eauto.
Qed.

(** ** The structured path *)

Lemma lookup_map {A B : Type} (f : A -> B) (l : list A) (i : nat) (x : A) :
  l !! i = Some x -> map f l !! i = Some (f x).
Proof.
  revert i. induction l as [|y l IH]; intros [|i]; cbn; try done.
  - by intros [= ->].
  - apply IH.
Qed.

(** A key that is not the column leaves the column as it is, so an issue
    object without that key, stored in a fresh element, has column zero. *)
Lemma store_issue_member_keeps_column (cur x : raw.Issue) (kv : string * JSON.json) :
  Decode.is_field "column" kv.1 = false ->
  Decode.store_issue_member cur kv = Some x ->
  raw.Column x = raw.Column cur.
Proof.
  destruct kv as [key v], cur as [f l c sv ca m sg]. intros Hk.
  change (Decode.is_field "column" key = false) in Hk.
  unfold Decode.store_issue_member. rewrite Hk.
  repeat case_match; intros Hx; by simplify_option_eq.
Qed.

Lemma absent_column_is_zero (members : list (string * JSON.json)) (x : raw.Issue) :
  Forall (fun kv => Decode.is_field "column" kv.1 = false) members ->
  Decode.store_issue (JSON.JObj members) raw.zero_issue = Some x ->
  raw.Column x = 0%Z.
Proof.
  cbn [Decode.store_issue].
  change 0%Z with (raw.Column raw.zero_issue). generalize raw.zero_issue.
  intros cur Hall. revert cur.
  induction Hall as [|kv members Hk _ IH]; intros cur; cbn.
  - by intros [= <-].
  - destruct (Decode.store_issue_member cur kv) as [cur'|] eqn:Hs; [|done].
    intros Hx. rewrite (IH _ Hx).
    by eapply store_issue_member_keeps_column.
Qed.

(** C4.  On the structured path (the extracted text decodes), the
    diagnostic of a decoded issue whose column is zero, which is what the
    decoder leaves when the column is absent, starts at column 1 and ends at
    column 2 of the line of the issue. *)
Theorem C4_column_defaulting (text : string) (rawResponse : raw.Response)
    (i : nat) (issue : raw.Issue) :
  Decode.Unmarshal (extractJSON text) = inl rawResponse ->
  raw.Issues rawResponse !! i = Some issue ->
  raw.Column issue = 0%Z ->
  exists r d,
    ParseAIResponse text = (Some r, None)
    /\ models.Diagnostics r !! i = Some d
    /\ models.Range' (models.Location' d) =
       {| models.Start := {| models.Line := raw.Line issue; models.Column := 1 |};
          models.End' := {| models.Line := raw.Line issue; models.Column := 2 |} |}.
Proof.
  intros Hdec Hi Hcol. unfold ParseAIResponse. rewrite Hdec.
  eexists _, (issue_diagnostic issue). split; [reflexivity|]. split.
  - cbn. by apply lookup_map.
  - unfold issue_diagnostic. cbn. rewrite Hcol. reflexivity.
Qed.

(** The example of the specification: line 42 and no column. *)
Lemma C4_column_defaulting_line42 :
  Decode.Unmarshal (extractJSON line42_reply)
    = inl {| raw.Overview := "ok"; raw.Issues := [line42_issue] |}
  /\ exists r d,
    ParseAIResponse line42_reply = (Some r, None)
    /\ models.Diagnostics r !! 0 = Some d
    /\ models.Range' (models.Location' d) =
       {| models.Start := {| models.Line := 42; models.Column := 1 |};
          models.End' := {| models.Line := 42; models.Column := 2 |} |}.
Proof.
  assert (H : Decode.Unmarshal (extractJSON line42_reply)
    = inl {| raw.Overview := "ok"; raw.Issues := [line42_issue] |})
    by (vm_compute; reflexivity).
  split; [exact H|].
  exact (C4_column_defaulting line42_reply _ 0 line42_issue H eq_refl eq_refl).
Defined.

(** ** The fallback path *)

(** C7.  The text "File: app.py Line: 10 - missing null check" holds no
    JSON: the extraction returns it unchanged and its decoding fails.  The
    result has exactly one diagnostic: severity INFO, path app.py, line 10,
    columns 1 to 2, the code ai-review. *)
Theorem C7_fallback_example :
  extractJSON fallback_reply = fallback_reply
  /\ Decode.Unmarshal fallback_reply = inr Decode.SyntaxError
  /\ ParseAIResponse fallback_reply =
     (Some {| models.Overview := "AI code review completed";
              models.Diagnostics :=
                [ {| models.Message := "missing null check";
                     models.Location' :=
                       {| models.Path := "app.py";
                          models.Range' :=
                            {| models.Start :=
                                 {| models.Line := 10; models.Column := 1 |};
                               models.End' :=
                                 {| models.Line := 10; models.Column := 2 |} |} |};
                     models.Severity := "INFO";
                     models.Code' :=
                       {| models.Value := "ai-review"; models.URL := "" |};
                     models.Original := "";
                     models.Suggestion := "" |} ] |},
      None).
Proof. repeat split; vm_compute; reflexivity. Qed.

(** ** The overview of the fallback parse *)

Lemma first_paragraph_spec (lines : list string) (overview : string) :
  (exists before line after,
      lines = before ++ line :: after
      /\ Forall passed_over before
      /\ ~ passed_over line
      /\ first_paragraph lines overview = GoStrings.TrimSpace line)
  \/ (Forall passed_over lines /\ first_paragraph lines overview = overview).
Proof.
  induction lines as [|line rest IH]; [by right|].
  cbn [first_paragraph].
  destruct (String.eqb_spec (GoStrings.TrimSpace line) "") as [He|Hne];
    cbn [negb andb].
  { destruct IH as [(before & l & after & -> & Hb & Hl & Hr)|[Hall Hr]].
    - left. exists (line :: before), l, after.
      repeat split; [by constructor; [left|]|done|done].
    - right. split; [by constructor; [left|]|done]. }
  destruct (GoStrings.HasPrefix (GoStrings.TrimSpace line) "#") eqn:Hh;
    cbn [negb].
  { destruct IH as [(before & l & after & -> & Hb & Hl & Hr)|[Hall Hr]].
    - left. exists (line :: before), l, after.
      repeat split; [by constructor; [right|]|done|done].
    - right. split; [by constructor; [right|]|done]. }
  left. exists [], line, rest. repeat split; [done|].
  intros [?|?]; congruence.
Qed.

(** C8, as stated, fails: for the one line "  Looks good to me." the
    fallback parse finds no diagnostic, the first line that is not empty
    after trimming and does not begin with # is the line itself, with its
    two leading spaces, and the overview is the line without them. *)
Lemma C8_overview_is_trimmed :
  parseUnstructuredResponse indented_reply =
    (Some {| models.Overview := "Looks good to me."; models.Diagnostics := [] |},
     None)
  /\ claimed_overview indented_reply = "  Looks good to me."
  /\ ~ (forall text r,
          parseUnstructuredResponse text = (Some r, None) ->
          models.Diagnostics r = [] ->
          models.Overview r = claimed_overview text).
Proof.
  assert (H : parseUnstructuredResponse indented_reply =
    (Some {| models.Overview := "Looks good to me."; models.Diagnostics := [] |},
     None)) by (vm_compute; reflexivity).
  split; [exact H|]. split; [vm_compute; reflexivity|].
  intros Hall. specialize (Hall _ _ H eq_refl). vm_compute in Hall.
  discriminate Hall.
Qed.

(** C8, amended.  When the fallback parse finds no diagnostic, the overview
    is the trimmed form of the first line of the raw text whose trimmed form
    is neither empty nor begins with #; it is the sentence "AI code review
    completed" when every line, trimmed, is empty or begins with #. *)
Theorem C8_fallback_overview (text : string) (r : models.AIProviderResponse) :
  parseUnstructuredResponse text = (Some r, None) ->
  models.Diagnostics r = [] ->
  (exists before line after,
      GoStrings.Split text NL = before ++ line :: after
      /\ Forall passed_over before
      /\ ~ passed_over line
      /\ models.Overview r = GoStrings.TrimSpace line)
  \/ (Forall passed_over (GoStrings.Split text NL)
      /\ models.Overview r = "AI code review completed").
Proof.
  unfold parseUnstructuredResponse. intros [= <-]. cbn. intros ->. cbn.
  apply first_paragraph_spec.
Qed.

(** The theorem at a reply with a heading, an empty line and an indented
    line. *)
Lemma C8_fallback_overview_witness :
  parseUnstructuredResponse prose_reply =
    (Some {| models.Overview := "Looks good to me."; models.Diagnostics := [] |},
     None)
  /\ ((exists before line after,
      GoStrings.Split prose_reply NL = before ++ line :: after
      /\ Forall passed_over before
      /\ ~ passed_over line
      /\ "Looks good to me." = GoStrings.TrimSpace line)
  \/ (Forall passed_over (GoStrings.Split prose_reply NL)
      /\ "Looks good to me." = "AI code review completed")).
Proof.
  assert (H : parseUnstructuredResponse prose_reply =
    (Some {| models.Overview := "Looks good to me."; models.Diagnostics := [] |},
     None)) by (vm_compute; reflexivity).
  split; [exact H|].
  exact (C8_fallback_overview prose_reply _ H eq_refl).
Defined.

(** ** The registry *)

Import providers.

Lemma registered_lookup {AIProvider : Type} (regs : list (string * AIProvider))
    (r : Registry AIProvider) (name : string) :
  name ∉ regs.*1 ->
  providers (registered r regs) !! name = providers r !! name.
Proof.
  revert r. induction regs as [|[n p] regs IH]; intros r Hn; [done|].
  cbn in Hn. apply not_elem_of_cons in Hn as [Hne Hn].
  change (registered r ((n, p) :: regs)) with (registered (Register r n p) regs).
  rewrite IH by done. cbn. by rewrite lookup_insert_ne.
Qed.

(** C9.  [Get] on a name that no registration used returns no provider
    and the error "provider '<name>' not found"; after [Register r name p],
    [Get] on [name] returns [p] and no error; after the registration of two
    different names in a new registry, the slices [List] may return are the
    arrangements of these two names. *)
Theorem C9_registry_get_list {AIProvider : Type}
    (regs : list (string * AIProvider)) (r : Registry AIProvider)
    (name a b : string) (p pa pb : AIProvider) (names : list string) :
  name ∉ regs.*1 ->
  a <> b ->
  Get (registered NewRegistry regs) name
    = (None, Some ("provider '" +:+ name +:+ "' not found"))
  /\ Get (Register r name p) name = (Some p, None)
  /\ (List (Register (Register NewRegistry a pa) b pb) names <->
      names ≡ₚ [a; b]).
Proof.
  intros Hname Hab. split; [|split].
  - unfold Get. rewrite registered_lookup by done. cbn.
    by rewrite lookup_empty.
  - unfold Get, Register. cbn. by rewrite lookup_insert_eq.
  - unfold List, Register, NewRegistry. cbn.
    rewrite map_to_list_insert by (by rewrite lookup_insert_ne).
    rewrite insert_empty, map_to_list_singleton. cbn.
    split; intros ->; apply Permutation_swap.
Qed.

(** The theorem at providers numbered 1 to 4. *)
Lemma C9_registry_get_list_witness :
  "x" <> "y"
  /\ Get (registered NewRegistry [("google", 1); ("openai", 2)]) "x"
    = (None, Some "provider 'x' not found")
  /\ Get (Register (Register NewRegistry "google" 1) "x" 3) "x" = (Some 3, None)
  /\ (List (Register (Register NewRegistry "x" 3) "y" 4) ["x"; "y"] <->
      ["x"; "y"] ≡ₚ ["x"; "y"]).
Proof.
  split; [discriminate|].
  apply (C9_registry_get_list [("google", 1); ("openai", 2)]
           (Register NewRegistry "google" 1) "x" "x" "y" 3 3 4 ["x"; "y"]).
  - cbn. intros H. repeat (apply elem_of_cons in H as [H|H]; [discriminate H|]).
    by apply elem_of_nil in H.
  - discriminate.
Defined.

(** ** Go ints *)

Lemma wrap_in_range (z : Z) :
  (GoInt.min_int <= z <= GoInt.max_int)%Z -> GoInt.wrap z = z.
Proof.
  unfold GoInt.min_int, GoInt.max_int, GoInt.wrap. intros H.
  rewrite Z.mod_small; lia.
Qed.

Lemma digits_value_nonneg (s : string) (acc v : Z) :
  (0 <= acc)%Z -> strconv.digits_value s acc = Some v -> (0 <= v)%Z.
Proof.
  revert acc. induction s as [|c s IH]; intros acc Hacc; cbn.
  - by intros [= <-].
  - destruct (is_digit c); [|done]. apply IH. lia.
Qed.

Lemma ParseInt_in_range (s : string) (n : Z) :
  strconv.ParseInt s = (n, None) -> (GoInt.min_int <= n <= GoInt.max_int)%Z.
Proof.
  unfold strconv.ParseInt.
  set (nb := match s with "" => _ | String _ _ => _ end).
  destruct nb as [neg body]. destruct body as [|c body]; [done|].
  destruct (strconv.digits_value _ 0) as [v|] eqn:Hv; [|done].
  apply digits_value_nonneg in Hv; [|done].
  unfold GoInt.min_int, GoInt.max_int.
  destruct neg.
  - destruct (Z.leb_spec v (2 ^ 63)); [|done]. intros [= <-]. lia.
  - destruct (Z.leb_spec v (2 ^ 63 - 1)); [|done]. intros [= <-]. lia.
Qed.

(** ** The decoder keeps the integers in range *)

Lemma zero_issue_in_range : issue_in_range raw.zero_issue.
Proof. unfold issue_in_range, GoInt.min_int, GoInt.max_int. cbn. lia. Qed.

Lemma store_int_in_range (v : JSON.json) (cur x : Z) :
  (GoInt.min_int <= cur <= GoInt.max_int)%Z ->
  Decode.store_int v cur = Some x ->
  (GoInt.min_int <= x <= GoInt.max_int)%Z.
Proof.
  intros Hcur. destruct v; cbn; try done.
  - by intros [= <-].
  - destruct (strconv.ParseInt lit) as [n [e|]] eqn:Ha; [done|].
    intros [= <-]. by apply ParseInt_in_range in Ha.
Qed.

Lemma store_issue_member_in_range (cur x : raw.Issue) (kv : string * JSON.json) :
  issue_in_range cur ->
  Decode.store_issue_member cur kv = Some x ->
  issue_in_range x.
Proof.
  destruct kv as [key v], cur as [f l c sv ca m sg].
  unfold issue_in_range, Decode.store_issue_member. cbn. intros [Hl Hc].
  repeat case_match; intros Hx; simplify_option_eq; cbn;
    eauto using store_int_in_range.
Qed.

Lemma store_members_invariant {A : Type} (P : A -> Prop)
    (store : A -> string * JSON.json -> option A) :
  (forall cur kv x, P cur -> store cur kv = Some x -> P x) ->
  forall members cur x,
    P cur -> Decode.store_members store cur members = Some x -> P x.
Proof.
  intros Hstep members. induction members as [|kv rest IH]; intros cur x Hcur; cbn.
  - by intros [= <-].
  - destruct (store cur kv) as [cur'|] eqn:Hs; [|done].
    apply IH. by eapply Hstep.
Qed.

Lemma store_issue_in_range (v : JSON.json) (cur x : raw.Issue) :
  issue_in_range cur -> Decode.store_issue v cur = Some x -> issue_in_range x.
Proof.
  intros Hcur. destruct v; cbn; try done.
  - by intros [= <-].
  - apply (store_members_invariant issue_in_range); [|done].
    intros c kv y. apply store_issue_member_in_range.
Qed.

Lemma set_index_in_range (i : nat) (x : raw.Issue) (l : list raw.Issue) :
  issue_in_range x -> Forall issue_in_range l ->
  Forall issue_in_range (Decode.set_index i x l).
Proof.
  intros Hx Hl. unfold Decode.set_index. destruct (Nat.ltb i (length l)).
  - by apply Forall_insert.
  - apply Forall_app. split; [done|by constructor].
Qed.

Lemma nth_in_range (i : nat) (l : list raw.Issue) :
  Forall issue_in_range l -> issue_in_range (nth i l raw.zero_issue).
Proof.
  intros Hl. revert i. induction Hl as [|y l Hy Hl IH]; intros [|i]; cbn;
    auto using zero_issue_in_range.
Qed.

Lemma store_items_in_range (items : list JSON.json) (i : nat)
    (backing b : list raw.Issue) :
  Forall issue_in_range backing ->
  Decode.store_items items i backing = Some b ->
  Forall issue_in_range b.
Proof.
  revert i backing. induction items as [|v rest IH]; intros i backing Hb; cbn.
  - by intros [= <-].
  - destruct (Decode.store_issue v _) as [x|] eqn:Hs; [|done].
    apply IH, set_index_in_range; [|done].
    eapply store_issue_in_range; [|exact Hs]. by apply nth_in_range.
Qed.

Lemma store_issues_in_range (v : JSON.json) (cur s : Decode.slice) :
  Forall issue_in_range (Decode.backing cur) ->
  Decode.store_issues v cur = Some s ->
  Forall issue_in_range (Decode.backing s).
Proof.
  intros Hcur. destruct v as [| | | |items|]; cbn; try done.
  - by intros [= <-].
  - destruct items as [|v items]; [by intros [= <-]|].
    destruct (Decode.store_items _ _ _) as [b|] eqn:Hs; [|done].
    cbn. intros [= <-]. cbn. by eapply store_items_in_range.
Qed.

Lemma Unmarshal_in_range (data : string) (rawResponse : raw.Response) :
  Decode.Unmarshal data = inl rawResponse ->
  Forall issue_in_range (raw.Issues rawResponse).
Proof.
  unfold Decode.Unmarshal. destruct (JSON.parse data) as [v|]; [|done].
  destruct (Decode.store_response v _) as [[overview issues]|] eqn:Hs; [|done].
  intros [= <-]. cbn. apply Forall_take.
  assert (H : Forall issue_in_range (Decode.backing ("", Decode.nil_slice).2))
    by constructor.
  revert Hs H. generalize ("", Decode.nil_slice). intros cur Hs Hcur.
  change issues with (overview, issues).2.
  revert Hs Hcur. generalize (overview, issues). clear. intros res Hs Hcur.
  destruct v; cbn in Hs; try done.
  - by injection Hs as <-.
  - revert Hs. apply (store_members_invariant
      (fun c => Forall issue_in_range (Decode.backing c.2))); [|done].
    clear. intros [o sl] [key v] x Hc. unfold Decode.store_response_member.
    repeat case_match; intros Hx; simplify_option_eq; cbn; try done.
    by eapply store_issues_in_range.
Qed.

(** ** The range of a diagnostic *)

Lemma issue_diagnostic_range (issue : raw.Issue) :
  issue_in_range issue -> one_column_range (issue_diagnostic issue).
Proof.
  intros [_ Hc]. unfold one_column_range, issue_diagnostic. cbn.
  split; [done|]. split; [done|]. intros Hmax.
  unfold GoInt.add. apply wrap_in_range.
  revert Hc Hmax. unfold GoInt.min_int, GoInt.max_int.
  destruct (Z.eqb_spec (raw.Column issue) 0); lia.
Qed.

Lemma match_diagnostic_range (m : list string) (d : models.Diagnostic) :
  d ∈ match_diagnostic m -> one_column_range d.
Proof.
  unfold match_diagnostic. destruct (Nat.leb 4 (length m)).
  - intros ->%list_elem_of_singleton. by unfold one_column_range.
  - by intros ?%elem_of_nil.
Qed.

(** C10.  Every diagnostic of a result of [ParseAIResponse], on either
    path, ends on the line where it starts, at the column of the start plus
    one: the sum is Go's [column + 1] on ints, which is the integer sum
    unless the column is the largest int.  On the structured path an issue
    with a column c above 0 gives the range from (line, c) to (line,
    c + 1). *)
Theorem C10_diagnostic_range :
  (forall text r d,
      ParseAIResponse text = (Some r, None) ->
      d ∈ models.Diagnostics r ->
      one_column_range d)
  /\ (forall text rawResponse i issue,
      Decode.Unmarshal (extractJSON text) = inl rawResponse ->
      raw.Issues rawResponse !! i = Some issue ->
      (0 < raw.Column issue)%Z ->
      exists r d,
        ParseAIResponse text = (Some r, None)
        /\ models.Diagnostics r !! i = Some d
        /\ models.Range' (models.Location' d) =
           {| models.Start :=
                {| models.Line := raw.Line issue;
                   models.Column := raw.Column issue |};
              models.End' :=
                {| models.Line := raw.Line issue;
                   models.Column := GoInt.add (raw.Column issue) 1 |} |}).
Proof.
  split.
  - intros text r d. unfold ParseAIResponse.
    destruct (Decode.Unmarshal _) as [rawResponse|e] eqn:Hdec.
    + intros [= <-]. cbn. intros Hd%list_elem_of_In.
      apply in_map_iff in Hd as (issue & <- & Hi).
      apply issue_diagnostic_range.
      apply Unmarshal_in_range in Hdec.
      by eapply Forall_forall in Hdec; [|apply list_elem_of_In].
    + unfold parseUnstructuredResponse. intros [= <-]. cbn.
      intros Hd%list_elem_of_In. apply in_flat_map in Hd as (m & _ & Hd).
      by eapply match_diagnostic_range, list_elem_of_In.
  - intros text rawResponse i issue Hdec Hi Hcol.
    unfold ParseAIResponse. rewrite Hdec.
    eexists _, (issue_diagnostic issue). split; [reflexivity|]. split.
    + cbn. by apply lookup_map.
    + unfold issue_diagnostic. cbn.
      by destruct (Z.eqb_spec (raw.Column issue) 0); [lia|].
Qed.

(** The theorem at an issue with line 3 and column 7. *)
Lemma C10_diagnostic_range_column7 :
  Decode.Unmarshal (extractJSON column7_reply)
    = inl {| raw.Overview := "ok"; raw.Issues := [column7_issue] |}
  /\ one_column_range (issue_diagnostic column7_issue)
  /\ exists r d,
      ParseAIResponse column7_reply = (Some r, None)
      /\ models.Diagnostics r !! 0 = Some d
      /\ models.Range' (models.Location' d) =
         {| models.Start := {| models.Line := 3; models.Column := 7 |};
            models.End' := {| models.Line := 3; models.Column := 8 |} |}.
Proof.
  assert (H : Decode.Unmarshal (extractJSON column7_reply)
    = inl {| raw.Overview := "ok"; raw.Issues := [column7_issue] |})
    by (vm_compute; reflexivity).
  assert (HP : ParseAIResponse column7_reply =
    (Some {| models.Overview := "ok";
             models.Diagnostics := [issue_diagnostic column7_issue] |}, None)).
  { unfold ParseAIResponse. by rewrite H. }
  split; [exact H|]. split.
  - apply (proj1 C10_diagnostic_range column7_reply _ _ HP). by left.
  - exact (proj2 C10_diagnostic_range column7_reply _ 0 column7_issue H eq_refl
             eq_refl).
Defined.

(** * Further properties *)

(** ** More on strings *)

Lemma append_length (a b : string) :
  String.length (a +:+ b) = String.length a + String.length b.
Proof.
  induction a as [|x a IH]; [reflexivity|].
  change (S (String.length (a +:+ b)) = S (String.length a + String.length b)).
  by rewrite IH.
Qed.

Lemma append_inv_head (a b c : string) : a +:+ b = a +:+ c -> b = c.
Proof.
  induction a as [|x a IH]; [done|].
  change (String x (a +:+ b) = String x (a +:+ c) -> b = c).
  intros [= H]. by apply IH.
Qed.

Lemma string_all_app (p : ascii -> bool) (a b : string) :
  string_all p (a +:+ b) = string_all p a && string_all p b.
Proof.
  induction a as [|x a IH]; [reflexivity|].
  change (p x && string_all p (a +:+ b) = p x && string_all p a && string_all p b).
  rewrite IH. by rewrite andb_assoc.
Qed.

Lemma string_rev_append_spec (s acc : string) :
  string_rev_append s acc = string_rev s +:+ acc.
Proof.
  unfold string_rev. revert acc.
  induction s as [|x s IH]; intros acc; [reflexivity|].
  cbn [string_rev_append]. rewrite IH, (IH (String x "")).
  by rewrite append_assoc.
Qed.

Lemma string_rev_cons (x : ascii) (s : string) :
  string_rev (String x s) = string_rev s +:+ String x "".
Proof. unfold string_rev at 1. cbn [string_rev_append]. apply string_rev_append_spec. Qed.

Lemma string_rev_app (a b : string) :
  string_rev (a +:+ b) = string_rev b +:+ string_rev a.
Proof.
  induction a as [|x a IH].
  - change ("" +:+ b) with b. by rewrite append_empty_r.
  - change (String x a +:+ b) with (String x (a +:+ b)).
    rewrite !string_rev_cons, IH. by rewrite append_assoc.
Qed.

Lemma string_rev_involutive (s : string) : string_rev (string_rev s) = s.
Proof.
  induction s as [|x s IH]; [reflexivity|].
  rewrite string_rev_cons, string_rev_app, IH. reflexivity.
Qed.


(** ** [TrimSpace] *)

(** One step of [trim_front]: it stops, or goes on behind a white space rune. *)
Lemma trim_front_step (back : bool) (s : string) :
  GoStrings.trim_front back s = s
  \/ exists x s', s = x +:+ s' /\ x <> ""
       /\ GoStrings.trim_front back s = GoStrings.trim_front back s'.
Proof.
  destruct s as [|c1 s1]; [by left|]. cbn [GoStrings.trim_front].
  destruct (GoStrings.is_ascii_space c1).
  { right. by exists (String c1 ""), s1. }
  destruct s1 as [|c2 s2]; [by left|].
  destruct (if back then _ else _).
  { right. by exists (String c1 (String c2 "")), s2. }
  destruct s2 as [|c3 s3]; [by left|].
  destruct (if back then _ else _); [|by left].
  right. by exists (String c1 (String c2 (String c3 ""))), s3.
Qed.

Lemma string_length_induction (P : string -> Prop) :
  (forall s, (forall s', String.length s' < String.length s -> P s') -> P s) ->
  forall s, P s.
Proof.
  intros H s. remember (String.length s) as n eqn:Hn.
  revert s Hn. induction (lt_wf n) as [n _ IH]. intros s ->.
  apply H. intros s' Hlt. by eapply IH.
Qed.

Lemma nonempty_length (x : string) : x <> "" -> 0 < String.length x.
Proof. destruct x; [done|]. cbn. lia. Qed.

Lemma trim_front_suffix (back : bool) (s : string) :
  exists x, s = x +:+ GoStrings.trim_front back s.
Proof.
  induction s as [s IH] using string_length_induction.
  destruct (trim_front_step back s) as [->|(x & s' & -> & Hx & ->)].
  - by exists "".
  - destruct (IH s') as [y Hy].
    { rewrite append_length. apply nonempty_length in Hx. lia. }
    exists (x +:+ y). by rewrite append_assoc, <- Hy.
Qed.

Lemma trim_front_length (back : bool) (s : string) :
  String.length (GoStrings.trim_front back s) <= String.length s.
Proof.
  destruct (trim_front_suffix back s) as [x Hx].
  rewrite Hx at 2. rewrite append_length. lia.
Qed.

Lemma trim_front_idempotent (back : bool) (s : string) :
  GoStrings.trim_front back (GoStrings.trim_front back s)
  = GoStrings.trim_front back s.
Proof.
  induction s as [s IH] using string_length_induction.
  destruct (trim_front_step back s) as [H|(x & s' & -> & Hx & H)].
  - by rewrite !H.
  - rewrite H. apply IH.
    rewrite append_length. apply nonempty_length in Hx. lia.
Qed.

Lemma trim_front_unfold (back : bool) (s : string) :
  GoStrings.trim_front back s =
  match s with
  | EmptyString => s
  | String c1 s1 =>
    if GoStrings.is_ascii_space c1 then GoStrings.trim_front back s1
    else
      match s1 with
      | EmptyString => s
      | String c2 s2 =>
        if (if back then GoStrings.is_space2 c2 c1 else GoStrings.is_space2 c1 c2)
        then GoStrings.trim_front back s2
        else
          match s2 with
          | EmptyString => s
          | String c3 s3 =>
            if (if back then GoStrings.is_space3 c3 c2 c1
                else GoStrings.is_space3 c1 c2 c3)
            then GoStrings.trim_front back s3
            else s
          end
      end
  end.
Proof. by destruct s. Qed.

(** A text that does not start with white space has no prefix that does. *)
Lemma trim_front_prefix (t u : string) :
  GoStrings.trim_front false (t +:+ u) = t +:+ u ->
  GoStrings.trim_front false t = t.
Proof.
  intros H.
  assert (Hlen : forall s, String.length s < String.length (t +:+ u) ->
            GoStrings.trim_front false s <> t +:+ u).
  { intros s Hs Heq. pose proof (trim_front_length false s) as Hl.
    rewrite Heq in Hl. lia. }
  rewrite trim_front_unfold in H. rewrite trim_front_unfold.
  destruct t as [|c1 [|c2 [|c3 t]]]; [done|..]; revert H Hlen;
    [ change (String c1 "" +:+ u) with (String c1 u)
    | change (String c1 (String c2 "") +:+ u) with (String c1 (String c2 u))
    | change (String c1 (String c2 (String c3 t)) +:+ u)
        with (String c1 (String c2 (String c3 (t +:+ u)))) ];
    cbv beta iota; intros H Hlen.
  - destruct (GoStrings.is_ascii_space c1); [|done].
    exfalso. eapply Hlen; [|exact H]. cbn; lia.
  - destruct (GoStrings.is_ascii_space c1).
    { exfalso. eapply Hlen; [|exact H]. cbn; lia. }
    destruct (GoStrings.is_space2 c1 c2); [|done].
    exfalso. eapply Hlen; [|exact H]. cbn; lia.
  - destruct (GoStrings.is_ascii_space c1).
    { exfalso. eapply Hlen; [|exact H]. cbn; lia. }
    destruct (GoStrings.is_space2 c1 c2).
    { exfalso. eapply Hlen; [|exact H]. cbn; lia. }
    destruct (GoStrings.is_space3 c1 c2 c3); [|done].
    exfalso. eapply Hlen; [|exact H]. cbn; lia.
Qed.

Lemma TrimSpace_substring (s : string) :
  exists x y, s = x +:+ GoStrings.TrimSpace s +:+ y.
Proof.
  unfold GoStrings.TrimSpace.
  destruct (trim_front_suffix false s) as [x Hx].
  destruct (trim_front_suffix true (string_rev (GoStrings.trim_front false s)))
    as [y Hy].
  exists x, (string_rev y). rewrite Hx at 1. f_equal.
  rewrite <- string_rev_app, <- Hy. by rewrite string_rev_involutive.
Qed.

Lemma TrimSpace_idempotent (s : string) :
  GoStrings.TrimSpace (GoStrings.TrimSpace s) = GoStrings.TrimSpace s.
Proof.
  unfold GoStrings.TrimSpace.
  set (r := GoStrings.trim_front false s).
  set (q := GoStrings.trim_front true (string_rev r)).
  assert (Hfront : GoStrings.trim_front false (string_rev q) = string_rev q).
  { destruct (trim_front_suffix true (string_rev r)) as [y Hy]. fold q in Hy.
    apply (trim_front_prefix _ (string_rev y)).
    rewrite <- string_rev_app, <- Hy, string_rev_involutive.
    apply trim_front_idempotent. }
  rewrite Hfront, string_rev_involutive. unfold q.
  by rewrite trim_front_idempotent.
Qed.

Lemma TrimSpace_all (p : ascii -> bool) (s : string) :
  string_all p s = true -> string_all p (GoStrings.TrimSpace s) = true.
Proof.
  destruct (TrimSpace_substring s) as (x & y & Hs). rewrite Hs at 1.
  rewrite !string_all_app. by intros [_ [? _]%andb_prop]%andb_prop.
Qed.

(** ** [Split] *)

Lemma split_byte_acc (sep : ascii) (s cur : string) :
  GoStrings.split_byte sep s cur =
  match GoStrings.split_byte sep s "" with
  | p :: ps => (string_rev cur +:+ p) :: ps
  | [] => []
  end.
Proof.
  revert cur. induction s as [|c s IH]; intros cur; cbn [GoStrings.split_byte].
  - change (string_rev "") with "". by rewrite append_empty_r.
  - destruct (Ascii.eqb c sep).
    + change (string_rev "") with "". by rewrite append_empty_r.
    + rewrite (IH (String c cur)), (IH (String c "")).
      destruct (GoStrings.split_byte sep s "") as [|p ps]; [done|].
      rewrite string_rev_cons, append_assoc. reflexivity.
Qed.

Lemma Split_cons (sep c : ascii) (s : string) :
  GoStrings.Split (String c s) sep =
  if Ascii.eqb c sep then "" :: GoStrings.Split s sep
  else match GoStrings.Split s sep with
       | p :: ps => String c p :: ps
       | [] => []
       end.
Proof.
  unfold GoStrings.Split. cbn [GoStrings.split_byte].
  destruct (Ascii.eqb c sep); [reflexivity|].
  by rewrite split_byte_acc.
Qed.

(** No part holds the separator. *)
Lemma Split_parts (sep : ascii) (s : string) :
  Forall (fun part => string_all (fun c => negb (Ascii.eqb c sep)) part = true)
         (GoStrings.Split s sep).
Proof.
  induction s as [|c s IH]; [by repeat constructor|]. rewrite Split_cons.
  destruct (Ascii.eqb c sep) eqn:Hc; [by constructor|].
  destruct (GoStrings.Split s sep) as [|p ps]; [done|].
  inversion_clear IH as [|?? Hp Hps]. constructor; [|done].
  cbn. by rewrite Hc.
Qed.

(** A part without separator in front of a separator is the first part. *)
Lemma Split_app (sep : ascii) (k t : string) :
  string_all (fun c => negb (Ascii.eqb c sep)) k = true ->
  GoStrings.Split (k +:+ String sep t) sep = k :: GoStrings.Split t sep.
Proof.
  induction k as [|c k IH]; intros Hk.
  - change ("" +:+ String sep t) with (String sep t).
    by rewrite Split_cons, Ascii.eqb_refl.
  - cbn in Hk. apply andb_prop in Hk as [Hc Hk]. apply negb_true_iff in Hc.
    change (String c k +:+ String sep t) with (String c (k +:+ String sep t)).
    by rewrite Split_cons, Hc, IH.
Qed.

Lemma Split_single (sep : ascii) (k : string) :
  string_all (fun c => negb (Ascii.eqb c sep)) k = true ->
  GoStrings.Split k sep = [k].
Proof.
  induction k as [|c k IH]; intros Hk; [done|].
  cbn in Hk. apply andb_prop in Hk as [Hc Hk]. apply negb_true_iff in Hc.
  by rewrite Split_cons, Hc, IH.
Qed.

Lemma concat_cons2 (sep x y : string) (l : list string) :
  String.concat sep (x :: y :: l) = x +:+ sep +:+ String.concat sep (y :: l).
Proof. reflexivity. Qed.

(** Splitting what was joined gives the parts back. *)
Lemma Split_concat (sep : ascii) (ks : list string) :
  ks <> [] ->
  Forall (fun k => string_all (fun c => negb (Ascii.eqb c sep)) k = true) ks ->
  GoStrings.Split (String.concat (String sep "") ks) sep = ks.
Proof.
  intros Hne Hall. induction Hall as [|k ks Hk Hks IH]; [done|].
  destruct ks as [|k2 ks].
  - by apply Split_single.
  - rewrite concat_cons2.
    change (String sep "" +:+ String.concat (String sep "") (k2 :: ks))
      with (String sep (String.concat (String sep "") (k2 :: ks))).
    rewrite Split_app by done. by rewrite IH.
Qed.

(** ** The configuration *)

(** X1.  The keys [parseAPIKeys] returns are not empty, are trimmed and hold no
    comma. *)
Theorem X1_parseAPIKeys_well_formed (keys : string) :
  Forall (fun key => key <> "" /\ GoStrings.TrimSpace key = key
            /\ string_all (fun c => negb (Ascii.eqb c ",")) key = true)
         (config.parseAPIKeys keys).
Proof.
  apply Forall_forall. intros key.
  unfold config.parseAPIKeys. destruct (String.eqb keys ""); [by intros ?%elem_of_nil|].
  intros Hk%list_elem_of_In. apply in_flat_map in Hk as (part & Hpart & Hk).
  destruct (String.eqb_spec (GoStrings.TrimSpace part) "") as [|Hne]; [done|].
  cbn in Hk. destruct Hk as [<-|[]].
  split; [done|]. split; [apply TrimSpace_idempotent|].
  apply TrimSpace_all.
  pose proof (Split_parts "," keys) as Hall.
  by eapply Forall_forall in Hall; [|apply list_elem_of_In].
Qed.

(** X2.  Keys that are not empty, are trimmed and hold no comma come back from
    their list written with commas. *)
Theorem X2_parseAPIKeys_of_joined (ks : list string) :
  Forall (fun key => key <> "" /\ GoStrings.TrimSpace key = key
            /\ string_all (fun c => negb (Ascii.eqb c ",")) key = true) ks ->
  config.parseAPIKeys (String.concat "," ks) = ks.
Proof.
  intros Hall. destruct ks as [|k ks]; [done|].
  unfold config.parseAPIKeys.
  assert (Hne : String.concat "," (k :: ks) <> "").
  { inversion_clear Hall as [|?? [Hk _] _]. destruct ks; [done|].
    rewrite concat_cons2. by destruct k. }
  apply String.eqb_neq in Hne. rewrite Hne.
  rewrite Split_concat;
    [|done|eapply Forall_impl; [exact Hall|]; by intros ? (_ & _ & ?)].
  clear Hne. induction Hall as [|x xs (Hx & Ht & _) _ IH]; [done|].
  cbn [flat_map]. rewrite Ht.
  apply String.eqb_neq in Hx. rewrite Hx. cbn. by rewrite IH.
Qed.

Lemma X2_parseAPIKeys_of_joined_witness :
  Forall (fun key => key <> "" /\ GoStrings.TrimSpace key = key
            /\ string_all (fun c => negb (Ascii.eqb c ",")) key = true)
         ["key-1"; "key 2"]
  /\ config.parseAPIKeys "key-1,key 2" = ["key-1"; "key 2"].
Proof.
  assert (H : Forall (fun key => key <> "" /\ GoStrings.TrimSpace key = key
                        /\ string_all (fun c => negb (Ascii.eqb c ",")) key = true)
                ["key-1"; "key 2"])
    by (repeat constructor; (discriminate || (vm_compute; reflexivity))).
  split; [exact H|].
  exact (X2_parseAPIKeys_of_joined ["key-1"; "key 2"] H).
Defined.

Lemma getEnv_empty_default (env : gmap string string) (key : string) :
  config.getEnv env key "" = config.Getenv env key.
Proof.
  unfold config.getEnv. by destruct (String.eqb_spec (config.Getenv env key) "").
Qed.

Lemma getEnv_default_nonempty (env : gmap string string) (key d : string) :
  d <> "" -> config.getEnv env key d <> "".
Proof.
  unfold config.getEnv. by destruct (String.eqb_spec (config.Getenv env key) "").
Qed.

Lemma parseAPIKeys_nil (keys : string) :
  config.parseAPIKeys keys = [] <->
  Forall (fun part => GoStrings.TrimSpace part = "") (GoStrings.Split keys ",").
Proof.
  unfold config.parseAPIKeys. destruct (String.eqb_spec keys "") as [->|_].
  { split; [|done]. intros _. by repeat constructor. }
  induction (GoStrings.Split keys ",") as [|part parts IH]; [done|].
  cbn [flat_map]. rewrite Forall_cons.
  destruct (String.eqb_spec (GoStrings.TrimSpace part) "") as [->|Hne]; cbn.
  - rewrite IH. split; [by split|by intros [_ ?]].
  - split; [done|]. by intros [? _].
Qed.

(** X3.  The configuration read from the environment is refused for want of an
    API key exactly when every part of API_KEYS between commas is blank;
    the variable not set, or empty, is one such case. *)
Theorem X3_Validate_no_api_key (env : gmap string string) :
  config.Validate (config.Load env) = Some config.err_no_api_key <->
  Forall (fun part => GoStrings.TrimSpace part = "")
         (GoStrings.Split (config.Getenv env "API_KEYS") ",").
Proof.
  rewrite <- parseAPIKeys_nil, <- getEnv_empty_default.
  unfold config.Validate. cbn [config.Load config.APIKeys].
  destruct (config.parseAPIKeys _) as [|k ks]; [done|].
  cbn [length Nat.eqb]. split; [|done].
  by destruct (_ && _).
Qed.

(** A configuration that passes [Validate] has a key for a client and a
    key for a provider. *)
Lemma Validate_accepts (c : config.Config) :
  config.Validate c = None <->
  config.APIKeys c <> []
  /\ (config.GoogleAPIKey c <> "" \/ config.OpenAIAPIKey c <> ""
      \/ config.AnthropicAPIKey c <> "").
Proof.
  unfold config.Validate. destruct (config.APIKeys c) as [|k ks]; cbn [length Nat.eqb].
  { split; [done|]. by intros [? _]. }
  destruct (String.eqb_spec (config.GoogleAPIKey c) "") as [->|Hg];
    destruct (String.eqb_spec (config.OpenAIAPIKey c) "") as [->|Ho];
    destruct (String.eqb_spec (config.AnthropicAPIKey c) "") as [->|Ha];
    cbn [andb]; intuition congruence.
Qed.

Lemma Getenv_insert_empty (env : gmap string string) (k key : string) :
  config.Getenv (<[k := ""]> env) key = config.Getenv (delete k env) key.
Proof.
  unfold config.Getenv. destruct (decide (k = key)) as [->|Hne].
  - by rewrite lookup_insert_eq, lookup_delete_eq.
  - by rewrite lookup_insert_ne, lookup_delete_ne.
Qed.

(** X4.  A variable set to the empty string counts as a variable that is not
    set; and the port, the default provider and the default model of a
    configuration read from the environment are never empty. *)
Theorem X4_Load_empty_is_unset (env : gmap string string) (k : string) :
  config.Load (<[k := ""]> env) = config.Load (delete k env)
  /\ config.Port (config.Load env) <> ""
  /\ config.DefaultProvider (config.Load env) <> ""
  /\ config.DefaultModel (config.Load env) <> "".
Proof.
  split.
  - unfold config.Load, config.getEnv. by rewrite !Getenv_insert_empty.
  - cbn. by repeat split; apply getEnv_default_nonempty.
Qed.

(** ** The start of the server *)


(** The registry [main] builds, name by name. *)
Lemma register_providers_lookup (w : Main.World) (cfg : config.Config)
    (name : string) :
  providers (Main.register_providers w cfg) !! name =
  if decide (name = "anthropic" /\ config.AnthropicAPIKey cfg <> "") then
    Some (Main.OfClaude (Claude.NewClaudeProvider (Main.http_Client w)
                           (config.AnthropicAPIKey cfg)))
  else if decide (name = "openai" /\ config.OpenAIAPIKey cfg <> "") then
    Some (Main.OfOpenAI (OpenAI.NewOpenAIProvider (Main.openai_NewClient w)
                           (config.OpenAIAPIKey cfg)))
  else if decide (name = "google" /\ config.GoogleAPIKey cfg <> "") then
    match Main.genai_NewClient w (config.GoogleAPIKey cfg) with
    | inl client => Some (Main.OfGemini {| Gemini.client := client |})
    | inr _ => None
    end
  else None.
Proof.
  unfold Main.register_providers, Gemini.NewGeminiProvider.
  destruct (String.eqb_spec (config.AnthropicAPIKey cfg) "") as [Ha|Ha];
    destruct (String.eqb_spec (config.OpenAIAPIKey cfg) "") as [Ho|Ho];
    destruct (String.eqb_spec (config.GoogleAPIKey cfg) "") as [Hg|Hg];
    cbn [negb];
    destruct (Main.genai_NewClient w (config.GoogleAPIKey cfg)) as [client|err];
    repeat case_decide; destruct_and?; subst; try done;
    unfold Register, NewRegistry; cbn [providers];
    rewrite ?lookup_insert_eq, ?lookup_insert_ne, ?lookup_empty by done;
    try done;
    repeat match goal with
    | |- context [<[?k := _]> _ !! ?n] =>
      destruct (decide (k = n)) as [<-|?];
      [rewrite lookup_insert_eq|rewrite lookup_insert_ne by done]
    end; rewrite ?lookup_empty; try done; exfalso; tauto.
Qed.

(** X5.  Every provider of the registry [main] builds is registered under the
    name it reports, one of google, openai and anthropic. *)
Theorem X5_registered_under_own_name (w : Main.World) (cfg : config.Config)
    (name : string) (p : Main.AIProvider) :
  Get (Main.register_providers w cfg) name = (Some p, None) ->
  Main.Name p = name /\ name ∈ ["google"; "openai"; "anthropic"].
Proof.
  unfold Get. rewrite register_providers_lookup.
  repeat case_decide; destruct_and?; subst.
  - intros [= <-]. split; [done|]. set_solver.
  - intros [= <-]. split; [done|]. set_solver.
  - destruct (Main.genai_NewClient w _); [|done].
    intros [= <-]. split; [done|]. set_solver.
  - done.
Qed.

Lemma X5_registered_under_own_name_witness :
  Get (Main.register_providers offline_world (config.Load (Main.environ offline_world)))
      "openai"
  = (Some (Main.OfOpenAI (OpenAI.NewOpenAIProvider
             (Main.openai_NewClient offline_world) "sk-1")), None)
  /\ Main.Name (Main.OfOpenAI (OpenAI.NewOpenAIProvider
                  (Main.openai_NewClient offline_world) "sk-1")) = "openai".
Proof.
  assert (H : Get (Main.register_providers offline_world
                     (config.Load (Main.environ offline_world))) "openai"
    = (Some (Main.OfOpenAI (OpenAI.NewOpenAIProvider
               (Main.openai_NewClient offline_world) "sk-1")), None))
    by (vm_compute; reflexivity).
  split; [exact H|].
  exact (proj1 (X5_registered_under_own_name _ _ _ _ H)).
Defined.

Lemma Get_is_Some {A : Type} (r : Registry A) (name : string) :
  (exists p, Get r name = (Some p, None)) <-> is_Some (providers r !! name).
Proof.
  unfold Get. destruct (providers r !! name) as [p|].
  - split; [by eexists|]. intros _. by exists p.
  - split; [by intros [p ?]|]. by intros [p ?].
Qed.

(** X6.  Which providers [main] registers: OpenAI and Anthropic exactly when
    their key is set, Google exactly when its key is set and its client
    could be created. *)
Theorem X6_register_providers_conditions (w : Main.World) (cfg : config.Config) :
  let r := Main.register_providers w cfg in
  ((exists p, Get r "openai" = (Some p, None)) <-> config.OpenAIAPIKey cfg <> "")
  /\ ((exists p, Get r "anthropic" = (Some p, None))
      <-> config.AnthropicAPIKey cfg <> "")
  /\ ((exists p, Get r "google" = (Some p, None))
      <-> config.GoogleAPIKey cfg <> ""
          /\ exists client,
               Main.genai_NewClient w (config.GoogleAPIKey cfg) = inl client).
Proof.
  cbv zeta. rewrite !Get_is_Some, !register_providers_lookup.
  split; [|split].
  - repeat case_decide; destruct_and?; try done.
    split; [by intros []|]. intros Hk. exfalso. tauto.
  - repeat case_decide; destruct_and?; try done.
    split; [by intros []|]. intros Hk. exfalso. tauto.
  - repeat case_decide; destruct_and?; try done.
    + destruct (Main.genai_NewClient w _) as [client|err].
      * split; [|done]. intros _. split; [done|]. by exists client.
      * split; [by intros []|]. by intros [_ [client ?]].
    + split; [by intros []|]. intros [Hk _]. exfalso. tauto.
Qed.

Lemma register_providers_empty (w : Main.World) (cfg : config.Config) :
  size (providers (Main.register_providers w cfg)) = 0 <->
  config.OpenAIAPIKey cfg = "" /\ config.AnthropicAPIKey cfg = ""
  /\ (config.GoogleAPIKey cfg = ""
      \/ exists err, Main.genai_NewClient w (config.GoogleAPIKey cfg) = inr err).
Proof.
  rewrite map_size_empty_iff, map_empty.
  split.
  - intros H.
    assert (Ha : config.AnthropicAPIKey cfg = "").
    { destruct (String.eqb_spec (config.AnthropicAPIKey cfg) "") as [|Hne]; [done|].
      specialize (H "anthropic"). rewrite register_providers_lookup in H.
      by rewrite decide_True in H. }
    assert (Ho : config.OpenAIAPIKey cfg = "").
    { destruct (String.eqb_spec (config.OpenAIAPIKey cfg) "") as [|Hne]; [done|].
      specialize (H "openai"). rewrite register_providers_lookup in H.
      rewrite decide_False in H by (by intros [? _]).
      by rewrite decide_True in H. }
    split; [done|]. split; [done|].
    destruct (String.eqb_spec (config.GoogleAPIKey cfg) "") as [|Hne]; [by left|].
    right. specialize (H "google"). rewrite register_providers_lookup in H.
    rewrite !decide_False in H by (by intros [? _]).
    rewrite decide_True in H by done.
    destruct (Main.genai_NewClient w _) as [|err]; [done|]. by exists err.
  - intros (Ho & Ha & Hg) name. rewrite register_providers_lookup.
    repeat case_decide; destruct_and?; try done.
    destruct Hg as [Hg|[err ->]]; done.
Qed.

(** X7.  [main] stops for want of a provider exactly when the configuration
    is valid, no key is set for OpenAI and Anthropic, and the client of
    Gemini could not be created. *)
Theorem X7_main_without_provider (w : Main.World) :
  let cfg := config.Load (Main.environ w) in
  Main.main w = Main.Fatal "No AI providers configured. Please set at least one API key."
  <->
  config.Validate cfg = None
  /\ config.OpenAIAPIKey cfg = "" /\ config.AnthropicAPIKey cfg = ""
  /\ exists err, Main.genai_NewClient w (config.GoogleAPIKey cfg) = inr err.
Proof.
  cbv zeta. unfold Main.main.
  destruct (config.Validate _) as [err|] eqn:Hv.
  { split; [|by intros [? _]]. unfold Sprintf1.
    change ("Configuration error: " +:+ err +:+ "")
      with (String "C" ("onfiguration error: " +:+ err +:+ "")).
    discriminate. }
  apply Validate_accepts in Hv as [_ Hkey].
  destruct (Nat.eqb_spec (size (providers (Main.register_providers w
              (config.Load (Main.environ w))))) 0) as [Hs|Hs];
    rewrite register_providers_empty in Hs.
  - split; [|done]. intros _. destruct Hs as (Ho & Ha & Hg).
    split; [done|]. split; [done|]. split; [done|].
    destruct Hg as [Hg|Hg]; [|done]. exfalso. tauto.
  - split; [done|]. intros (_ & Ho & Ha & Hg). exfalso. apply Hs. eauto.
Qed.

(** X8.  When [main] reaches the server, the configuration is valid, the
    address is a colon followed by the port, which is not empty, and the
    registry holds a provider. *)
Theorem X8_main_serves (w : Main.World) (r : Registry Main.AIProvider)
    (addr : string) :
  Main.main w = Main.Serve r addr ->
  let cfg := config.Load (Main.environ w) in
  config.Validate cfg = None
  /\ r = Main.register_providers w cfg
  /\ addr = ":" +:+ config.Port cfg /\ config.Port cfg <> ""
  /\ exists name p, Get r name = (Some p, None).
Proof.
  cbv zeta. unfold Main.main.
  destruct (config.Validate _) as [err|] eqn:Hv; [done|].
  destruct (Nat.eqb_spec (size (providers (Main.register_providers w
              (config.Load (Main.environ w))))) 0) as [Hs|Hs]; [done|].
  intros [= <- <-]. split; [done|]. split; [done|].
  split; [unfold Sprintf1; by rewrite append_empty_r|].
  split; [by apply getEnv_default_nonempty|].
  rewrite map_size_empty_iff in Hs.
  apply map_choose in Hs as (name & p & Hp).
  exists name, p. unfold Get. by rewrite Hp.
Qed.

Lemma X8_main_serves_witness :
  Main.main offline_world
  = Main.Serve (Main.register_providers offline_world
                  (config.Load (Main.environ offline_world))) ":8080"
  /\ ":8080" = ":" +:+ config.Port (config.Load (Main.environ offline_world)).
Proof.
  assert (H : Main.main offline_world
    = Main.Serve (Main.register_providers offline_world
                    (config.Load (Main.environ offline_world))) ":8080")
    by (vm_compute; reflexivity).
  split; [exact H|].
  exact (proj1 (proj2 (proj2 (X8_main_serves _ _ _ H)))).
Defined.

(** ** The three providers *)

Lemma ParseAIResponse_succeeds (text : string) :
  exists r, ParseAIResponse text = (Some r, None).
Proof.
  unfold ParseAIResponse. destruct (Decode.Unmarshal _); [by eexists|].
  apply parseUnstructuredResponse_succeeds.
Qed.

(** The loop over the parts puts the text parts behind what it has,
    and leaves out the parts of another kind. *)
Lemma parts_text_acc (parts : list genai.Part) (responseText : string) :
  Gemini.parts_text parts responseText
  = responseText +:+ String.concat "" (part_texts parts).
Proof.
  revert responseText. induction parts as [|[txt|] parts IH]; intros acc.
  - cbn. by rewrite append_empty_r.
  - change (part_texts (genai.Text txt :: parts)) with (txt :: part_texts parts).
    cbn [Gemini.parts_text].
    rewrite IH, concat_empty_cons'. by rewrite append_assoc.
  - apply IH.
Qed.

(** X9.  A review that returns gives a response and no error, or an error and
    no response. *)
Theorem X9_Review_response_or_error (w : Main.World) (p : Main.AIProvider)
    (request : models.ReviewRequest)
    (resp : option models.AIProviderResponse) (err : option error) :
  Main.Review w p request = Return (resp, err) ->
  (is_Some resp /\ err = None) \/ (resp = None /\ is_Some err).
Proof.
  assert (Hparse : forall text,
            ParseAIResponse text = (resp, err) -> is_Some resp /\ err = None).
  { intros text H. destruct (ParseAIResponse_succeeds text) as [r Hr].
    rewrite Hr in H. injection H as <- <-. by split. }
  destruct p as [g|o|c]; unfold Main.Review.
  - unfold Gemini.Review.
    destruct (genai.GenerateContent _ _ _) as [r|e]; [|intros [= <- <-]; by right].
    destruct (genai.Candidates r) as [|[cand|] ?];
      [intros [= <- <-]; by right| |done].
    destruct (genai.Content' cand); [|done].
    intros [= H]. left. by eapply Hparse.
  - unfold OpenAI.Review.
    destruct (openai.CreateChatCompletion _ _) as [r|e]; [|intros [= <- <-]; by right].
    destruct (openai.Choices r) as [|choice ?]; [intros [= <- <-]; by right|].
    intros [= H]. left. by eapply Hparse.
  - unfold Claude.Review.
    destruct (Claude.Marshal _ _) as [jsonData|e]; [|intros [= <- <-]; by right].
    destruct (http.Do _ _) as [r|e]; [|intros [= <- <-]; by right].
    destruct (http.ReadAll r) as [body|e]; [|intros [= <- <-]; by right].
    destruct (negb _); [intros [= <- <-]; by right|].
    destruct (Claude.Unmarshal body) as [cr|e]; [|intros [= <- <-]; by right].
    destruct (Claude.Error cr); [intros [= <- <-]; by right|].
    destruct (Claude.Content' cr) as [|block ?]; [intros [= <- <-]; by right|].
    intros [= H]. left. by eapply Hparse.
Qed.

Lemma X9_Review_response_or_error_witness :
  Main.Review offline_world (Main.OfClaude (claude_replying 200 claude_body))
              example_request
  = Return (Some fallback_response, None)
  /\ ((is_Some (Some fallback_response) /\ @None error = None)
      \/ (Some fallback_response = None /\ is_Some (@None error))).
Proof.
  assert (H : Main.Review offline_world
                (Main.OfClaude (claude_replying 200 claude_body)) example_request
              = Return (Some fallback_response, None))
    by (vm_compute; reflexivity).
  split; [exact H|].
  exact (X9_Review_response_or_error _ _ _ _ _ H).
Defined.

(** X10.  The review of Gemini ends in a run-time panic exactly when the call
    of the client succeeds with a response that has a first candidate, and
    that candidate is nil or its content is nil: the expression
    [resp.Candidates[0].Content.Parts] follows both pointers unchecked. *)
Theorem X10_Review_panics (g : Gemini.GeminiProvider)
    (request : models.ReviewRequest) :
  Gemini.Review g request = Panic <->
  exists resp rest,
    genai.GenerateContent (Gemini.client g) (gemini_model request)
      (gemini_prompt request) = inl resp
    /\ (genai.Candidates resp = None :: rest
        \/ exists candidate,
             genai.Candidates resp = Some candidate :: rest
             /\ genai.Content' candidate = None).
Proof.
  unfold Gemini.Review. fold (gemini_model request). fold (gemini_prompt request).
  destruct (genai.GenerateContent _ _ _) as [r|e] eqn:Hcall.
  - destruct (genai.Candidates r) as [|[cand|] rest] eqn:Hc.
    + split; [done|]. intros (? & ? & [= <-] & [Hc'|(? & Hc' & _)]);
        by rewrite Hc in Hc'.
    + destruct (genai.Content' cand) eqn:Hcontent.
      * split; [done|]. intros (? & ? & [= <-] & [Hc'|(? & Hc' & Hn)]);
          rewrite Hc in Hc'; [done|].
        injection Hc' as <- <-. by rewrite Hcontent in Hn.
      * split; [|done]. intros _. exists r, rest. split; [done|].
        right. by exists cand.
    + split; [|done]. intros _. exists r, rest. split; [done|]. by left.
  - split; [done|]. by intros (? & ? & [=] & _).
Qed.

(** X11.  The review of Gemini reads the first candidate only, and in it the
    text parts: the result is the parse of these texts put together. *)
Theorem X11_Gemini_Review_first_candidate (g : Gemini.GeminiProvider)
    (request : models.ReviewRequest) (resp : genai.GenerateContentResponse)
    (candidate : genai.Candidate) (rest : list (option genai.Candidate))
    (content : genai.Content) :
  genai.GenerateContent (Gemini.client g) (gemini_model request)
    (gemini_prompt request) = inl resp ->
  genai.Candidates resp = Some candidate :: rest ->
  genai.Content' candidate = Some content ->
  Gemini.Review g request
  = Return (ParseAIResponse (String.concat "" (part_texts (genai.Parts content)))).
Proof.
  intros Hcall Hc Hcontent. unfold Gemini.Review.
  fold (gemini_model request). fold (gemini_prompt request).
  rewrite Hcall, Hc, Hcontent. by rewrite parts_text_acc.
Qed.

Lemma X11_Gemini_Review_first_candidate_witness :
  genai.GenerateContent (Gemini.client (gemini_replying two_candidates))
    (gemini_model example_request) (gemini_prompt example_request)
  = inl {| genai.Candidates := two_candidates |}
  /\ Gemini.Review (gemini_replying two_candidates) example_request
     = Return (ParseAIResponse fallback_reply).
Proof.
  split; [reflexivity|].
  exact (X11_Gemini_Review_first_candidate (gemini_replying two_candidates)
           example_request _ _ _ _ eq_refl eq_refl eq_refl).
Defined.

(** X12.  The review of Claude gives a response in one case only: the body of
    the request could be encoded, the request, a POST to the messages
    endpoint with the key of the provider, was answered with status 200,
    and the answer decodes to a response without error object and with a
    first block; the response is then the parse of the text of that
    block. *)
Theorem X12_Claude_Review_response (lib : Claude.JSONLib) (p : Claude.ClaudeProvider)
    (request : models.ReviewRequest) (r : models.AIProviderResponse)
    (err : option error) :
  Claude.Review lib p request = Return (Some r, err) ->
  exists jsonData resp body claudeResp block rest,
    Claude.Marshal lib (claude_request request) = inl jsonData
    /\ http.Do (Claude.httpClient p) (claude_http_request p jsonData) = inl resp
    /\ http.StatusCode resp = 200%Z
    /\ http.ReadAll resp = inl body
    /\ Claude.Unmarshal body = inl claudeResp
    /\ Claude.Error claudeResp = None
    /\ Claude.Content' claudeResp = block :: rest
    /\ ParseAIResponse (Claude.Text block) = (Some r, err).
Proof.
  unfold Claude.Review. fold (claude_request request).
  destruct (Claude.Marshal _ _) as [jsonData|e] eqn:Hm; [|done].
  fold (claude_http_request p jsonData).
  destruct (http.Do _ _) as [resp|e] eqn:Hdo; [|done].
  destruct (http.ReadAll resp) as [body|e] eqn:Hread; [|done].
  destruct (Z.eqb_spec (http.StatusCode resp) http.StatusOK) as [Hs|Hs]; [|done].
  cbn [negb].
  destruct (Claude.Unmarshal body) as [cr|e] eqn:Hu; [|done].
  destruct (Claude.Error cr) eqn:He; [done|].
  destruct (Claude.Content' cr) as [|block rest] eqn:Hc; [done|].
  intros [= H]. by exists jsonData, resp, body, cr, block, rest.
Qed.

Lemma X12_Claude_Review_response_witness :
  Claude.Review (Main.json offline_world) (claude_replying 200 claude_body)
    example_request
  = Return (Some fallback_response, None)
  /\ exists jsonData resp body claudeResp block rest,
    Claude.Marshal (Main.json offline_world) (claude_request example_request)
      = inl jsonData
    /\ http.Do (Claude.httpClient (claude_replying 200 claude_body))
         (claude_http_request (claude_replying 200 claude_body) jsonData) = inl resp
    /\ http.StatusCode resp = 200%Z
    /\ http.ReadAll resp = inl body
    /\ Claude.Unmarshal body = inl claudeResp
    /\ Claude.Error claudeResp = None
    /\ Claude.Content' claudeResp = block :: rest
    /\ ParseAIResponse (Claude.Text block) = (Some fallback_response, None).
Proof.
  assert (H : Claude.Review (Main.json offline_world)
                (claude_replying 200 claude_body) example_request
              = Return (Some fallback_response, None))
    by (vm_compute; reflexivity).
  split; [exact H|].
  exact (X12_Claude_Review_response _ _ _ _ _ H).
Defined.

(** X13.  With no model in the request, each provider asks for a model of its
    list of supported models. *)
Theorem X13_default_model_supported (request : models.ReviewRequest) :
  models.AIModel request = "" ->
  (exists model,
      Gemini.Review gemini_echo request
      = Return (None, Some ("failed to generate content: " +:+ model))
      /\ model ∈ Gemini.SupportedModels gemini_echo)
  /\ (exists model,
      OpenAI.Review openai_echo request
      = Return (None, Some ("failed to create chat completion: " +:+ model))
      /\ model ∈ OpenAI.SupportedModels openai_echo)
  /\ (forall p, exists model,
      Claude.Review json_echo p request
      = Return (None, Some ("failed to marshal request: " +:+ model))
      /\ model ∈ Claude.SupportedModels p).
Proof.
  intros Hm. split; [|split].
  - exists "gemini-2.0-flash". split; [|set_solver].
    unfold Gemini.Review. rewrite Hm. cbn. unfold Sprintf1.
    by rewrite append_empty_r.
  - exists "gpt-4o". split; [|set_solver].
    unfold OpenAI.Review. rewrite Hm. cbn. unfold Sprintf1.
    by rewrite append_empty_r.
  - intros p. exists "claude-3-5-sonnet-20241022". split; [|set_solver].
    unfold Claude.Review. rewrite Hm. cbn. unfold Sprintf1.
    by rewrite append_empty_r.
Qed.

Lemma X13_default_model_supported_witness :
  models.AIModel example_request = ""
  /\ exists model,
      Gemini.Review gemini_echo example_request
      = Return (None, Some ("failed to generate content: " +:+ model))
      /\ model ∈ Gemini.SupportedModels gemini_echo.
Proof.
  split; [reflexivity|].
  exact (proj1 (X13_default_model_supported example_request eq_refl)).
Defined.

(** ** The registry, whatever was registered *)


Lemma registered_app {A : Type} (r : Registry A) (regs1 regs2 : list (string * A)) :
  registered r (regs1 ++ regs2) = registered (registered r regs1) regs2.
Proof. apply foldl_app. Qed.

(** X14.  [Get] returns the provider of the last registration under the name,
    whatever was registered before it, and under other names after it. *)
Theorem X14_Get_last_registration {A : Type} (r : Registry A)
    (regs1 regs2 : list (string * A)) (name : string) (p : A) :
  name ∉ regs2.*1 ->
  Get (registered r (regs1 ++ (name, p) :: regs2)) name = (Some p, None).
Proof.
  intros Hn. rewrite registered_app.
  change (registered (registered r regs1) ((name, p) :: regs2))
    with (registered (Register (registered r regs1) name p) regs2).
  unfold Get. rewrite registered_lookup by done.
  cbn. by rewrite lookup_insert_eq.
Qed.

Lemma X14_Get_last_registration_witness :
("openai" ∉ [("google", 3)].*1)
  /\ Get (registered NewRegistry
           ([("openai", 1); ("google", 2)] ++ ("openai", 4) :: [("google", 3)]))
         "openai" = (Some 4, None).
Proof.
  assert (H : "openai" ∉ [("google", 3)].*1).
  { cbn. intros H. apply elem_of_cons in H as [H|H]; [discriminate H|].
    by apply elem_of_nil in H. }
  split; [exact H|].
  exact (X14_Get_last_registration NewRegistry [("openai", 1); ("google", 2)]
           [("google", 3)] "openai" 4 H).
Defined.

Lemma registered_is_Some {A : Type} (regs : list (string * A)) (r : Registry A)
    (name : string) :
  is_Some (providers (registered r regs) !! name)
  <-> name ∈ regs.*1 \/ is_Some (providers r !! name).
Proof.
  revert r. induction regs as [|[n p] regs IH]; intros r.
  - cbn. split; [by right|]. intros [H|H]; [by apply elem_of_nil in H|done].
  - change (registered r ((n, p) :: regs)) with (registered (Register r n p) regs).
    rewrite IH. cbn. rewrite elem_of_cons.
    destruct (decide (n = name)) as [->|Hne].
    + rewrite lookup_insert_eq. split; [by intros _; left; left|].
      intros _. right. by eexists.
    + rewrite lookup_insert_ne by done. split; [tauto|]. intros [[?|?]|?]; [done|tauto..].
Qed.

(** X16.  After any registrations in a new registry, the slices [List] may
    return are the arrangements of the names used, each taken once. *)
Theorem X16_List_registered {A : Type} (regs : list (string * A)) (names : list string) :
  List (registered NewRegistry regs) names <-> names ≡ₚ remove_dups regs.*1.
Proof.
  unfold List.
  assert (Hp : (map_to_list (providers (registered (@NewRegistry A) regs))).*1
               ≡ₚ remove_dups regs.*1).
  { apply NoDup_Permutation;
      [apply NoDup_fst_map_to_list|apply NoDup_remove_dups|].
    intros name. rewrite elem_of_remove_dups.
    rewrite list_elem_of_fmap. split.
    - intros ([n p] & -> & Hnp%elem_of_map_to_list). cbn.
      assert (Hs : is_Some (providers (registered (@NewRegistry A) regs) !! n))
        by (by eexists).
      apply registered_is_Some in Hs as [Hs|Hs]; [done|].
      cbn in Hs. rewrite lookup_empty in Hs. by destruct Hs.
    - intros Hn.
      assert (Hs : is_Some (providers (registered (@NewRegistry A) regs) !! name))
        by (apply registered_is_Some; by left).
      destruct Hs as [p Hp]. exists (name, p). split; [done|].
      by apply elem_of_map_to_list. }
  by rewrite Hp.
Qed.

(** ** The prompts determine what they are built from *)

Lemma append_inv_length (a b x y : string) :
  a +:+ x = b +:+ y -> String.length a = String.length b -> a = b /\ x = y.
Proof.
  revert b. induction a as [|c a IH]; intros [|d b] H Hlen; try done.
  change (String c (a +:+ x) = String d (b +:+ y)) in H.
  injection H as -> H. injection Hlen as Hlen.
  destruct (IH b H Hlen) as [-> ->]. done.
Qed.

Lemma append_inv_tail (a b c : string) : a +:+ c = b +:+ c -> a = b.
Proof.
  intros H. apply (append_inv_length a b c c H).
  apply (f_equal String.length) in H. rewrite !append_length in H. lia.
Qed.

(** X17.  The system prompt determines the language: two languages with the
    same prompt are the same. *)
Theorem X17_GenerateSystemPrompt_injective (a b : string) :
  GenerateSystemPrompt a = GenerateSystemPrompt b -> a = b.
Proof.
  unfold GenerateSystemPrompt. intros H.
  pose proof (f_equal String.length H) as Hlen.
  rewrite !append_length in Hlen.
  apply append_inv_head in H.
  apply append_inv_length in H as [? _]; [done|lia].
Qed.

Lemma X17_GenerateSystemPrompt_injective_witness :
  GenerateSystemPrompt "Go" = GenerateSystemPrompt "Go" /\ "Go" = "Go".
Proof.
  split; [reflexivity|].
  exact (X17_GenerateSystemPrompt_injective "Go" "Go" eq_refl).
Defined.

(** X18.  With the same git information, the user prompt determines the diff. *)
Theorem X18_GenerateUserPrompt_determines_diff (r1 r2 : models.ReviewRequest) :
  models.GitInfo' r1 = models.GitInfo' r2 ->
  GenerateUserPrompt r1 = GenerateUserPrompt r2 ->
  models.GitDiff r1 = models.GitDiff r2.
Proof.
  unfold GenerateUserPrompt. intros ->.
  repeat match goal with
  | |- context [String.concat "" (?a :: ?b :: ?c :: ?d :: ?l)] =>
    change (a :: b :: c :: d :: l) with ([a; b; c] ++ d :: l)
  end.
  rewrite !concat_empty_app, !(concat_empty_cons' (models.GitDiff _)).
  intros H. apply append_inv_head in H. by apply append_inv_tail in H.
Qed.

Lemma X18_GenerateUserPrompt_determines_diff_witness :
  models.GitInfo' example_request = models.GitInfo' example_request
  /\ models.GitDiff example_request = models.GitDiff example_request.
Proof.
  split; [reflexivity|].
  exact (X18_GenerateUserPrompt_determines_diff example_request example_request
           eq_refl eq_refl).
Defined.

(** ** The matcher is sound *)

Lemma star_sound (g : bool) (p : ascii -> bool) (k : cont) (s : string)
    (pos : nat) (cs : caps) (res : caps * nat) :
  star g p k s pos cs = Some res ->
  exists w rest,
    s = w +:+ rest /\ string_all p w = true
    /\ k rest (pos + String.length w) cs = Some res.
Proof.
  revert pos. induction s as [|c s IH]; intros pos H.
  - exists "", "". cbn. rewrite Nat.add_0_r.
    destruct g; cbn in H; [done|]. by destruct (k "" pos cs).
  - assert (Hhere : k (String c s) pos cs = Some res ->
                    exists w rest, String c s = w +:+ rest /\ string_all p w = true
                      /\ k rest (pos + String.length w) cs = Some res).
    { intros Hk. exists "", (String c s). cbn. by rewrite Nat.add_0_r. }
    assert (Hnext : p c = true -> star g p k s (S pos) cs = Some res ->
                    exists w rest, String c s = w +:+ rest /\ string_all p w = true
                      /\ k rest (pos + String.length w) cs = Some res).
    { intros Hc (w & rest & -> & Hw & Hk)%IH. exists (String c w), rest.
      cbn. rewrite Hc, Hw. rewrite <- Nat.add_succ_comm. done. }
    destruct g; simpl in H.
    + destruct (p c) eqn:Hc; [|by apply Hhere].
      assert (star true p k s (S pos) cs = Some res
              \/ k (String c s) pos cs = Some res) as [Hs|Hk]
        by (destruct (star true p k s (S pos) cs); [by left|by right]).
      * by apply Hnext.
      * by apply Hhere.
    + assert (k (String c s) pos cs = Some res
              \/ p c = true /\ star false p k s (S pos) cs = Some res)
        as [Hk|[Hc Hs]].
      { destruct (k (String c s) pos cs); [by left|].
        destruct (p c); [by right|done]. }
      * by apply Hhere.
      * by apply Hnext.
Qed.

Lemma run_sound (r : regex) (k : cont) (s : string) (pos : nat) (cs : caps)
    (res : caps * nat) :
  run r k s pos cs = Some res ->
  exists w rest c,
    s = w +:+ rest /\ matches r w rest pos c
    /\ k rest (pos + String.length w) (c ++ cs) = Some res.
Proof.
  revert k s pos cs. induction r as [|p|a IHa b IHb|a IHa b IHb|g p|n a IHa|];
    intros k s pos cs H; cbn [run] in H.
  - exists "", s, []. cbn. by rewrite Nat.add_0_r.
  - destruct s as [|c s]; [done|]. destruct (p c) eqn:Hc; [|done].
    exists (String c ""), s, []. cbn. rewrite Nat.add_1_r. eauto 10.
  - apply IHa in H as (w1 & rest1 & c1 & -> & Ha & H).
    apply IHb in H as (w2 & rest & c2 & -> & Hb & H).
    exists (w1 +:+ w2), rest, (c2 ++ c1).
    rewrite append_assoc, append_length, Nat.add_assoc, <- app_assoc.
    split; [done|]. split; [|done]. cbn. eauto 10.
  - assert (run a k s pos cs = Some res \/ run b k s pos cs = Some res)
      as [Ha|Hb] by (destruct (run a k s pos cs); [by left|by right]).
    + apply IHa in Ha as (w & rest & c & -> & Hm & Hk).
      exists w, rest, c. cbn. eauto.
    + apply IHb in Hb as (w & rest & c & -> & Hm & Hk).
      exists w, rest, c. cbn. eauto.
  - apply star_sound in H as (w & rest & -> & Hw & Hk).
    exists w, rest, []. cbn. eauto.
  - apply IHa in H as (w & rest & c & -> & Hm & Hk).
    exists w, rest, ((n, (pos, pos + String.length w)) :: c). cbn. eauto 10.
  - destruct s; [|done]. exists "", "", []. cbn. by rewrite Nat.add_0_r.
Qed.

(** A match at the start of [s]: a word in front of the rest of [s]. *)
Lemma match_here_sound (r : regex) (s : string) (cs : caps) (len : nat) :
  match_here r s = Some (cs, len) ->
  exists w rest, s = w +:+ rest /\ matches r w rest 0 cs /\ len = String.length w.
Proof.
  intros (w & rest & c & -> & Hm & [= <- <-])%run_sound.
  exists w, rest. by rewrite app_nil_r.
Qed.

Lemma group_free_caps (r : regex) (w rest : string) (pos : nat) (c : caps) :
  group_free r = true -> matches r w rest pos c -> c = [].
Proof.
  revert w rest pos c. induction r as [|p|a IHa b IHb|a IHa b IHb|g p|n a IHa|];
    intros w rest pos c Hg H; cbn in Hg, H.
  - by destruct H.
  - by destruct H as (? & ? & ? & ?).
  - apply andb_prop in Hg as [Hga Hgb].
    destruct H as (w1 & w2 & c1 & c2 & _ & H1 & H2 & ->).
    by rewrite (IHa _ _ _ _ Hga H1), (IHb _ _ _ _ Hgb H2).
  - apply andb_prop in Hg as [Hga Hgb]. destruct H as [H|H]; eauto.
  - by destruct H.
  - done.
  - by destruct H as (? & ? & ?).
Qed.

Lemma group_free_Str (s : string) : group_free (Str s) = true.
Proof. induction s; [done|]. done. Qed.

Lemma group_free_StrI (s : string) : group_free (StrI s) = true.
Proof. induction s; [done|]. done. Qed.

(** What a literal matches. *)
Lemma matches_Str (s w rest : string) (pos : nat) (c : caps) :
  matches (Str s) w rest pos c -> w = s.
Proof.
  revert w rest pos c. induction s as [|x s IH]; intros w rest pos c H; cbn in H.
  - by destruct H.
  - destruct H as (w1 & w2 & c1 & c2 & -> & (y & -> & Hy & _) & H2 & _).
    apply Ascii.eqb_eq in Hy as <-. apply IH in H2 as ->. done.
Qed.

(** The slice of a word between what stands in front of it and what
    follows. *)
Lemma string_drop_app (pre s : string) :
  string_drop (String.length pre) (pre +:+ s) = s.
Proof. induction pre as [|x pre IH]; [done|]. exact IH. Qed.

Lemma string_take_app (w s : string) :
  string_take (String.length w) (w +:+ s) = w.
Proof.
  induction w as [|x w IH]; [done|].
  change (String x (string_take (String.length w) (w +:+ s)) = String x w).
  by rewrite IH.
Qed.

Lemma string_slice_app (pre w post : string) (pos : nat) :
  pos = String.length pre ->
  string_slice pos (pos + String.length w) (pre +:+ w +:+ post) = w.
Proof.
  intros ->. unfold string_slice.
  replace (String.length pre + String.length w - String.length pre)
    with (String.length w) by lia.
  by rewrite string_drop_app, string_take_app.
Qed.

(** ** The matches of the finders *)

Lemma FindStringSubmatch_sound (r : regex) (n : nat) (s : string) :
  FindStringSubmatch r n s = []
  \/ exists pre s' cs len,
       s = pre +:+ s' /\ match_here r s' = Some (cs, len)
       /\ FindStringSubmatch r n s = submatches n s' len cs.
Proof.
  induction s as [|c s IH]; cbn [FindStringSubmatch].
  - destruct (match_here r "") as [[cs len]|] eqn:H; [|by left].
    right. by exists "", "", cs, len.
  - destruct (match_here r (String c s)) as [[cs len]|] eqn:H.
    + right. by exists "", (String c s), cs, len.
    + destruct IH as [IH|(pre & s' & cs & len & -> & Hm & IH)]; [by left|].
      right. by exists (String c pre), s', cs, len.
Qed.

Lemma find_all_from_sound (r : regex) (n : nat) (s : string) (skip : nat)
    (b : bool) (m : list string) :
  m ∈ find_all_from r n s skip b ->
  exists pre s' cs len,
    s = pre +:+ s' /\ match_here r s' = Some (cs, len)
    /\ m = submatches n s' len cs.
Proof.
  revert skip b. induction s as [|c s IH]; intros skip b H.
  - destruct skip as [|k]; cbn in H; [|by apply elem_of_nil in H].
    destruct (match_here r "") as [[cs len]|] eqn:Hm; [|by apply elem_of_nil in H].
    assert (m = submatches n "" len cs) as ->.
    { destruct len; [destruct b|]; cbn in H.
      - by apply elem_of_nil in H.
      - by apply list_elem_of_singleton in H.
      - by apply list_elem_of_singleton in H. }
    by exists "", "", cs, len.
  - assert (Hrec : forall k b', m ∈ find_all_from r n s k b' ->
              exists pre s' cs len, String c s = pre +:+ s'
                /\ match_here r s' = Some (cs, len) /\ m = submatches n s' len cs).
    { intros k b' (pre & s' & cs & len & -> & Hm & ->)%IH.
      by exists (String c pre), s', cs, len. }
    destruct skip as [|k]; cbn [find_all_from] in H; [|by eapply Hrec].
    destruct (match_here r (String c s)) as [[cs len]|] eqn:Hm; [|by eapply Hrec].
    destruct len as [|len].
    + apply elem_of_app in H as [H|H]; [|by eapply Hrec].
      destruct b; [by apply elem_of_nil in H|].
      apply list_elem_of_singleton in H as ->. by exists "", (String c s), cs, 0.
    + apply elem_of_cons in H as [->|H]; [|by eapply Hrec].
      by exists "", (String c s), cs, (S len).
Qed.

(** ** What the three patterns match *)

Lemma matches_Plus (g : bool) (p : ascii -> bool) (w rest : string) (pos : nat)
    (c : caps) :
  matches (Plus g p) w rest pos c ->
  w <> "" /\ string_all p w = true /\ c = [].
Proof.
  intros (w1 & w2 & c1 & c2 & -> & (x & -> & Hx & ->) & (Hw & ->) & ->).
  change (String x "" +:+ w2) with (String x w2).
  split; [done|]. split; [|done]. cbn. by rewrite Hx, Hw.
Qed.

Lemma matches_Chr (p : ascii -> bool) (w rest : string) (pos : nat) (c : caps) :
  matches (Chr p) w rest pos c -> exists x, w = String x "" /\ p x = true /\ c = [].
Proof. done. Qed.

Lemma slice_at (pre w post s : string) (pos : nat) :
  s = pre +:+ w +:+ post -> pos = String.length pre ->
  string_slice pos (pos + String.length w) s = w.
Proof. intros -> ->. by apply string_slice_app. Qed.

(** The groups of a match of [fileLineRegex]: a path without white space,
    digits, and a message without line feed, none of them empty. *)
Lemma fileLineRegex_groups (s : string) (cs : caps) (len : nat) :
  match_here fileLineRegex s = Some (cs, len) ->
  (group_text s cs 1 <> "" /\ string_all notws (group_text s cs 1) = true)
  /\ (group_text s cs 2 <> "" /\ string_all digit (group_text s cs 2) = true)
  /\ (group_text s cs 3 <> "" /\ string_all dot (group_text s cs 3) = true).
Proof.
  intros (w & rest & -> & Hm & _)%match_here_sound.
  unfold fileLineRegex, Cat in Hm. cbn [fold_right matches] in Hm.
  destruct Hm as (w1 & ? & c1 & ? & -> & H1 & Hm & ->).
  destruct Hm as (w2 & ? & c2 & ? & -> & H2 & Hm & ->).
  destruct Hm as (w3 & ? & c3 & ? & -> & H3 & Hm & ->).
  destruct Hm as (w4 & ? & c4 & ? & -> & H4 & Hm & ->).
  destruct Hm as (w5 & ? & c5 & ? & -> & H5 & Hm & ->).
  destruct Hm as (w6 & ? & c6 & ? & -> & H6 & Hm & ->).
  destruct Hm as (w7 & ? & c7 & ? & -> & H7 & Hm & ->).
  destruct Hm as (w8 & ? & c8 & ? & -> & H8 & Hm & ->).
  destruct Hm as (w9 & ? & c9 & ? & -> & H9 & Hm & ->).
  destruct Hm as (w10 & ? & c10 & ? & -> & H10 & Hm & ->).
  destruct Hm as (w11 & ? & c11 & ? & -> & H11 & Hm & ->).
  destruct Hm as (w12 & ? & c12 & ? & -> & H12 & Hm & ->).
  destruct Hm as (w13 & ? & c13 & ? & -> & H13 & Hm & ->).
  destruct Hm as (w14 & ? & c14 & ? & -> & H14 & (-> & ->) & ->).
  assert (c1 = []) as ->
    by (destruct H1 as [H1|H1];
        (eapply group_free_caps; [|exact H1]); apply group_free_StrI).
  assert (c6 = []) as ->
    by (destruct H6 as [H6|H6];
        (eapply group_free_caps; [|exact H6]); apply group_free_StrI).
  assert (c14 = []) as -> by (by destruct H14 as [(? & _ & _ & ->)|(_ & _ & ->)]).
  destruct H2 as (? & _ & _ & ->). destruct H3 as (_ & ->).
  destruct H5 as (_ & ->). destruct H7 as (? & _ & _ & ->).
  destruct H8 as (_ & ->). destruct H10 as (_ & ->).
  destruct H11 as (? & _ & _ & ->). destruct H12 as (_ & ->).
  destruct H4 as (? & (Hn4 & Ha4 & ->)%matches_Plus & ->).
  destruct H9 as (? & (Hn9 & Ha9 & ->)%matches_Plus & ->).
  destruct H13 as (? & (Hn13 & Ha13 & ->)%matches_Plus & ->).
  clear H1 H6 H14.
  cbn [app]. unfold group_text. cbn [cap_lookup Nat.eqb].
  rewrite (slice_at (w1 +:+ w2 +:+ w3) w4
             (w5 +:+ w6 +:+ w7 +:+ w8 +:+ w9 +:+ w10 +:+ w11 +:+ w12 +:+ w13
              +:+ w14 +:+ rest));
    [|by rewrite !append_assoc|rewrite !append_length; lia].
  rewrite (slice_at (w1 +:+ w2 +:+ w3 +:+ w4 +:+ w5 +:+ w6 +:+ w7 +:+ w8) w9
             (w10 +:+ w11 +:+ w12 +:+ w13 +:+ w14 +:+ rest));
    [|by rewrite !append_assoc|rewrite !append_length; lia].
  rewrite (slice_at (w1 +:+ w2 +:+ w3 +:+ w4 +:+ w5 +:+ w6 +:+ w7 +:+ w8
                     +:+ w9 +:+ w10 +:+ w11 +:+ w12) w13 (w14 +:+ rest));
    [|by rewrite !append_assoc|rewrite !append_length; lia].
  done.
Qed.

(** The group of a match of [codeBlockRegex]: an opening brace, a closing
    brace and what stands between them, somewhere in the text. *)
Lemma codeBlockRegex_group (s : string) (cs : caps) (len : nat) :
  match_here codeBlockRegex s = Some (cs, len) ->
  exists before mid after,
    s = before +:+ "{" +:+ mid +:+ "}" +:+ after
    /\ group_text s cs 1 = "{" +:+ mid +:+ "}".
Proof.
  intros (w & rest & -> & Hm & _)%match_here_sound.
  unfold codeBlockRegex, Cat, Opt in Hm. cbn [fold_right matches] in Hm.
  destruct Hm as (w1 & ? & c1 & ? & -> & H1 & Hm & ->).
  destruct Hm as (w2 & ? & c2 & ? & -> & H2 & Hm & ->).
  destruct Hm as (w3 & ? & c3 & ? & -> & H3 & Hm & ->).
  destruct Hm as (w4 & ? & c4 & ? & -> & H4 & Hm & ->).
  destruct Hm as (w5 & ? & c5 & ? & -> & H5 & Hm & ->).
  destruct Hm as (w6 & ? & c6 & ? & -> & H6 & (-> & ->) & ->).
  destruct H4 as (c' & H4 & ->).
  destruct H4 as (? & ? & ? & ? & -> & (x & -> & Hx & ->) & H4 & ->).
  destruct H4 as (mid & ? & ? & ? & -> & (_ & ->) & H4 & ->).
  destruct H4 as (? & ? & ? & ? & -> & (y & -> & Hy & ->) & (-> & ->) & ->).
  apply Ascii.eqb_eq in Hx as <-, Hy as <-.
  apply group_free_caps in H1 as ->; [|apply group_free_Str].
  assert (c2 = []) as ->
    by (destruct H2 as [H2|[_ ->]]; [|done];
        (eapply group_free_caps; [|exact H2]); apply group_free_Str).
  destruct H3 as (_ & ->). destruct H5 as (_ & ->).
  apply group_free_caps in H6 as ->; [|apply group_free_Str].
  exists (w1 +:+ w2 +:+ w3), mid, (w5 +:+ w6 +:+ rest).
  cbn [app]. unfold group_text. cbn [cap_lookup Nat.eqb].
  rewrite (slice_at (w1 +:+ w2 +:+ w3) ("{" +:+ mid +:+ "}" +:+ "")
             (w5 +:+ w6 +:+ rest));
    [|by rewrite !append_assoc, ?append_empty_r
     |rewrite !append_length; lia].
  rewrite !append_empty_r. split; [|done].
  by rewrite !append_assoc.
Qed.

(** The group of a match of [jsonRegex]: from an opening brace to a
    closing brace. *)
Lemma jsonRegex_group (s : string) (cs : caps) (len : nat) :
  match_here jsonRegex s = Some (cs, len) ->
  exists mid after,
    s = "{" +:+ mid +:+ "}" +:+ after
    /\ group_text s cs 1 = "{" +:+ mid +:+ "}".
Proof.
  intros (w & rest & -> & Hm & _)%match_here_sound.
  unfold jsonRegex, Cat in Hm. cbn [fold_right matches] in Hm.
  destruct Hm as (c' & Hm & ->).
  unfold group_text. cbn [cap_lookup Nat.eqb].
  rewrite (slice_at "" w rest); [|done..].
  destruct Hm as (w1 & ? & c1 & ? & -> & (x & -> & Hx & ->) & Hm & ->).
  apply Ascii.eqb_eq in Hx as <-.
  destruct Hm as (w2 & ? & c2 & ? & -> & H2 & Hm & ->).
  destruct Hm as (w3 & ? & c3 & ? & -> & H3 & Hm & ->).
  destruct Hm as (w4 & ? & c4 & ? & -> & H4 & Hm & ->).
  destruct Hm as (w5 & ? & c5 & ? & -> & H5 & Hm & ->).
  destruct Hm as (w6 & ? & c6 & ? & -> & H6 & Hm & ->).
  destruct Hm as (w7 & ? & c7 & ? & -> & H7 & Hm & ->).
  destruct Hm as (w8 & ? & c8 & ? & -> & H8 & Hm & ->).
  destruct Hm as (w9 & ? & c9 & ? & -> & H9 & Hm & ->).
  destruct Hm as (w10 & ? & c10 & ? & -> & H10 & Hm & ->).
  destruct Hm as (w11 & ? & c11 & ? & -> & (y & -> & Hy & ->) & (-> & ->) & ->).
  apply Ascii.eqb_eq in Hy as <-.
  exists (w2 +:+ w3 +:+ w4 +:+ w5 +:+ w6 +:+ w7 +:+ w8 +:+ w9 +:+ w10), rest.
  rewrite !append_empty_r. by rewrite !append_assoc.
Qed.

Lemma submatches_1 (s : string) (len : nat) (cs : caps) :
  submatches 1 s len cs = [string_slice 0 len s; group_text s cs 1].
Proof. reflexivity. Qed.

Lemma extractJSON_shape_aux (text : string) :
  extractJSON text = text
  \/ exists before mid after,
       text = before +:+ "{" +:+ mid +:+ "}" +:+ after
       /\ extractJSON text = "{" +:+ mid +:+ "}".
Proof.
  unfold extractJSON.
  destruct (FindStringSubmatch_sound codeBlockRegex 1 text)
    as [->|(pre & s' & cs & len & -> & Hm & ->)].
  - cbn [length Nat.ltb Nat.leb].
    destruct (FindStringSubmatch_sound jsonRegex 1 text)
      as [->|(pre & s' & cs & len & -> & Hm & ->)]; [by left|].
    right. rewrite submatches_1. cbn [length Nat.ltb Nat.leb nth].
    apply jsonRegex_group in Hm as (mid & after & -> & ->).
    by exists pre, mid, after.
  - right. rewrite submatches_1. cbn [length Nat.ltb Nat.leb nth].
    apply codeBlockRegex_group in Hm as (before & mid & after & -> & ->).
    exists (pre +:+ before), mid, after. by rewrite !append_assoc.
Qed.

(** ** The fallback diagnostics *)

Lemma digits_value_digits (s : string) (acc : Z) :
  string_all is_digit s = true -> exists v, strconv.digits_value s acc = Some v.
Proof.
  revert acc. induction s as [|c s IH]; intros acc H; cbn in *; [by eexists|].
  apply andb_prop in H as [-> H]. by apply IH.
Qed.

Lemma digit_not_sign (c : ascii) :
  is_digit c = true -> Ascii.eqb c "-" = false /\ Ascii.eqb c "+" = false.
Proof.
  intros H. split; apply Ascii.eqb_neq; intros ->; discriminate H.
Qed.

(** [Atoi] on digits: the number they write, or the largest int when the
    number is larger. *)
Lemma Atoi_digits (s : string) :
  s <> "" -> string_all is_digit s = true ->
  exists v, strconv.digits_value s 0 = Some v /\ (0 <= v)%Z
            /\ (strconv.Atoi s).1 = Z.min v GoInt.max_int.
Proof.
  intros Hne Hall. destruct (digits_value_digits s 0 Hall) as [v Hv].
  exists v. split; [done|].
  pose proof (digits_value_nonneg s 0 v ltac:(done) Hv) as Hpos.
  split; [done|].
  destruct s as [|c s]; [done|].
  pose proof Hall as Hc. cbn [string_all] in Hc. apply andb_prop in Hc as [Hc _].
  apply digit_not_sign in Hc as [Hm Hp].
  unfold strconv.Atoi, strconv.ParseInt. rewrite Hm, Hp, Hv.
  destruct (Z.leb_spec v GoInt.max_int); cbn; lia.
Qed.

Lemma match_diagnostic_fields (text : string) (m : list string) :
  m ∈ FindAllStringSubmatch fileLineRegex 3 text ->
  exists path digits message line,
    m = [nth 0 m ""; path; digits; message]
    /\ (path <> "" /\ string_all notws path = true)
    /\ (digits <> "" /\ string_all is_digit digits = true
        /\ strconv.digits_value digits 0 = Some line /\ (0 <= line)%Z)
    /\ (message <> "" /\ string_all dot message = true)
    /\ match_diagnostic m =
       [ {| models.Message := GoStrings.TrimSpace message;
            models.Location' :=
              {| models.Path := path;
                 models.Range' :=
                   {| models.Start :=
                        {| models.Line := Z.min line GoInt.max_int;
                           models.Column := 1 |};
                      models.End' :=
                        {| models.Line := Z.min line GoInt.max_int;
                           models.Column := 2 |} |} |};
            models.Severity := "INFO";
            models.Code' := {| models.Value := "ai-review"; models.URL := "" |};
            models.Original := "";
            models.Suggestion := "" |} ].
Proof.
  intros (pre & s' & cs & len & -> & Hm & ->)%find_all_from_sound.
  apply fileLineRegex_groups in Hm as (H1 & (Hn2 & H2) & H3).
  destruct (Atoi_digits _ Hn2 H2) as (line & Hv & Hpos & Hline).
  exists (group_text s' cs 1), (group_text s' cs 2), (group_text s' cs 3), line.
  split; [done|]. split; [done|]. split; [done|]. split; [done|].
  unfold match_diagnostic.
  change (length (submatches 3 s' len cs)) with 4.
  cbn [Nat.leb].
  change (nth 1 (submatches 3 s' len cs) "") with (group_text s' cs 1).
  change (nth 2 (submatches 3 s' len cs) "") with (group_text s' cs 2).
  change (nth 3 (submatches 3 s' len cs) "") with (group_text s' cs 3).
  by rewrite Hline.
Qed.

Lemma fallback_diagnostics_aux (text : string) (r : models.AIProviderResponse)
    (d : models.Diagnostic) :
  parseUnstructuredResponse text = (Some r, None) ->
  d ∈ models.Diagnostics r ->
  exists m, m ∈ FindAllStringSubmatch fileLineRegex 3 text /\ match_diagnostic m = [d].
Proof.
  unfold parseUnstructuredResponse. intros [= <-]. cbn [models.Diagnostics].
  intros Hd%list_elem_of_In. apply in_flat_map in Hd as (m & Hm%list_elem_of_In & Hd).
  exists m. split; [done|].
  destruct (match_diagnostic_fields text m Hm) as (? & ? & ? & ? & _ & _ & _ & _ & Heq).
  rewrite Heq in Hd |- *. by destruct Hd as [<-|[]].
Qed.

(** X19.  Every diagnostic of the fallback parse: a path that is not empty and
    holds no white space, a line between 0 and the largest int, the
    columns 1 and 2, a trimmed message without line feed, the severity
    INFO and the code ai-review. *)
Theorem X19_fallback_diagnostic_shape (text : string) (r : models.AIProviderResponse)
    (d : models.Diagnostic) :
  parseUnstructuredResponse text = (Some r, None) ->
  d ∈ models.Diagnostics r ->
  let loc := models.Location' d in
  let start := models.Start (models.Range' loc) in
  (models.Path loc <> "" /\ string_all notws (models.Path loc) = true)
  /\ (0 <= models.Line start <= GoInt.max_int)%Z
  /\ models.Column start = 1%Z
  /\ models.End' (models.Range' loc)
     = {| models.Line := models.Line start; models.Column := 2 |}
  /\ (GoStrings.TrimSpace (models.Message d) = models.Message d
      /\ string_all dot (models.Message d) = true)
  /\ models.Severity d = "INFO"
  /\ models.Code' d = {| models.Value := "ai-review"; models.URL := "" |}
  /\ models.Original d = "" /\ models.Suggestion d = "".
Proof.
  intros Hr Hd.
  destruct (fallback_diagnostics_aux text r d Hr Hd) as (m & Hm & Heq).
  destruct (match_diagnostic_fields text m Hm)
    as (path & digits & message & line & _ & Hpath & (_ & _ & _ & Hline)
        & (_ & Hmsg) & Heq').
  rewrite Heq' in Heq. injection Heq as <-. cbn.
  split; [done|]. split; [unfold GoInt.max_int; lia|].
  split; [done|]. split; [done|].
  split; [|done]. split; [apply TrimSpace_idempotent|by apply TrimSpace_all].
Qed.

(** The theorem at the example of the fallback path. *)
Lemma X19_fallback_diagnostic_shape_witness :
  parseUnstructuredResponse fallback_reply = (Some fallback_response, None)
  /\ fallback_diagnostic ∈ models.Diagnostics fallback_response
  /\ (0 <= models.Line (models.Start (models.Range' (models.Location' fallback_diagnostic)))
       <= GoInt.max_int)%Z.
Proof.
  assert (H : parseUnstructuredResponse fallback_reply = (Some fallback_response, None))
    by (vm_compute; reflexivity).
  assert (Hd : fallback_diagnostic ∈ models.Diagnostics fallback_response)
    by apply list_elem_of_here.
  split; [exact H|]. split; [exact Hd|].
  exact (proj1 (proj2 (X19_fallback_diagnostic_shape fallback_reply _ _ H Hd))).
Defined.




(** ** The overview of the fallback parse, whatever the text *)

Lemma first_paragraph_shape (lines : list string) (overview : string) :
  Forall (fun line => string_all dot line = true) lines ->
  let P o := GoStrings.TrimSpace o = o /\ GoStrings.HasPrefix o "#" = false
             /\ string_all dot o = true in
  P overview -> P (first_paragraph lines overview).
Proof.
  intros Hall P Ho. induction Hall as [|line rest Hline _ IH]; [done|].
  cbn [first_paragraph].
  destruct (String.eqb (GoStrings.TrimSpace line) ""); [done|].
  cbn [negb andb].
  destruct (GoStrings.HasPrefix (GoStrings.TrimSpace line) "#") eqn:Hh; [done|].
  cbn [negb]. split; [apply TrimSpace_idempotent|]. split; [done|].
  by apply TrimSpace_all.
Qed.

(** X21.  The overview of the fallback parse is never empty, is trimmed, does
    not begin with # and holds no line feed. *)
Theorem X21_fallback_overview_shape (text : string) (r : models.AIProviderResponse) :
  parseUnstructuredResponse text = (Some r, None) ->
  models.Overview r <> ""
  /\ GoStrings.TrimSpace (models.Overview r) = models.Overview r
  /\ GoStrings.HasPrefix (models.Overview r) "#" = false
  /\ string_all dot (models.Overview r) = true.
Proof.
  intros Hr. split; [by eapply fallback_overview_nonempty|].
  revert Hr. unfold parseUnstructuredResponse. intros [= <-]. cbn [models.Overview].
  destruct (Nat.eqb _ 0); [|by vm_compute].
  apply first_paragraph_shape; [|by vm_compute].
  apply (Split_parts NL).
Qed.

Lemma X21_fallback_overview_shape_witness :
  parseUnstructuredResponse prose_reply =
    (Some {| models.Overview := "Looks good to me."; models.Diagnostics := [] |},
     None)
  /\ "Looks good to me." <> ""
  /\ GoStrings.TrimSpace "Looks good to me." = "Looks good to me."
  /\ GoStrings.HasPrefix "Looks good to me." "#" = false
  /\ string_all dot "Looks good to me." = true.
Proof.
  assert (H : parseUnstructuredResponse prose_reply =
    (Some {| models.Overview := "Looks good to me."; models.Diagnostics := [] |},
     None)) by (vm_compute; reflexivity).
  split; [exact H|].
  exact (X21_fallback_overview_shape prose_reply _ H).
Defined.

(** ** Every diagnostic, on either path *)

Lemma ParseAIResponse_diagnostic (text : string) (r : models.AIProviderResponse)
    (d : models.Diagnostic) :
  ParseAIResponse text = (Some r, None) ->
  d ∈ models.Diagnostics r ->
  (exists issue, d = issue_diagnostic issue)
  \/ (exists m, match_diagnostic m = [d]).
Proof.
  unfold ParseAIResponse. destruct (Decode.Unmarshal _) as [rawResponse|_].
  - intros [= <-]. cbn. intros (issue & -> & _)%list_elem_of_fmap. left. eauto.
  - intros Hr Hd. right.
    destruct (fallback_diagnostics_aux text r d Hr Hd) as (m & _ & Hm). eauto.
Qed.

Lemma match_diagnostic_singleton (m : list string) (d : models.Diagnostic) :
  match_diagnostic m = [d] ->
  models.Severity d = "INFO"
  /\ models.Column (models.Start (models.Range' (models.Location' d))) = 1%Z
  /\ models.URL (models.Code' d) = "" /\ models.Original d = "".
Proof.
  unfold match_diagnostic. destruct (Nat.leb 4 (length m)); [|done].
  by intros [= <-].
Qed.

(** X22.  The severity of every diagnostic is one of the three levels. *)
Theorem X22_ParseAIResponse_severity_levels (text : string)
    (r : models.AIProviderResponse) (d : models.Diagnostic) :
  ParseAIResponse text = (Some r, None) ->
  d ∈ models.Diagnostics r ->
  models.Severity d = "ERROR" \/ models.Severity d = "WARNING"
  \/ models.Severity d = "INFO".
Proof.
  intros Hr Hd.
  destruct (ParseAIResponse_diagnostic text r d Hr Hd) as [[issue ->]|[m Hm]].
  - apply normalizeSeverity_values.
  - apply match_diagnostic_singleton in Hm as [-> _]. by right; right.
Qed.

Lemma X22_ParseAIResponse_severity_levels_witness :
  ParseAIResponse column7_reply = (Some column7_response, None)
  /\ issue_diagnostic column7_issue ∈ models.Diagnostics column7_response
  /\ (models.Severity (issue_diagnostic column7_issue) = "ERROR"
      \/ models.Severity (issue_diagnostic column7_issue) = "WARNING"
      \/ models.Severity (issue_diagnostic column7_issue) = "INFO").
Proof.
  assert (H : ParseAIResponse column7_reply = (Some column7_response, None))
    by (vm_compute; reflexivity).
  assert (Hd : issue_diagnostic column7_issue ∈ models.Diagnostics column7_response)
    by apply list_elem_of_here.
  split; [exact H|]. split; [exact Hd|].
  exact (X22_ParseAIResponse_severity_levels column7_reply _ _ H Hd).
Defined.

(** X23.  No diagnostic starts at column 0, has a URL for its code or an
    original snippet. *)
Theorem X23_ParseAIResponse_never_column_zero (text : string)
    (r : models.AIProviderResponse) (d : models.Diagnostic) :
  ParseAIResponse text = (Some r, None) ->
  d ∈ models.Diagnostics r ->
  models.Column (models.Start (models.Range' (models.Location' d))) <> 0%Z
  /\ models.URL (models.Code' d) = ""
  /\ models.Original d = "".
Proof.
  intros Hr Hd.
  destruct (ParseAIResponse_diagnostic text r d Hr Hd) as [[issue ->]|[m Hm]].
  - cbn. split; [|done]. by destruct (Z.eqb_spec (raw.Column issue) 0).
  - apply match_diagnostic_singleton in Hm as (_ & -> & -> & ->). done.
Qed.

Lemma X23_ParseAIResponse_never_column_zero_witness :
  ParseAIResponse column7_reply = (Some column7_response, None)
  /\ issue_diagnostic column7_issue ∈ models.Diagnostics column7_response
  /\ models.Column (models.Start (models.Range'
        (models.Location' (issue_diagnostic column7_issue)))) <> 0%Z.
Proof.
  assert (H : ParseAIResponse column7_reply = (Some column7_response, None))
    by (vm_compute; reflexivity).
  assert (Hd : issue_diagnostic column7_issue ∈ models.Diagnostics column7_response)
    by apply list_elem_of_here.
  split; [exact H|]. split; [exact Hd|].
  exact (proj1 (X23_ParseAIResponse_never_column_zero column7_reply _ _ H Hd)).
Defined.

(** ** Extraction, whatever the text *)

(** X24.  What [extractJSON] returns is the text itself, or a part of the text
    that begins with an opening brace and ends with a closing brace. *)
Theorem X24_extractJSON_shape (text : string) :
  extractJSON text = text
  \/ exists before mid after,
       text = before +:+ "{" +:+ mid +:+ "}" +:+ after
       /\ extractJSON text = "{" +:+ mid +:+ "}".
Proof. apply extractJSON_shape_aux. Qed.

Lemma extractJSON_without_brace_aux (text : string) :
  string_all (fun c => negb (Ascii.eqb c "{")) text = true
  \/ string_all (fun c => negb (Ascii.eqb c "}")) text = true ->
  extractJSON text = text.
Proof.
  intros H.
  destruct (extractJSON_shape_aux text) as [|(before & mid & after & Heq & _)];
    [done|].
  rewrite Heq in H. rewrite !string_all_app in H. cbn in H.
  rewrite !andb_false_r in H. by destruct H.
Qed.

(** X25.  A text without opening brace, or without closing brace, is returned
    as it is. *)
Theorem X25_extractJSON_without_brace (text : string) :
  string_all (fun c => negb (Ascii.eqb c "{")) text = true
  \/ string_all (fun c => negb (Ascii.eqb c "}")) text = true ->
  extractJSON text = text.
Proof. apply extractJSON_without_brace_aux. Qed.

Lemma X25_extractJSON_without_brace_witness :
  string_all (fun c => negb (Ascii.eqb c "{")) "```json null ```" = true
  /\ extractJSON "```json null ```" = "```json null ```".
Proof.
  assert (H : string_all (fun c => negb (Ascii.eqb c "{")) "```json null ```" = true)
    by (vm_compute; reflexivity).
  split; [exact H|].
  exact (X25_extractJSON_without_brace "```json null ```" (or_introl H)).
Defined.

(** ** The matcher on a line of the documented form *)

Lemma slice_between (pre w post s : string) (from to : nat) :
  s = pre +:+ w +:+ post -> from = String.length pre ->
  to = String.length pre + String.length w ->
  string_slice from to s = w.
Proof. intros -> -> ->. by apply string_slice_app. Qed.

Lemma run_Eps (k : cont) (s : string) (pos : nat) (cs : caps) :
  run Eps k s pos cs = k s pos cs.
Proof. reflexivity. Qed.

Lemma run_Seq (a b : regex) (k : cont) (s : string) (pos : nat) (cs : caps) :
  run (Seq a b) k s pos cs = run a (run b k) s pos cs.
Proof. reflexivity. Qed.

Lemma star_lazy_unfold (p : ascii -> bool) (k : cont) (s : string) (pos : nat)
    (cs : caps) :
  star false p k s pos cs =
  match k s pos cs with
  | Some r => Some r
  | None =>
    match s with
    | String c s' => if p c then star false p k s' (S pos) cs else None
    | EmptyString => None
    end
  end.
Proof. by destruct s. Qed.

Lemma star_greedy_unfold (p : ascii -> bool) (k : cont) (s : string) (pos : nat)
    (cs : caps) :
  star true p k s pos cs =
  match s with
  | String c s' =>
    if p c then
      match star true p k s' (S pos) cs with
      | Some r => Some r
      | None => k s pos cs
      end
    else k s pos cs
  | EmptyString => k s pos cs
  end.
Proof. by destruct s. Qed.


(** A greedy star takes a word of the class that the rest does not
    continue, when what follows matches behind it. *)
Lemma star_greedy_all (p : ascii -> bool) (k : cont) (w rest : string)
    (pos : nat) (cs : caps) (r : caps * nat) :
  string_all p w = true -> stops p rest ->
  k rest (pos + String.length w) cs = Some r ->
  run (Star true p) k (w +:+ rest) pos cs = Some r.
Proof.
  cbn [run]. intros Hw Hrest. revert pos.
  induction w as [|c w IH]; intros pos Hk.
  - cbn in Hk. rewrite Nat.add_0_r in Hk.
    change ("" +:+ rest) with rest. rewrite star_greedy_unfold.
    destruct rest as [|c s']; [done|]. by rewrite (Hrest c s' eq_refl).
  - cbn in Hw. apply andb_prop in Hw as [Hc Hw].
    change (String c w +:+ rest) with (String c (w +:+ rest)).
    rewrite star_greedy_unfold, Hc, (IH Hw (S pos)); [done|].
    rewrite <- Hk. f_equal. cbn. lia.
Qed.

(** A lazy star goes to the end of a word of the class when what follows
    matches at no character of the class. *)
Lemma star_lazy_to_end (p : ascii -> bool) (k : cont) (w : string)
    (pos : nat) (cs : caps) (r : caps * nat) :
  string_all p w = true ->
  (forall c u pos', p c = true -> k (String c u) pos' cs = None) ->
  k "" (pos + String.length w) cs = Some r ->
  star false p k w pos cs = Some r.
Proof.
  intros Hw Hfail. revert pos. induction w as [|c w IH]; intros pos Hk.
  - cbn in Hk. rewrite Nat.add_0_r in Hk. rewrite star_lazy_unfold. by rewrite Hk.
  - cbn in Hw. apply andb_prop in Hw as [Hc Hw].
    rewrite star_lazy_unfold, (Hfail c w pos Hc), Hc. apply (IH Hw).
    rewrite <- Hk. f_equal. cbn. lia.
Qed.

(** A lazy star passes one character when what follows does not match in
    front of it and matches behind it. *)
Lemma star_lazy_one (p : ascii -> bool) (k : cont) (c : ascii) (rest : string)
    (pos : nat) (cs : caps) (r : caps * nat) :
  p c = true -> k (String c rest) pos cs = None ->
  k rest (S pos) cs = Some r ->
  run (Star false p) k (String c rest) pos cs = Some r.
Proof.
  intros Hc Hnone Hk. cbn [run].
  rewrite star_lazy_unfold, Hnone, Hc, star_lazy_unfold. by rewrite Hk.
Qed.

Lemma run_Chr (p : ascii -> bool) (k : cont) (c : ascii) (rest : string)
    (pos : nat) (cs : caps) (r : caps * nat) :
  p c = true -> k rest (S pos) cs = Some r ->
  run (Chr p) k (String c rest) pos cs = Some r.
Proof. intros Hc Hk. cbn [run]. by rewrite Hc. Qed.

Lemma run_Alt_left (a b : regex) (k : cont) (s : string) (pos : nat) (cs : caps)
    (r : caps * nat) :
  run a k s pos cs = Some r -> run (Alt a b) k s pos cs = Some r.
Proof. intros H. cbn [run]. by rewrite H. Qed.

Lemma run_Alt_right (a b : regex) (k : cont) (s : string) (pos : nat) (cs : caps)
    (r : option (caps * nat)) :
  run a k s pos cs = None -> run b k s pos cs = r -> run (Alt a b) k s pos cs = r.
Proof. intros Ha Hb. cbn [run]. by rewrite Ha. Qed.

(** A greedy group of one class or more. *)
Lemma run_group_greedy (n : nat) (p : ascii -> bool) (k : cont) (w rest : string)
    (pos : nat) (cs : caps) (r : caps * nat) :
  w <> "" -> string_all p w = true -> stops p rest ->
  k rest (pos + String.length w) ((n, (pos, pos + String.length w)) :: cs) = Some r ->
  run (Group n (Plus true p)) k (w +:+ rest) pos cs = Some r.
Proof.
  intros Hne Hw Hrest Hk. destruct w as [|c w]; [done|].
  cbn in Hw. apply andb_prop in Hw as [Hc Hw].
  change (String c w +:+ rest) with (String c (w +:+ rest)).
  unfold Plus. cbn [run]. rewrite Hc.
  apply (star_greedy_all p _ w rest (S pos) cs r Hw Hrest).
  rewrite <- Hk. cbn [String.length].
  by replace (S pos + String.length w) with (pos + S (String.length w)) by lia.
Qed.

(** A lazy group of one class or more, to the end of the text. *)
Lemma run_group_lazy_to_end (n : nat) (p : ascii -> bool) (k : cont) (w : string)
    (pos : nat) (cs : caps) (r : caps * nat) :
  w <> "" -> string_all p w = true ->
  (forall c u pos' cs', p c = true -> k (String c u) pos' cs' = None) ->
  k "" (pos + String.length w) ((n, (pos, pos + String.length w)) :: cs) = Some r ->
  run (Group n (Plus false p)) k w pos cs = Some r.
Proof.
  intros Hne Hw Hfail Hk. destruct w as [|c w]; [done|].
  cbn in Hw. apply andb_prop in Hw as [Hc Hw].
  unfold Plus. cbn [run]. rewrite Hc.
  apply (star_lazy_to_end p _ w (S pos) cs r Hw).
  - intros c' u pos' Hc'. by apply Hfail.
  - rewrite <- Hk. cbn [String.length].
    by replace (S pos + String.length w) with (pos + S (String.length w)) by lia.
Qed.

Lemma digit_not_ws (c : ascii) : is_digit c = true -> ws c = false.
Proof. by destruct c as [[] [] [] [] [] [] [] []]. Qed.

Lemma ws_ascii_space (c : ascii) : ws c = true -> GoStrings.is_ascii_space c = true.
Proof. by destruct c as [[] [] [] [] [] [] [] []]. Qed.

Lemma stops_head (p : ascii -> bool) (c : ascii) (s : string) :
  p c = false -> stops p (String c s).
Proof. by intros Hc c' s' [= <- <-]. Qed.

(** A trimmed text does not begin with white space. *)
Lemma TrimSpace_fixed_head (c : ascii) (s : string) :
  GoStrings.TrimSpace (String c s) = String c s ->
  GoStrings.is_ascii_space c = false.
Proof.
  intros H. destruct (GoStrings.is_ascii_space c) eqn:Hc; [|done]. exfalso.
  pose proof (f_equal String.length H) as Hlen.
  unfold GoStrings.TrimSpace in Hlen.
  assert (Hrev : forall x, String.length (string_rev x) = String.length x).
  { induction x as [|a x IH]; [done|].
    rewrite string_rev_cons, append_length, IH. cbn. lia. }
  rewrite Hrev in Hlen.
  pose proof (trim_front_length true
                (string_rev (GoStrings.trim_front false (String c s)))) as H1.
  rewrite Hrev in H1.
  assert (H2 : String.length (GoStrings.trim_front false (String c s))
               <= String.length s).
  { cbn [GoStrings.trim_front]. rewrite Hc. apply trim_front_length. }
  cbn [String.length] in Hlen. lia.
Qed.


Lemma file_line_match (path digits message : string) :
  path <> "" -> string_all notws path = true ->
  digits <> "" -> string_all is_digit digits = true ->
  message <> "" -> GoStrings.TrimSpace message = message ->
  string_all dot message = true ->
  exists cs len,
    match_here fileLineRegex (file_line path digits message) = Some (cs, len)
    /\ len = String.length (file_line path digits message)
    /\ submatches 3 (file_line path digits message) len cs
       = [file_line path digits message; path; digits; message].
Proof.
  intros Hp Hpall Hd Hdall Hm Hmtrim Hmall.
  assert (Hmhead : stops ws message).
  { intros c s' ->. apply TrimSpace_fixed_head in Hmtrim.
    destruct (ws c) eqn:Hc; [|done]. apply ws_ascii_space in Hc. congruence. }
  assert (Hdhead : stops ws (digits +:+ " - " +:+ message)).
  { destruct digits as [|c d]; [done|]. intros c' s' [= <- <-].
    cbn in Hdall. apply andb_prop in Hdall as [Hc _]. by apply digit_not_ws. }
  assert (Hphead : stops ws (path +:+ " Line: " +:+ digits +:+ " - " +:+ message)).
  { destruct path as [|c p]; [done|]. intros c' s' [= <- <-].
    cbn in Hpall. apply andb_prop in Hpall as [Hc _].
    unfold notws in Hc. by apply negb_true_iff in Hc. }
  unfold file_line.
  set (t3 := " - " +:+ message).
  set (t2 := " Line: " +:+ digits +:+ t3).
  eexists _, _. split; [|split].
  - unfold match_here, fileLineRegex, Cat. cbn [fold_right].
    change ("File: " +:+ path +:+ t2)
      with (String "F" (String "i" (String "l" (String "e" (String ":"
              (" " +:+ path +:+ t2)))))).
    rewrite run_Seq. apply run_Alt_left.
    change (StrI "file") with
      (Seq (Chr (fun x => Ascii.eqb (ascii_lower x) (ascii_lower "f")))
        (Seq (Chr (fun x => Ascii.eqb (ascii_lower x) (ascii_lower "i")))
          (Seq (Chr (fun x => Ascii.eqb (ascii_lower x) (ascii_lower "l")))
            (Seq (Chr (fun x => Ascii.eqb (ascii_lower x) (ascii_lower "e"))) Eps)))).
    do 4 (rewrite run_Seq; apply run_Chr; [done|]).
    rewrite run_Eps.
    rewrite run_Seq. apply run_Chr; [done|].
    rewrite run_Seq. apply (star_greedy_all ws _ " " _ _ _ _ eq_refl Hphead).
    rewrite run_Seq. apply run_group_greedy; [done|done|by apply stops_head|].
    subst t2.
    change (" Line: " +:+ digits +:+ t3)
      with (String " " (String "L" (String "i" (String "n" (String "e" (String ":"
              (" " +:+ digits +:+ t3))))))).
    rewrite run_Seq. apply star_lazy_one; [done|reflexivity|].
    rewrite run_Seq. apply run_Alt_left.
    change (StrI "line") with
      (Seq (Chr (fun x => Ascii.eqb (ascii_lower x) (ascii_lower "l")))
        (Seq (Chr (fun x => Ascii.eqb (ascii_lower x) (ascii_lower "i")))
          (Seq (Chr (fun x => Ascii.eqb (ascii_lower x) (ascii_lower "n")))
            (Seq (Chr (fun x => Ascii.eqb (ascii_lower x) (ascii_lower "e"))) Eps)))).
    do 4 (rewrite run_Seq; apply run_Chr; [done|]).
    rewrite run_Eps.
    rewrite run_Seq. apply run_Chr; [done|].
    rewrite run_Seq. apply (star_greedy_all ws _ " " _ _ _ _ eq_refl Hdhead).
    rewrite run_Seq. apply run_group_greedy; [done|done|by apply stops_head|].
    subst t3.
    change (" - " +:+ message) with (String " " (String "-" (" " +:+ message))).
    rewrite run_Seq. apply star_lazy_one; [done|reflexivity|].
    rewrite run_Seq. apply run_Chr; [done|].
    rewrite run_Seq. apply (star_greedy_all ws _ " " _ _ _ _ eq_refl Hmhead).
    rewrite run_Seq. apply run_group_lazy_to_end; [done|done|..].
    + intros c u pos' cs' Hc. unfold dot in Hc. apply negb_true_iff in Hc.
      rewrite run_Seq. apply run_Alt_right; [|reflexivity].
      cbn [run]. unfold chr. by rewrite Ascii.eqb_sym, Hc.
    + rewrite run_Seq. apply run_Alt_right; reflexivity.
  - subst t2 t3. rewrite !append_length. cbn [String.length]. lia.
  - subst t2 t3. unfold submatches, group_text. cbn [map seq cap_lookup Nat.eqb].
    f_equal; [|f_equal; [|f_equal; [|f_equal]]].
    + apply (slice_between "" _ ""); [by rewrite append_empty_r|done|].
      rewrite !append_length. cbn [String.length]. lia.
    + apply (slice_between "File: " path
               (" Line: " +:+ digits +:+ " - " +:+ message));
        [done|cbn; lia|cbn; lia].
    + apply (slice_between ("File: " +:+ path +:+ " Line: ") digits
               (" - " +:+ message));
        [by rewrite !append_assoc|rewrite !append_length; cbn; lia..].
    + apply (slice_between ("File: " +:+ path +:+ " Line: " +:+ digits +:+ " - ")
               message "");
        [by rewrite !append_assoc, ?append_empty_r
        |rewrite !append_length; cbn; lia..].
Qed.

Lemma find_all_skip_all (r : regex) (n : nat) (s : string) (b : bool) :
  match_here r "" = None ->
  find_all_from r n s (String.length s) b = [].
Proof.
  intros Hnone. revert b. induction s as [|c s IH]; intros b.
  - cbn. by rewrite Hnone.
  - cbn [String.length find_all_from]. apply IH.
Qed.

(** A match of the whole text is the only match. *)
Lemma find_all_whole (r : regex) (n : nat) (s : string) (cs : caps) (len : nat) :
  s <> "" -> match_here r "" = None ->
  match_here r s = Some (cs, len) -> len = String.length s ->
  FindAllStringSubmatch r n s = [submatches n s len cs].
Proof.
  intros Hne Hnone Hm ->. unfold FindAllStringSubmatch.
  destruct s as [|c s]; [done|].
  cbn [find_all_from]. rewrite Hm. cbn [String.length].
  by rewrite find_all_skip_all.
Qed.


Lemma file_line_fallback (path digits message : string) :
  path <> "" -> string_all notws path = true ->
  digits <> "" -> string_all is_digit digits = true ->
  message <> "" -> GoStrings.TrimSpace message = message ->
  string_all dot message = true ->
  parseUnstructuredResponse (file_line path digits message)
  = (Some (file_line_response path digits message), None).
Proof.
  intros Hp Hpall Hd Hdall Hm Hmtrim Hmall.
  destruct (file_line_match path digits message) as (cs & len & Hmatch & Hlen & Hsub);
    try done.
  unfold parseUnstructuredResponse.
  rewrite (find_all_whole fileLineRegex 3 _ cs len); [|done|done|done|done].
  rewrite Hsub. cbn [flat_map match_diagnostic length Nat.leb nth app Nat.eqb].
  by rewrite Hmtrim.
Qed.

(** X26.  A line "File: <path> Line: <digits> - <message>" gives, in the
    fallback parse, one diagnostic with that path, the line the digits
    write (the largest int when they write more) and that message: for a
    path without white space, and a trimmed message without line feed. *)
Theorem X26_fallback_on_file_line (path digits message : string) :
  path <> "" -> string_all notws path = true ->
  digits <> "" -> string_all is_digit digits = true ->
  message <> "" -> GoStrings.TrimSpace message = message ->
  string_all dot message = true ->
  parseUnstructuredResponse (file_line path digits message)
  = (Some (file_line_response path digits message), None).
Proof. apply file_line_fallback. Qed.

Lemma X26_fallback_on_file_line_witness :
  parseUnstructuredResponse (file_line "src/app.py" "10" "missing null check")
  = (Some (file_line_response "src/app.py" "10" "missing null check"), None).
Proof.
  apply (X26_fallback_on_file_line "src/app.py" "10" "missing null check");
    first [discriminate | vm_compute; reflexivity].
Defined.

(** X27.  The same line, when neither the path nor the message holds an
    opening brace, gives the same response in [ParseAIResponse]: nothing
    is extracted, the text is no JSON, the fallback parse answers. *)
Theorem X27_ParseAIResponse_on_file_line (path digits message : string) :
  path <> "" -> string_all notws path = true ->
  digits <> "" -> string_all is_digit digits = true ->
  message <> "" -> GoStrings.TrimSpace message = message ->
  string_all dot message = true ->
  string_all (fun c => negb (Ascii.eqb c "{")) path = true ->
  string_all (fun c => negb (Ascii.eqb c "{")) message = true ->
  ParseAIResponse (file_line path digits message)
  = (Some (file_line_response path digits message), None).
Proof.
  intros Hp Hpall Hd Hdall Hm Hmtrim Hmall Hpb Hmb.
  unfold ParseAIResponse.
  rewrite extractJSON_without_brace_aux.
  - replace (Decode.Unmarshal (file_line path digits message))
      with (@inr raw.Response _ Decode.SyntaxError) by reflexivity.
    by apply file_line_fallback.
  - left. unfold file_line. rewrite !string_all_app, Hpb, Hmb.
    assert (Hdb : string_all (fun c => negb (Ascii.eqb c "{")) digits = true).
    { clear -Hdall. induction digits as [|c d IH]; [done|].
      cbn in Hdall |- *. apply andb_prop in Hdall as [Hc Hdall].
      rewrite (IH Hdall), andb_true_r. apply negb_true_iff, Ascii.eqb_neq.
      intros ->. discriminate Hc. }
    by rewrite Hdb.
Qed.

Lemma X27_ParseAIResponse_on_file_line_witness :
  ParseAIResponse (file_line "src/app.py" "10" "missing null check")
  = (Some (file_line_response "src/app.py" "10" "missing null check"), None).
Proof.
  apply (X27_ParseAIResponse_on_file_line "src/app.py" "10" "missing null check");
    first [discriminate | vm_compute; reflexivity].
Defined.

(** ** Extraction from a fenced block *)

Lemma codeBlockRegex_needs_fence (s : string) :
  opens_fence s = false -> match_here codeBlockRegex s = None.
Proof.
  unfold opens_fence.
  destruct s as [|c1 [|c2 [|c3 s]]]; cbn [GoStrings.HasPrefix];
    cbv [match_here codeBlockRegex Cat fold_right Str run];
    rewrite ?(Ascii.eqb_sym "`"); try done;
    repeat (destruct (Ascii.eqb _ "`"); try done).
Qed.

Lemma opens_fence_window (c : ascii) (before rest : string) :
  opens_fence (String c before +:+ "``") = false ->
  opens_fence (String c before +:+ "```" +:+ rest) = false.
Proof. by destruct before as [|c2 [|c3 before]]. Qed.

Lemma codeBlockRegex_skips_prose (before rest : string) :
  no_fence_in before = true ->
  FindStringSubmatch codeBlockRegex 1 (before +:+ "```" +:+ rest)
  = FindStringSubmatch codeBlockRegex 1 ("```" +:+ rest).
Proof.
  induction before as [|c before IH]; [done|].
  cbn [no_fence_in]. intros [Hc Hb]%andb_prop. apply negb_true_iff in Hc.
  apply (opens_fence_window _ _ rest), codeBlockRegex_needs_fence in Hc.
  change (String c before +:+ "```" +:+ rest)
    with (String c (before +:+ "```" +:+ rest)) in *.
  cbn [FindStringSubmatch]. rewrite Hc. by apply IH.
Qed.

(** The fence comes first, the capture is the shortest, the dot matches
    the newline, and the label is optional: a bare object in front of the
    block is not taken; of two blocks the first is captured alone; an
    object on several lines is captured whole; a fence without label
    does as well. *)
Example extractJSON_fences :
  extractJSON (js "{'overview':'bare','issues':[]} ```json" +:+ nl
               +:+ js "{'overview':'fenced','issues':[]}" +:+ nl +:+ "```")
    = js "{'overview':'fenced','issues':[]}"
  /\ extractJSON ("```json" +:+ nl +:+ js "{'a':1}" +:+ nl +:+ "``` and ```"
                  +:+ nl +:+ js "{'b':2}" +:+ nl +:+ "```")
    = js "{'a':1}"
  /\ extractJSON ("```json" +:+ nl +:+ "{" +:+ nl +:+ js "  'overview': 'x',"
                  +:+ nl +:+ js "  'issues': []" +:+ nl +:+ "}" +:+ nl +:+ "```")
    = "{" +:+ nl +:+ js "  'overview': 'x'," +:+ nl +:+ js "  'issues': []"
      +:+ nl +:+ "}"
  /\ extractJSON ("```" +:+ nl +:+ json_x +:+ nl +:+ "```") = json_x.
Proof. repeat split; vm_compute; reflexivity. Qed.


Lemma run_Group (n : nat) (a : regex) (k : cont) (s : string) (pos : nat)
    (cs : caps) :
  run (Group n a) k s pos cs
  = run a (fun s' pos' cs' => k s' pos' ((n, (pos, pos')) :: cs')) s pos cs.
Proof. reflexivity. Qed.

(** A literal at the start of the text. *)
Lemma run_Str (lit : string) (k : cont) (rest : string) (pos : nat) (cs : caps) :
  run (Str lit) k (lit +:+ rest) pos cs = k rest (pos + String.length lit) cs.
Proof.
  revert pos. induction lit as [|c lit IH]; intros pos.
  - cbn. by rewrite Nat.add_0_r.
  - change (String c lit +:+ rest) with (String c (lit +:+ rest)).
    cbn [Str]. rewrite run_Seq. cbn [run]. rewrite Ascii.eqb_refl, IH.
    f_equal. cbn. lia.
Qed.

(** A lazy star stops in front of the first place where what follows
    matches. *)
Lemma star_lazy_first (p : ascii -> bool) (k : cont) (w rest : string)
    (pos : nat) (cs : caps) (r : caps * nat) :
  string_all p w = true ->
  (forall m1 c m2 pos', w = m1 +:+ String c m2 ->
     k (String c m2 +:+ rest) pos' cs = None) ->
  k rest (pos + String.length w) cs = Some r ->
  run (Star false p) k (w +:+ rest) pos cs = Some r.
Proof.
  cbn [run]. intros Hw. revert pos. induction w as [|c w IH]; intros pos Hfail Hk.
  - change ("" +:+ rest) with rest. rewrite star_lazy_unfold.
    cbn in Hk. rewrite Nat.add_0_r in Hk. by rewrite Hk.
  - cbn in Hw. apply andb_prop in Hw as [Hc Hw].
    pose proof (Hfail "" c w pos eq_refl) as Hnone.
    change (String c w +:+ rest) with (String c (w +:+ rest)) in *.
    rewrite star_lazy_unfold, Hnone, Hc. apply (IH Hw).
    + intros m1 c' m2 pos' ->. by apply (Hfail (String c m1) c' m2 pos').
    + rewrite <- Hk. f_equal. cbn. lia.
Qed.

Lemma string_all_any (s : string) : string_all any s = true.
Proof. by induction s. Qed.

Lemma fence_free_app (a b : string) :
  fence_free (a +:+ b) = true -> fence_free b = true.
Proof.
  induction a as [|c a IH]; [done|].
  change (String c a +:+ b) with (String c (a +:+ b)). cbn [fence_free].
  by intros [_ H]%andb_prop; apply IH.
Qed.

Lemma fence_free_fence (a : string) : fence_free ("```" +:+ a) = false.
Proof. reflexivity. Qed.

(** White space, then a fence, behind a text and a closing brace: the
    fence stands in the text. *)
Lemma fence_behind_spaces (spaces m rest rest' : string) :
  string_all ws spaces = true ->
  m +:+ String "}" rest = spaces +:+ "```" +:+ rest' ->
  exists a1 a2, m = a1 +:+ "```" +:+ a2.
Proof.
  revert m. induction spaces as [|x spaces IH]; intros m Hs Heq.
  - change ("" +:+ "```" +:+ rest') with ("```" +:+ rest') in Heq.
    destruct m as [|c1 [|c2 [|c3 m]]]; try discriminate Heq.
    injection Heq as -> -> -> _. by exists "", m.
  - cbn in Hs. apply andb_prop in Hs as [Hx Hs].
    change (String x spaces +:+ "```" +:+ rest')
      with (String x (spaces +:+ "```" +:+ rest')) in Heq.
    destruct m as [|c m].
    + injection Heq as <- _. discriminate Hx.
    + change (String c m +:+ String "}" rest)
        with (String c (m +:+ String "}" rest)) in Heq.
      injection Heq as -> Heq.
      destruct (IH m Hs Heq) as (a1 & a2 & ->).
      by exists (String x a1), a2.
Qed.

(** The pattern on a fenced block: the whole block and the object. *)
Lemma codeBlockRegex_block (label space1 inside space2 after : string) :
  label = "json" \/ label = "" ->
  string_all ws space1 = true -> string_all ws space2 = true ->
  fence_free inside = true ->
  FindStringSubmatch codeBlockRegex 1
    (fenced_reply "" label space1 inside space2 after)
  = [ "```" +:+ label +:+ space1 +:+ "{" +:+ inside +:+ "}" +:+ space2 +:+ "```";
      "{" +:+ inside +:+ "}" ].
Proof.
  intros Hlabel Hs1 Hs2 Hfree.
  set (R := space2 +:+ "```" +:+ after).
  set (G := "{" +:+ inside +:+ "}" +:+ R).
  assert (Hmatch : exists cs len,
            match_here codeBlockRegex ("```" +:+ label +:+ space1 +:+ G)
            = Some (cs, len)
            /\ len = String.length ("```" +:+ label +:+ space1 +:+ "{" +:+ inside
                                    +:+ "}" +:+ space2 +:+ "```")
            /\ cap_lookup 1 cs
               = Some (String.length ("```" +:+ label +:+ space1),
                       String.length ("```" +:+ label +:+ space1)
                       + String.length ("{" +:+ inside +:+ "}"))).
  { eexists _, _. split; [|split].
    - unfold match_here, codeBlockRegex, Cat, Opt. cbn [fold_right].
      rewrite run_Seq, run_Str.
      (* the label *)
      rewrite run_Seq.
      assert (Hopt : forall K r,
                K (space1 +:+ G) (0 + String.length "```" + String.length label) []
                = Some r ->
                run (Alt (Str "json") Eps) K (label +:+ space1 +:+ G)
                  (0 + String.length "```") [] = Some r).
      { intros K r HK. destruct Hlabel as [-> | ->].
        - apply run_Alt_left. by rewrite run_Str.
        - change ("" +:+ space1 +:+ G) with (space1 +:+ G).
          apply run_Alt_right; [|by rewrite run_Eps, <- HK, Nat.add_0_r].
          destruct space1 as [|x space1]; [reflexivity|].
          cbn in Hs1. apply andb_prop in Hs1 as [Hx _].
          change (String x space1 +:+ G) with (String x (space1 +:+ G)).
          cbn [Str]. rewrite run_Seq. cbn [run].
          destruct (Ascii.eqb_spec "j" x) as [<-|]; [discriminate Hx|done]. }
      apply Hopt. clear Hopt.
      (* white space, then the group *)
      rewrite run_Seq.
      apply (star_greedy_all ws _ space1 G);
        [done|by apply (stops_head ws "{" (inside +:+ "}" +:+ R))|].
      rewrite run_Seq, run_Group. subst G.
      change ("{" +:+ inside +:+ "}" +:+ R) with (String "{" (inside +:+ "}" +:+ R)).
      rewrite run_Seq. apply run_Chr; [done|].
      rewrite run_Seq. apply star_lazy_first; [apply string_all_any|..].
      + intros m1 c m2 pos' ->.
        match goal with |- ?k _ _ _ = None => destruct (k (String c m2 +:+ "}" +:+ R) pos' []) as [res|] eqn:Hk end;
          [exfalso|done].
        apply run_sound in Hk as (w & rest1 & c1 & Heq & Hm & Hk).
        cbn [matches] in Hm.
        destruct Hm as (w1 & w2 & ? & ? & -> & (x & -> & Hx & _) & (-> & _) & _).
        apply Ascii.eqb_eq in Hx as <-.
        change ((String "}" "" +:+ "") +:+ rest1) with (String "}" rest1) in Heq.
        change (String c m2 +:+ "}" +:+ R) with (String c (m2 +:+ String "}" R)) in Heq.
        injection Heq as -> Heq.
        apply run_sound in Hk as (w & rest2 & c2 & -> & Hm & _).
        cbn [matches] in Hm.
        destruct Hm as (spaces & w2 & ? & ? & -> & (Hsp & _) & Hm & _).
        destruct Hm as (w3 & w4 & ? & ? & -> & ->%matches_Str & (-> & _) & _).
        rewrite append_empty_r, !append_assoc in Heq.
        apply (fence_behind_spaces spaces m2 R) in Heq as (a1 & a2 & ->); [|done].
        apply fence_free_app in Hfree.
        change (String "}" (a1 +:+ "```" +:+ a2))
          with (String "}" "" +:+ (a1 +:+ "```" +:+ a2)) in Hfree.
        apply fence_free_app, fence_free_app in Hfree.
        by rewrite fence_free_fence in Hfree.
      + change ("}" +:+ R) with (String "}" R).
        rewrite run_Seq. apply run_Chr; [done|]. rewrite run_Eps. cbv beta.
        subst R.
        rewrite run_Seq.
        apply (star_greedy_all ws _ space2 ("```" +:+ after));
          [done|by apply (stops_head ws "`" ("``" +:+ after))|].
        rewrite run_Seq, run_Str, run_Eps. reflexivity.
    - rewrite !append_length. cbn [String.length]. lia.
    - cbn [cap_lookup Nat.eqb]. f_equal. f_equal;
        rewrite !append_length; cbn [String.length]; lia. }
  destruct Hmatch as (cs & len & Hm & Hlen & Hcap).
  unfold fenced_reply. change ("" +:+ ?x) with x.
  fold R. fold G.
  assert (Hfind : FindStringSubmatch codeBlockRegex 1 ("```" +:+ label +:+ space1 +:+ G)
                  = submatches 1 ("```" +:+ label +:+ space1 +:+ G) len cs).
  { change ("```" +:+ label +:+ space1 +:+ G)
      with (String "`" ("``" +:+ label +:+ space1 +:+ G)) in *.
    cbn [FindStringSubmatch]. by rewrite Hm. }
  rewrite Hfind. unfold submatches, group_text. cbn [map seq]. rewrite Hcap.
  subst G R. f_equal; [|f_equal].
  - apply (slice_between "" _ after); [|done|by rewrite Hlen].
    by rewrite !append_assoc.
  - apply (slice_between ("```" +:+ label +:+ space1) _ (space2 +:+ "```" +:+ after));
      [by rewrite !append_assoc|done..].
Qed.

(** C6.  The fenced block comes first and its object is captured whole.
    For every reply made of a text in which no fence starts, a fence with
    the label json or with no label, white space (or none), an object from
    its opening to its closing brace in which no fence stands, whatever
    lines, braces and objects it holds, white space (or none), a fence, and
    any text behind: [extractJSON] returns the object, whatever raw JSON or
    later blocks the texts around it hold, so that [ParseAIResponse] gives
    what the decoding of the object gives, and the fallback parse of the
    reply when the object does not decode.  With the object
    {"overview":"x","issues":[]} of the specification the reply
    normalises to the overview x without diagnostics. *)
Theorem C6_fenced_json_extraction
    (before label space1 inside space2 after : string) :
  no_fence_in before = true ->
  label = "json" \/ label = "" ->
  string_all ws space1 = true -> string_all ws space2 = true ->
  fence_free inside = true ->
  let object := "{" +:+ inside +:+ "}" in
  let text := fenced_reply before label space1 inside space2 after in
  extractJSON text = object
  /\ (forall rawResponse,
        Decode.Unmarshal object = inl rawResponse ->
        ParseAIResponse text =
        (Some {| models.Overview := raw.Overview rawResponse;
                 models.Diagnostics :=
                   map issue_diagnostic (raw.Issues rawResponse) |}, None))
  /\ (forall e,
        Decode.Unmarshal object = inr e ->
        ParseAIResponse text = parseUnstructuredResponse text)
  /\ (object = json_x ->
      ParseAIResponse text =
      (Some {| models.Overview := "x"; models.Diagnostics := [] |}, None)).
Proof.
  intros Hbefore Hlabel Hs1 Hs2 Hfree object text.
  assert (He : extractJSON text = object).
  { unfold extractJSON, text, fenced_reply.
    rewrite codeBlockRegex_skips_prose by done.
    pose proof (codeBlockRegex_block label space1 inside space2 after
                  Hlabel Hs1 Hs2 Hfree) as Hm.
    unfold fenced_reply in Hm. change ("" +:+ ?x) with x in Hm.
    by rewrite Hm. }
  split; [exact He|].
  assert (Hraw : forall rawResponse,
            Decode.Unmarshal object = inl rawResponse ->
            ParseAIResponse text =
            (Some {| models.Overview := raw.Overview rawResponse;
                     models.Diagnostics :=
                       map issue_diagnostic (raw.Issues rawResponse) |}, None)).
  { intros rawResponse Hu. unfold ParseAIResponse. by rewrite He, Hu. }
  split; [exact Hraw|]. split.
  - intros e Hu. unfold ParseAIResponse. by rewrite He, Hu.
  - intros Hx. rewrite Hx in Hraw.
    exact (Hraw {| raw.Overview := "x"; raw.Issues := [] |} eq_refl).
Qed.

(** The theorem at a block without label that holds an object on several
    lines with an object inside, between two paragraphs of prose, inline
    code in the first and braces in the second. *)
Lemma C6_fenced_json_extraction_witness :
  no_fence_in prose_before = true
  /\ string_all ws nl = true
  /\ fence_free inside_lines = true
  /\ extractJSON (fenced_reply prose_before "" nl inside_lines nl prose_after)
     = "{" +:+ inside_lines +:+ "}".
Proof.
  split; [reflexivity|]. split; [reflexivity|]. split; [reflexivity|].
  exact (proj1 (C6_fenced_json_extraction prose_before "" nl inside_lines nl
                  prose_after eq_refl (or_intror eq_refl) eq_refl eq_refl eq_refl)).
Defined.

(** The block of the specification, labeled json, between the same two
    paragraphs; and the same object in a block without label. *)
Example fenced_x_between_prose :
  fenced_reply prose_before "json" nl (js "'overview':'x','issues':[]") nl prose_after
  = prose_before +:+ fenced_x +:+ prose_after
  /\ ParseAIResponse (prose_before +:+ fenced_x +:+ prose_after)
     = (Some {| models.Overview := "x"; models.Diagnostics := [] |}, None)
  /\ ParseAIResponse
       (fenced_reply prose_before "" "" (js "'overview':'x','issues':[]") "" prose_after)
     = (Some {| models.Overview := "x"; models.Diagnostics := [] |}, None).
Proof. repeat split; vm_compute; reflexivity. Qed.

(** ** Upper case and white space *)























